(** * libbgcode, [convert.cpp]: binary G-code to ASCII conversion

    A shallow embedding of [src/convert/convert.cpp] and the properties
    of its text utilities, thumbnail encoder and block-ordering state
    machine. *)

From Equations Require Import Equations.
From Stdlib Require Import Ascii String DecimalString.
From Stdlib.Strings Require Import Byte.
From Stdlib Require Import List Arith Lia Bool NArith ZArith.
Import ListNotations.

(** ** Text

    [std::string] and [std::string_view] are sequences of [char]; both
    are modelled as lists of characters, indexed from 0. *)

Definition text := list ascii.

(** A string literal of the source. *)
Definition lit (s : string) : text := list_ascii_of_string s.

Definition newline : ascii := "010"%char.
Definition tab_char : ascii := "009"%char.
Definition semicolon : ascii := ";"%char.

(** [str[i]] with the bound written out: [None] is an access outside
    the buffer (undefined behaviour in the source). *)
Definition char_at (str : text) (i : nat) : option ascii := nth_error str i.

(** [std::string_view(&str[pos], count)]: the address of [str[pos]] must
    be a valid element and the span must lie inside the buffer. *)
Definition view_at (str : text) (pos count : nat) : option text :=
  if (pos <? length str) && (pos + count <=? length str)
  then Some (firstn count (skipn pos str))
  else None.

Notation "x <- a ;; b" :=
  (match a with Some x => b | None => None end)
  (right associativity, at level 60, a at next level).

Module TextUtil.

(** [str[i] == ' ' || str[i] == '\t'] *)
Definition is_blank (c : ascii) : bool :=
  Ascii.eqb c " " || Ascii.eqb c tab_char.

(** [while (start < str.size() - 1 && is_blank(str[start])) ++start;]
    (convert.cpp line 16).  [str] is not empty here, so the unsigned
    [str.size() - 1] does not wrap. *)
Equations? skip_leading (str : text) (start : nat) : option nat
  by wf (length str - 1 - start) lt :=
  skip_leading str start with lt_dec start (length str - 1) => {
    | right _ => Some start
    | left _ with char_at str start => {
        | None => None
        | Some c with is_blank c => {
            | true => skip_leading str (S start)
            | false => Some start } } }.
Proof. lia. Qed.

(** [while (end > 0 && is_blank(str[end])) --end;] (line 18). *)
Fixpoint skip_trailing (str : text) (end_ : nat) : option nat :=
  match end_ with
  | 0 => Some 0
  | S e =>
      c <- char_at str end_ ;;
      if is_blank c then skip_trailing str e else Some end_
  end.

(** [trim] (lines 11-23). *)
Definition trim (str : text) : option text :=
  match str with
  | [] => Some []
  | _ :: _ =>
      start <- skip_leading str 0 ;;
      end_ <- skip_trailing str (length str - 1) ;;
      if start =? end_ then
        c <- char_at str end_ ;;
        if is_blank c then Some [] else view_at str start (end_ - start + 1)
      else if end_ <? start then Some []
      else view_at str start (end_ - start + 1)
  end.

(** [uncomment] (lines 25-28): [str.substr(1)] is the view without its
    first character. *)
Definition uncomment (str : text) : option text :=
  match str with
  | [] => Some str
  | _ :: _ =>
      c <- char_at str 0 ;;
      if Ascii.eqb c semicolon then trim (skipn 1 str) else Some str
  end.

End TextUtil.

Import TextUtil.


(** ** Normalisation of a G-code payload

    The lambda [remove_empty_lines] (convert.cpp lines 157-176).  The
    iterators [begin_it] and [end_it] are indices into [data];
    [data.end()] is [length data]. *)

Module Lines.

(** A value together with the equation that names it: keeps the result
    of a test available to the termination proofs. *)
Definition inspect {A : Type} (a : A) : {b : A | a = b} := exist _ a eq_refl.

(** [while (end_it != data.end() && *end_it != '\n') ++end_it;]
    Dereferencing an index beyond the buffer has no defined result. *)
Equations? find_line_end (data : text) (end_it : nat) : option nat
  by wf (length data - end_it) lt :=
  find_line_end data end_it with Nat.eq_dec end_it (length data) => {
    | left _ => Some end_it
    | right _ with inspect (char_at data end_it) => {
        | exist _ None _ => None
        | exist _ (Some c) _ with Ascii.eqb c newline => {
            | true => Some end_it
            | false => find_line_end data (S end_it) } } }.
Proof.
  unfold char_at in *.
  assert (end_it < length data) by (apply nth_error_Some; congruence).
  lia.
Qed.

(** The inner loop only moves forward. *)
Lemma find_line_end_ge (data : text) (b e : nat) :
  find_line_end data b = Some e -> b <= e.
Proof.
  funelim (find_line_end data b); intros Hr;
    try discriminate; try (injection Hr as <-; lia).
  match goal with IH : forall e, _ = Some e -> _ |- _ => apply IH in Hr end.
  lia.
Qed.

(** [std::string_view original_line(&data[pos], line_length)]: on a
    [std::string], [data[pos]] is defined for [pos <= data.size()]. *)
Definition line_view (data : text) (pos line_length : nat) : option text :=
  if (pos <=? length data) && (pos + line_length <=? length data)
  then Some (firstn line_length (skipn pos data))
  else None.

(** [uncomment(trim(original_line))] is not empty. *)
Definition significant (original_line : text) : option bool :=
  trimmed <- trim original_line ;;
  reduced_line <- uncomment trimmed ;;
  Some (negb (Nat.eqb (length reduced_line) 0)).

(** One turn of the outer loop, from the line end found by the inner
    loop: the new [ret], or [None] when an access is out of range. *)
Definition take_line (data : text) (begin_it end_it : nat) (ret : text)
  : option text :=
  original_line <- line_view data begin_it (end_it - begin_it) ;;
  keep <- significant original_line ;;
  Some (if keep then ret ++ original_line ++ [newline] else ret).

(** The outer loop [while (end_it != data.end()) { ... begin_it = ++end_it; }]
    entered with [begin_it = end_it].  When the inner loop has stopped at
    [data.end()], that is on a last line without newline, [++end_it] steps
    beyond the end of the buffer: no result. *)
Equations? lines_loop (data : text) (begin_it : nat) (ret : text)
  : option text by wf (length data - begin_it) lt :=
  lines_loop data begin_it ret with Nat.eq_dec begin_it (length data) => {
    | left _ => Some ret
    | right _ with inspect (find_line_end data begin_it) => {
        | exist _ None _ => None
        | exist _ (Some end_it) _ with take_line data begin_it end_it ret => {
            | None => None
            | Some ret' with le_lt_dec (length data) end_it => {
                | left _ => None
                | right _ => lines_loop data (S end_it) ret' } } } }.
Proof.
  apply find_line_end_ge in e. lia.
Qed.

Definition remove_empty_lines (data : text) : option text :=
  lines_loop data 0 [].

End Lines.

Import Lines.

(** ** Base-64

    [boost::beast::detail::base64] is a library routine, not code of this
    repository; it is transcribed here so that the thumbnail body can be
    related to the image bytes.  [data] is a [std::vector<std::byte>]. *)

Module Base64.

Definition alphabet : text :=
  lit "ABCDEFGHIJKLMNOPQRSTUVWXYZabcdefghijklmnopqrstuvwxyz0123456789+/".

Definition padding : ascii := "="%char.

(** [tab[n]] for a 6-bit [n]. *)
Definition tab (n : N) : ascii := nth (N.to_nat n) alphabet padding.

Definition val (x : byte) : N := Byte.to_N x.

(** [encoded_size(n)]: [4 * ((n + 2) / 3)]. *)
Definition encoded_size (n : nat) : nat := 4 * ((n + 2) / 3).

(** [encode]: whole groups of three bytes ([for (auto n = len / 3; n--;)]),
    then [switch (len % 3)]. *)
Fixpoint encode (src : list byte) : text :=
  match src with
  | [] => []
  | [in0] =>
      [ tab (N.shiftr (N.land (val in0) 252) 2);
        tab (N.shiftl (N.land (val in0) 3) 4);
        padding; padding ]
  | [in0; in1] =>
      [ tab (N.shiftr (N.land (val in0) 252) 2);
        tab (N.shiftl (N.land (val in0) 3) 4 + N.shiftr (N.land (val in1) 240) 4);
        tab (N.shiftl (N.land (val in1) 15) 2);
        padding ]
  | in0 :: in1 :: in2 :: rest =>
      tab (N.shiftr (N.land (val in0) 252) 2) ::
      tab (N.shiftl (N.land (val in0) 3) 4 + N.shiftr (N.land (val in1) 240) 4) ::
      tab (N.shiftr (N.land (val in2) 192) 6 + N.shiftl (N.land (val in1) 15) 2) ::
      tab (N.land (val in2) 63) ::
      encode rest
  end.

(** The decoder of the same alphabet (RFC 4648, padded), the inverse
    against which the thumbnail body is checked. *)
Fixpoint index_of (c : ascii) (l : text) : option N :=
  match l with
  | [] => None
  | d :: l' => if Ascii.eqb c d then Some 0%N
               else option_map N.succ (index_of c l')
  end.

Definition inverse (c : ascii) : option N := index_of c alphabet.

(** An [unsigned char] built from an arithmetic result. *)
Definition to_uchar (n : N) : byte :=
  match Byte.of_N (n mod 256) with
  | Some x => x
  | None => x00
  end.

Definition c3_0 (v0 v1 : N) : byte :=
  to_uchar (N.shiftl v0 2 + N.shiftr (N.land v1 48) 4).
Definition c3_1 (v1 v2 : N) : byte :=
  to_uchar (N.shiftl (N.land v1 15) 4 + N.shiftr (N.land v2 60) 2).
Definition c3_2 (v2 v3 : N) : byte :=
  to_uchar (N.shiftl (N.land v2 3) 6 + v3).

Fixpoint decode (s : text) : option (list byte) :=
  match s with
  | [] => Some []
  | c0 :: c1 :: c2 :: c3 :: rest =>
      v0 <- inverse c0 ;;
      v1 <- inverse c1 ;;
      if Ascii.eqb c2 padding then
        if Ascii.eqb c3 padding then
          match rest with
          | [] => Some [c3_0 v0 v1]
          | _ :: _ => None
          end
        else None
      else
        v2 <- inverse c2 ;;
        if Ascii.eqb c3 padding then
          match rest with
          | [] => Some [c3_0 v0 v1; c3_1 v1 v2]
          | _ :: _ => None
          end
        else
          v3 <- inverse c3 ;;
          tail <- decode rest ;;
          Some (c3_0 v0 v1 :: c3_1 v1 v2 :: c3_2 v2 v3 :: tail)
  | _ => None
  end.

End Base64.

(** ** Result codes, block types and payloads

    Modelled from the spec: the enumerations [EResult], [EBlockType] and
    [EThumbnailFormat] and the block structures are declared in the core
    library's header, which is not part of [convert.cpp].  [EResult] keeps
    the codes that the converter names, [ReadError] for the failures of
    the Block Access Layer, and [LayerError] for any other code that the
    layer may hand back. *)

Inductive EResult : Type :=
| Success
| ReadError
| WriteError
| InvalidSequenceOfBlocks
| LayerError (code : N).

Definition is_success (res : EResult) : bool :=
  match res with
  | Success => true
  | _ => false
  end.

Inductive EBlockType : Type :=
| FileMetadata
| GCode
| SlicerMetadata
| PrinterMetadata
| PrintMetadata
| Thumbnail.

Definition block_type_eqb (a b : EBlockType) : bool :=
  match a, b with
  | FileMetadata, FileMetadata
  | GCode, GCode
  | SlicerMetadata, SlicerMetadata
  | PrinterMetadata, PrinterMetadata
  | PrintMetadata, PrintMetadata
  | Thumbnail, Thumbnail => true
  | _, _ => false
  end.

(** [UnknownFormat] stands for a format tag that is none of the three
    enumerators; the [switch] sends it to the [default] label. *)
Inductive EThumbnailFormat : Type :=
| PNG
| JPG
| QOI
| UnknownFormat (tag : N).

(** [raw_data] of the four metadata blocks. *)
Definition metadata := list (text * text).

Record ThumbnailBlock : Type := {
  format : EThumbnailFormat;
  width : N;
  height : N;
  data : list byte
}.

(** [std::to_string] of an unsigned value. *)
Definition to_string (n : N) : text :=
  lit (NilEmpty.string_of_uint (N.to_uint n)).

Definition text_eqb (a b : text) : bool :=
  if list_eq_dec Ascii.ascii_dec a b then true else false.

(** ** The destination stream

    [dst_file] as the converter sees it: the bytes written so far and the
    error indicator tested by [ferror].  [space] bounds what the stream
    still accepts ([None]: no bound); a write that does not fit is cut
    short and sets the indicator, which stays set. *)

Record OutFile : Type := {
  contents : text;
  space : option nat;
  error_flag : bool
}.

Definition fwrite (line : text) (f : OutFile) : OutFile :=
  match space f with
  | None =>
      {| contents := contents f ++ line; space := None;
         error_flag := error_flag f |}
  | Some room =>
      if length line <=? room then
        {| contents := contents f ++ line;
           space := Some (room - length line);
           error_flag := error_flag f |}
      else
        {| contents := contents f ++ firstn room line;
           space := Some 0;
           error_flag := true |}
  end.

Definition ferror (f : OutFile) : bool := error_flag f.

(** The lambda [write_line] (lines 37-40). *)
Definition write_line (line : text) (dst : OutFile) : bool * OutFile :=
  let dst := fwrite line dst in
  (negb (ferror dst), dst).

(** The lambda [write_metadata] (lines 42-48). *)
Fixpoint write_metadata (data : metadata) (dst : OutFile) : bool * OutFile :=
  match data with
  | [] => (negb (ferror dst), dst)
  | (key, value) :: rest =>
      let '(ok, dst) :=
        write_line (lit "; " ++ key ++ lit " = " ++ value ++ [newline]) dst in
      if negb ok then (false, dst) else write_metadata rest dst
  end.

(** ** The Block Access Layer

    The converter consumes the core library through these calls; their
    code is not in [convert.cpp], so they are parameters of the
    development.  Each call takes the source stream and hands back the
    result code, the value stored through its output reference, and the
    stream afterwards.  [read_next_block_header_of] is the overload that
    takes the expected block type (line 184). *)

Record BlockAccessLayer : Type := {
  Src : Type;
  FileHeader : Type;
  BlockHeader : Type;
  header_type : BlockHeader -> EBlockType;
  ftell : Src -> Z;
  fseek_set : Src -> Z -> Src;
  fseek_end : Src -> Src;
  rewind : Src -> Src;
  is_valid_binary_gcode : Src -> EResult * Src;
  read_header : Src -> EResult * FileHeader * Src;
  read_next_block_header :
    Src -> FileHeader -> bool -> EResult * BlockHeader * Src;
  read_next_block_header_of :
    Src -> FileHeader -> EBlockType -> bool -> EResult * BlockHeader * Src;
  skip_block_content : Src -> FileHeader -> BlockHeader -> EResult * Src;
  read_file_metadata :
    Src -> FileHeader -> BlockHeader -> EResult * metadata * Src;
  read_printer_metadata :
    Src -> FileHeader -> BlockHeader -> EResult * metadata * Src;
  read_print_metadata :
    Src -> FileHeader -> BlockHeader -> EResult * metadata * Src;
  read_slicer_metadata :
    Src -> FileHeader -> BlockHeader -> EResult * metadata * Src;
  read_thumbnail :
    Src -> FileHeader -> BlockHeader -> EResult * ThumbnailBlock * Src;
  read_gcode : Src -> FileHeader -> BlockHeader -> EResult * text * Src
}.

(** ** Control

    A stretch of [from_binary_to_ascii] either falls through to the next
    statement ([Next]), executes a [return] ([Return], with the two
    streams as they are left), or has no result: a loop that outlives its
    fuel, or an access outside a buffer. *)

Inductive Anomaly : Type :=
| OutOfFuel
| OutOfRange.

Inductive Outcome (S A : Type) : Type :=
| Next (a : A)
| Return (res : EResult) (src : S) (dst : OutFile)
| Stuck (why : Anomaly).

Arguments Next {S A} a.
Arguments Return {S A} res src dst.
Arguments Stuck {S A} why.

Definition and_then {S A B : Type} (o : Outcome S A) (k : A -> Outcome S B)
  : Outcome S B :=
  match o with
  | Next a => k a
  | Return res src dst => Return res src dst
  | Stuck why => Stuck why
  end.

Notation "'do' x <- o ; k" := (and_then o (fun x => k))
  (at level 10, x pattern, o at level 100, k at level 200).

(** ** [from_binary_to_ascii] (convert.cpp lines 35-249) *)

Module Convert.

Definition nl : text := [newline].

(** [static constexpr const size_t max_row_length = 78;] *)
Definition max_row_length : nat := 78.

(** The [switch] on the thumbnail format (lines 125-131). *)
Definition thumbnail_label (f : EThumbnailFormat) : text :=
  match f with
  | JPG => lit "thumbnail_JPG"
  | QOI => lit "thumbnail_QOI"
  | PNG | UnknownFormat _ => lit "thumbnail"
  end.

(** The rows of the encoded image (lines 135-143): while more than
    [max_row_length] characters remain, write that many and keep the
    rest; then write what is left, if anything. *)
Equations? write_rows (encoded : text) (dst : OutFile) : bool * OutFile
  by wf (length encoded) lt :=
  write_rows encoded dst with le_lt_dec (length encoded) max_row_length => {
    | left _ =>
        if 0 <? length encoded
        then write_line (lit "; " ++ encoded ++ nl) dst
        else (true, dst)
    | right _
        with write_line (lit "; " ++ firstn max_row_length encoded ++ nl) dst => {
        | (false, dst') => (false, dst')
        | (true, dst') => write_rows (skipn max_row_length encoded) dst' } }.
Proof.
  change (length (skipn max_row_length encoded) < length encoded).
  rewrite length_skipn. unfold max_row_length in *. lia.
Qed.

(** The line that opens a thumbnail (lines 132-133). *)
Definition thumbnail_begin (label : text) (t : ThumbnailBlock) (encoded : text)
  : text :=
  nl ++ lit ";" ++ nl ++ lit "; " ++ label ++ lit " begin " ++
  to_string (width t) ++ lit "x" ++ to_string (height t) ++ lit " " ++
  to_string (N.of_nat (length encoded)) ++ nl.

(** The lines that close it (line 144). *)
Definition thumbnail_end (label : text) : text :=
  lit "; " ++ label ++ lit " end" ++ nl ++ lit ";" ++ nl.

Section WithLayer.

Variable L : BlockAccessLayer.
Variable verify_checksum : bool.

(** The locals that the two loops assign, with the two streams. *)
Record State : Type := {
  src_file : Src L;
  dst_file : OutFile;
  block_header : BlockHeader L;
  restore_position : Z
}.

Definition with_src (st : State) (src : Src L) : State :=
  {| src_file := src; dst_file := dst_file st;
     block_header := block_header st;
     restore_position := restore_position st |}.

(** Lines 50-87: validation, file size, file header and the
    file-metadata block.  Falls through with [file_size], [file_header]
    and the two streams. *)
Definition convert_file_metadata (src : Src L) (dst : OutFile)
  : Outcome (Src L) (Z * FileHeader L * Src L * OutFile) :=
  let '(res, src) := is_valid_binary_gcode L src in
  if negb (is_success res) then Return res src dst else
  let src := fseek_end L src in
  let file_size := ftell L src in
  let src := rewind L src in
  let '(res, file_header, src) := read_header L src in
  if negb (is_success res) then Return res src dst else
  let '(res, header, src) :=
    read_next_block_header L src file_header verify_checksum in
  if negb (is_success res) then Return res src dst else
  if negb (block_type_eqb (header_type L header) FileMetadata)
  then Return InvalidSequenceOfBlocks src dst else
  let '(res, raw_data, src) := read_file_metadata L src file_header header in
  if negb (is_success res) then Return res src dst else
  let producer_str :=
    match find (fun item => text_eqb (fst item) (lit "Producer")) raw_data with
    | Some item => snd item
    | None => lit "Unknown"
    end in
  let '(ok, dst) :=
    write_line (lit "; generated by " ++ producer_str ++ nl ++ nl ++ nl) dst in
  if negb ok then Return WriteError src dst else
  Next (file_size, file_header, src, dst).

Section WithFileHeader.

Variable file_header : FileHeader L.
Variable file_size : Z.

(** Lines 92-104: the printer-metadata block. *)
Definition convert_printer_metadata (src : Src L) (dst : OutFile)
  : Outcome (Src L) (Src L * OutFile) :=
  let '(res, header, src) :=
    read_next_block_header L src file_header verify_checksum in
  if negb (is_success res) then Return res src dst else
  if negb (block_type_eqb (header_type L header) PrinterMetadata)
  then Return InvalidSequenceOfBlocks src dst else
  let '(res, raw_data, src) := read_printer_metadata L src file_header header in
  if negb (is_success res) then Return res src dst else
  let '(ok, dst) := write_metadata raw_data dst in
  if negb ok then Return WriteError src dst else
  Next (src, dst).

(** The thumbnail loop (lines 114-152), entered with the header read
    last in [block_header]. *)
Fixpoint thumbnails_loop (fuel : nat) (st : State) : Outcome (Src L) State :=
  if negb (block_type_eqb (header_type L (block_header st)) Thumbnail)
  then Next st else
  match fuel with
  | 0 => Stuck OutOfFuel
  | S fuel =>
      let dst := dst_file st in
      let '(res, thumbnail_block, src) :=
        read_thumbnail L (src_file st) file_header (block_header st) in
      if negb (is_success res) then Return res src dst else
      let encoded := Base64.encode (data thumbnail_block) in
      let label := thumbnail_label (format thumbnail_block) in
      let '(ok, dst) :=
        write_line (thumbnail_begin label thumbnail_block encoded) dst in
      if negb ok then Return WriteError src dst else
      let '(ok, dst) := write_rows encoded dst in
      if negb ok then Return WriteError src dst else
      let '(ok, dst) := write_line (thumbnail_end label) dst in
      if negb ok then Return WriteError src dst else
      let position := ftell L src in
      let '(res, header, src) :=
        read_next_block_header L src file_header verify_checksum in
      if negb (is_success res) then Return res src dst else
      thumbnails_loop fuel
        {| src_file := src; dst_file := dst; block_header := header;
           restore_position := position |}
  end.

(** Lines 109-152. *)
Definition convert_thumbnails (fuel : nat) (src : Src L) (dst : OutFile)
  : Outcome (Src L) State :=
  let position := ftell L src in
  let '(res, header, src) :=
    read_next_block_header L src file_header verify_checksum in
  if negb (is_success res) then Return res src dst else
  thumbnails_loop fuel
    {| src_file := src; dst_file := dst; block_header := header;
       restore_position := position |}.

(** The G-code loop (lines 188-205). *)
Fixpoint gcode_loop (fuel : nat) (st : State) : Outcome (Src L) State :=
  if negb (block_type_eqb (header_type L (block_header st)) GCode)
  then Next st else
  match fuel with
  | 0 => Stuck OutOfFuel
  | S fuel =>
      let dst := dst_file st in
      let '(res, raw_data, src) :=
        read_gcode L (src_file st) file_header (block_header st) in
      if negb (is_success res) then Return res src dst else
      match remove_empty_lines raw_data with
      | None => Stuck OutOfRange
      | Some out_str =>
          let '(ok, dst) :=
            match out_str with
            | [] => (true, dst)
            | _ :: _ => write_line out_str dst
            end in
          if negb ok then Return WriteError src dst else
          if (ftell L src =? file_size)%Z then
            Next {| src_file := src; dst_file := dst;
                    block_header := block_header st;
                    restore_position := restore_position st |}
          else
            let '(res, header, src) :=
              read_next_block_header L src file_header verify_checksum in
            if negb (is_success res) then Return res src dst else
            gcode_loop fuel
              {| src_file := src; dst_file := dst; block_header := header;
                 restore_position := restore_position st |}
      end
  end.

(** Lines 178-205. *)
Definition convert_gcode (fuel : nat) (st : State) : Outcome (Src L) State :=
  let src := src_file st in
  let '(ok, dst) := write_line nl (dst_file st) in
  if negb ok then Return WriteError src dst else
  let '(res, src) := skip_block_content L src file_header (block_header st) in
  if negb (is_success res) then Return res src dst else
  let '(res, header, src) :=
    read_next_block_header_of L src file_header GCode verify_checksum in
  if negb (is_success res) then Return res src dst else
  gcode_loop fuel
    {| src_file := src; dst_file := dst; block_header := header;
       restore_position := restore_position st |}.

(** Lines 211-225, from the stream position set by line 210. *)
Definition read_print_metadata_block (st : State) : Outcome (Src L) State :=
  let dst := dst_file st in
  let '(res, header, src) :=
    read_next_block_header L (src_file st) file_header verify_checksum in
  if negb (is_success res) then Return res src dst else
  if negb (block_type_eqb (header_type L header) PrintMetadata)
  then Return InvalidSequenceOfBlocks src dst else
  let '(res, raw_data, src) := read_print_metadata L src file_header header in
  if negb (is_success res) then Return res src dst else
  let '(ok, dst) := write_line nl dst in
  if negb ok then Return WriteError src dst else
  let '(ok, dst) := write_metadata raw_data dst in
  if negb ok then Return WriteError src dst else
  Next {| src_file := src; dst_file := dst; block_header := header;
          restore_position := restore_position st |}.

(** Lines 210-225: [fseek(&src_file, restore_position, SEEK_SET)], then
    the print-metadata block. *)
Definition convert_print_metadata (st : State) : Outcome (Src L) State :=
  read_print_metadata_block
    (with_src st (fseek_set L (src_file st) (restore_position st))).

(** Lines 230-248. *)
Definition convert_slicer_metadata (st : State) : Outcome (Src L) State :=
  let dst := dst_file st in
  let '(res, header, src) :=
    read_next_block_header L (src_file st) file_header verify_checksum in
  if negb (is_success res) then Return res src dst else
  if negb (block_type_eqb (header_type L header) SlicerMetadata)
  then Return InvalidSequenceOfBlocks src dst else
  let '(res, raw_data, src) := read_slicer_metadata L src file_header header in
  if negb (is_success res) then Return res src dst else
  let '(ok, dst) :=
    write_line (nl ++ lit "; prusaslicer_config = begin" ++ nl) dst in
  if negb ok then Return WriteError src dst else
  let '(ok, dst) := write_metadata raw_data dst in
  if negb ok then Return WriteError src dst else
  let '(ok, dst) :=
    write_line (lit "; prusaslicer_config = end" ++ nl ++ nl) dst in
  if negb ok then Return WriteError src dst else
  Return Success src dst.

End WithFileHeader.

(** The whole function.  [fuel] bounds the turns of each of the two
    block loops; on a container, as many turns as it has blocks are
    enough ([container_fuel_suffices]). *)
Definition from_binary_to_ascii (fuel : nat) (src : Src L) (dst : OutFile)
  : Outcome (Src L) State :=
  do (file_size, file_header, src, dst) <- convert_file_metadata src dst;
  do (src, dst) <- convert_printer_metadata file_header src dst;
  do st <- convert_thumbnails file_header fuel src dst;
  do st <- convert_gcode file_header file_size fuel st;
  do st <- convert_print_metadata file_header st;
  convert_slicer_metadata file_header st.

End WithLayer.

Arguments src_file {L} _.
Arguments dst_file {L} _.
Arguments block_header {L} _.
Arguments restore_position {L} _.
Arguments with_src {L} _ _.

(** [from_ascii_to_binary] (lines 30-33). *)
Definition from_ascii_to_binary (L : BlockAccessLayer) (src : Src L)
    (dst : OutFile) : Outcome (Src L) unit :=
  Return Success src dst.

End Convert.

Import Convert.

(** ** A container of blocks

    Modelled from the spec: the Block Access Layer (validate-container,
    read-file-header, read-next-block-header, skip-block-content and the
    payload decoders), whose code is not in [convert.cpp].  A container is
    a file header followed by blocks; each block is a header followed by
    its payload, kept here in decoded form together with the number of
    bytes it occupies.  The stream position is a byte offset.

    The read constrained to an expected type comes in two readings:
    [Strict] is the one the spec words ("if [expected_type] given and
    mismatched, yields sequence error"); [Skipping] passes over blocks of
    other types until it meets one of the expected type.  The converter
    sets the source back to the block that ended the thumbnail loop and
    then asks for print and slicer metadata, after having asked for a
    G-code block behind that same block: on a strict read it cannot
    succeed ([strict_read_never_succeeds]), so the statements about
    successful runs are exemplified on the second reading. *)

Module Container.

Inductive Payload : Type :=
| MetadataPayload (raw_data : metadata)
| ThumbnailPayload (t : ThumbnailBlock)
| GCodePayload (raw_data : text).

Record Block : Type := {
  block_type : EBlockType;
  payload : Payload;
  payload_size : nat
}.

Record Header : Type := {
  type : EBlockType;
  size : nat
}.

Inductive TypedRead : Type :=
| Strict
| Skipping.

Record File : Type := {
  well_formed : bool;
  blocks : list Block;
  position : nat
}.

Definition file_header_size : nat := 10.
Definition block_header_size : nat := 8.

Definition block_size (b : Block) : nat := block_header_size + payload_size b.

Fixpoint blocks_size (bs : list Block) : nat :=
  match bs with
  | [] => 0
  | b :: bs' => block_size b + blocks_size bs'
  end.

Definition total_size (f : File) : nat :=
  file_header_size + blocks_size (blocks f).

(** The block that starts [offset] bytes into the block area. *)
Fixpoint block_at (bs : list Block) (offset : nat) : option Block :=
  match bs with
  | [] => None
  | b :: bs' =>
      if offset =? 0 then Some b
      else if offset <? block_size b then None
      else block_at bs' (offset - block_size b)
  end.

Definition seek (f : File) (p : nat) : File :=
  {| well_formed := well_formed f; blocks := blocks f; position := p |}.

Definition no_header : Header := {| type := FileMetadata; size := 0 |}.

(** The header that precedes the payload of a block. *)
Definition header_of (b : Block) : Header :=
  {| type := block_type b; size := payload_size b |}.

Definition tell (f : File) : Z := Z.of_nat (position f).

Definition seek_set (f : File) (p : Z) : File :=
  if (p <? 0)%Z then f else seek f (Z.to_nat p).

Definition validate (f : File) : EResult * File :=
  if well_formed f then (Success, f) else (ReadError, f).

Definition read_file_header (f : File) : EResult * unit * File :=
  if position f =? 0 then (Success, tt, seek f file_header_size)
  else (ReadError, tt, f).

Definition read_block_header (f : File) (_ : unit) (_ : bool)
  : EResult * Header * File :=
  if position f <? file_header_size then (ReadError, no_header, f) else
  match block_at (blocks f) (position f - file_header_size) with
  | None => (ReadError, no_header, f)
  | Some b =>
      (Success, header_of b, seek f (position f + block_header_size))
  end.

Definition skip_content (f : File) (_ : unit) (h : Header) : EResult * File :=
  if position f + size h <=? total_size f
  then (Success, seek f (position f + size h))
  else (ReadError, f).

(** The block whose payload starts at the stream position. *)
Definition payload_here (f : File) : option Block :=
  if position f <? file_header_size + block_header_size then None
  else block_at (blocks f) (position f - file_header_size - block_header_size).

Definition read_payload {A : Type} (pick : Payload -> option A) (dflt : A)
    (f : File) (_ : unit) (_ : Header) : EResult * A * File :=
  match payload_here f with
  | None => (ReadError, dflt, f)
  | Some b =>
      match pick (payload b) with
      | None => (ReadError, dflt, f)
      | Some a => (Success, a, seek f (position f + payload_size b))
      end
  end.

Definition pick_metadata (p : Payload) : option metadata :=
  match p with MetadataPayload d => Some d | _ => None end.
Definition pick_thumbnail (p : Payload) : option ThumbnailBlock :=
  match p with ThumbnailPayload t => Some t | _ => None end.
Definition pick_gcode (p : Payload) : option text :=
  match p with GCodePayload d => Some d | _ => None end.

Definition no_thumbnail : ThumbnailBlock :=
  {| format := PNG; width := 0; height := 0; data := [] |}.

(** [Skipping]: read headers, passing over the content of blocks of another
    type, until one of the expected type is met. *)
Fixpoint search_header (n : nat) (f : File) (expected : EBlockType)
  : EResult * Header * File :=
  match read_block_header f tt true with
  | (Success, h, f') =>
      if block_type_eqb (type h) expected then (Success, h, f')
      else
        match n with
        | 0 => (ReadError, h, f')
        | S n' =>
            match skip_content f' tt h with
            | (Success, f'') => search_header n' f'' expected
            | (res, f'') => (res, h, f'')
            end
        end
  | failed => failed
  end.

Definition read_block_header_of (mode : TypedRead) (f : File) (fh : unit)
    (expected : EBlockType) (verify : bool) : EResult * Header * File :=
  match mode with
  | Strict =>
      match read_block_header f fh verify with
      | (Success, h, f') =>
          if block_type_eqb (type h) expected then (Success, h, f')
          else (InvalidSequenceOfBlocks, h, f')
      | failed => failed
      end
  | Skipping => search_header (length (blocks f)) f expected
  end.

Definition layer (mode : TypedRead) : BlockAccessLayer := {|
  Src := File;
  FileHeader := unit;
  BlockHeader := Header;
  header_type := type;
  ftell := tell;
  fseek_set := seek_set;
  fseek_end := fun f => seek f (total_size f);
  rewind := fun f => seek f 0;
  is_valid_binary_gcode := validate;
  read_header := read_file_header;
  read_next_block_header := read_block_header;
  read_next_block_header_of := read_block_header_of mode;
  skip_block_content := skip_content;
  read_file_metadata := read_payload pick_metadata [];
  read_printer_metadata := read_payload pick_metadata [];
  read_print_metadata := read_payload pick_metadata [];
  read_slicer_metadata := read_payload pick_metadata [];
  read_thumbnail := read_payload pick_thumbnail no_thumbnail;
  read_gcode := read_payload pick_gcode []
|}.

Definition open_file (bs : list Block) : File :=
  {| well_formed := true; blocks := bs; position := 0 |}.

Definition empty_out : OutFile :=
  {| contents := []; space := None; error_flag := false |}.

(** What a run leaves behind: the result code and the text written. *)
Definition run (mode : TypedRead) (fuel : nat) (bs : list Block)
  : option (EResult * text) :=
  match from_binary_to_ascii (layer mode) true fuel (open_file bs) empty_out with
  | Return res _ dst => Some (res, contents dst)
  | _ => None
  end.

Definition metadata_block (t : EBlockType) (d : metadata) (n : nat) : Block :=
  {| block_type := t; payload := MetadataPayload d; payload_size := n |}.
Definition gcode_block (d : text) : Block :=
  {| block_type := GCode; payload := GCodePayload d;
     payload_size := length d |}.
Definition thumbnail_block (t : ThumbnailBlock) : Block :=
  {| block_type := Thumbnail; payload := ThumbnailPayload t;
     payload_size := 6 + length (data t) |}.

End Container.

(** ** The containers used as examples *)

Module Examples.
Import Container.

Definition file_meta : Block := metadata_block FileMetadata [] 6.
Definition printer_meta : Block :=
  metadata_block PrinterMetadata [(lit "Printer", lit "X1")] 17.
Definition print_meta : Block :=
  metadata_block PrintMetadata [(lit "Layers", lit "10")] 16.
Definition slicer_meta : Block :=
  metadata_block SlicerMetadata [(lit "nozzle", lit "0.4")] 17.

(** The lines "G1 X0", "; comment", "" and "G1 X1", each closed by a
    newline. *)
Definition gcode_lines : list text :=
  [lit "G1 X0"; lit "; comment"; lit ""; lit "G1 X1"].
Definition gcode_text : text :=
  lit "G1 X0" ++ nl ++ lit "; comment" ++ nl ++ nl ++ lit "G1 X1" ++ nl.
Definition gcode : Block := gcode_block gcode_text.

(** The blocks in the order in which the spec lists them. *)
Definition listed : list Block :=
  [file_meta; printer_meta; gcode; print_meta; slicer_meta].

(** The blocks with the print and slicer metadata stored before the
    G-code, where the converter looks for them. *)
Definition stored : list Block :=
  [file_meta; printer_meta; print_meta; slicer_meta; gcode].

(** The output that the spec's example states. *)
Definition stated_output : text :=
  lit "; generated by Unknown" ++ nl ++ nl ++ nl ++
  lit "; Printer = X1" ++ nl ++ nl ++
  lit "G1 X0" ++ nl ++ lit "G1 X1" ++ nl ++ nl ++ nl ++
  lit "; Layers = 10" ++ nl ++ nl ++
  lit "; prusaslicer_config = begin" ++ nl ++
  lit "; nozzle = 0.4" ++ nl ++
  lit "; prusaslicer_config = end" ++ nl ++ nl.

(** The output of the converter on the example. *)
Definition actual_output : text :=
  lit "; generated by Unknown" ++ nl ++ nl ++ nl ++
  lit "; Printer = X1" ++ nl ++ nl ++
  lit "G1 X0" ++ nl ++ lit "; comment" ++ nl ++ lit "G1 X1" ++ nl ++ nl ++
  lit "; Layers = 10" ++ nl ++ nl ++
  lit "; prusaslicer_config = begin" ++ nl ++
  lit "; nozzle = 0.4" ++ nl ++
  lit "; prusaslicer_config = end" ++ nl ++ nl.

(** What is written before the converter stops on [listed]. *)
Definition output_before_gcode : text :=
  lit "; generated by Unknown" ++ nl ++ nl ++ nl ++
  lit "; Printer = X1" ++ nl ++ nl.

Definition picture : ThumbnailBlock :=
  {| format := JPG; width := 16; height := 16;
     data := [x01; x02; x03; x04] |}.

(** A container with one thumbnail and two G-code blocks. *)
Definition with_thumbnail : list Block :=
  [file_meta; printer_meta; thumbnail_block picture; print_meta; slicer_meta;
   gcode; gcode_block (lit "G1 X2" ++ nl)].

(** Containers in which a block of the wrong type stands where the file
    metadata, the printer metadata, the print metadata or the slicer
    metadata is required. *)
Definition misplaced_1 : list Block := [printer_meta; file_meta].
Definition misplaced_2 : list Block := [file_meta; print_meta].
Definition misplaced_3 : list Block :=
  [file_meta; printer_meta; slicer_meta; gcode].
Definition misplaced_4 : list Block :=
  [file_meta; printer_meta; print_meta; printer_meta; gcode].

(** The example with another number of layers in its print metadata,
    and the output of the converter on it. *)
Definition print_meta_other : Block :=
  metadata_block PrintMetadata [(lit "Layers", lit "20")] 16.

Definition stored_other : list Block :=
  [file_meta; printer_meta; print_meta_other; slicer_meta; gcode].

Definition actual_output_other : text :=
  lit "; generated by Unknown" ++ nl ++ nl ++ nl ++
  lit "; Printer = X1" ++ nl ++ nl ++
  lit "G1 X0" ++ nl ++ lit "; comment" ++ nl ++ lit "G1 X1" ++ nl ++ nl ++
  lit "; Layers = 20" ++ nl ++ nl ++
  lit "; prusaslicer_config = begin" ++ nl ++
  lit "; nozzle = 0.4" ++ nl ++
  lit "; prusaslicer_config = end" ++ nl ++ nl.

(** A slicer-metadata block with another nozzle, of the same size. *)
Definition slicer_meta_other : Block :=
  metadata_block SlicerMetadata [(lit "nozzle", lit "0.6")] 17.

End Examples.

(** * Vocabulary of the statements *)

(** The character at index [k] exists and is a space or a tab. *)
Definition blank_at (str : text) (k : nat) : Prop :=
  exists c, nth_error str k = Some c /\ is_blank c = true.

(** The character at index [k] exists and is neither a space nor a tab. *)
Definition solid_at (str : text) (k : nat) : Prop :=
  exists c, nth_error str k = Some c /\ is_blank c = false.

(** The first character of a view, if any, is blank. *)
Definition starts_blank (r : text) : bool :=
  match r with
  | [] => false
  | c :: _ => is_blank c
  end.

(** The text made of the given lines, each closed by a newline. *)
Definition unlines (ls : list text) : text :=
  concat (map (fun l => l ++ [newline]) ls).

(** [trim] then [uncomment]. *)
Definition reduced (l : text) : option text :=
  t <- trim l ;; uncomment t.

(** A line whose reduced form is not empty. *)
Definition kept (l : text) : bool :=
  match reduced l with
  | Some (_ :: _) => true
  | _ => false
  end.

Definition no_newline (l : text) : Prop := ~ In newline l.

(** A destination that accepts every write. *)
Definition healthy (dst : OutFile) : Prop :=
  space dst = None /\ error_flag dst = false.

(** The destination with [x] appended to what it holds. *)
Definition grow (dst : OutFile) (x : text) : OutFile :=
  {| contents := contents dst ++ x; space := space dst;
     error_flag := error_flag dst |}.

(** [d'] holds what [d] holds, and possibly more after it. *)
Definition extends (d d' : OutFile) : Prop :=
  exists more, contents d' = contents d ++ more.

(** One body line of a thumbnail: the comment marker, a space, the row
    and a newline. *)
Definition row_line (row : text) : text := lit "; " ++ row ++ nl.

(** The rows into which an encoded image is cut: as many full rows of
    [max_row_length] characters as needed, then the rest if not empty. *)
Equations? rows_of (encoded : text) : list text by wf (length encoded) lt :=
  rows_of encoded with le_lt_dec (length encoded) max_row_length => {
    | left _ => match encoded with [] => [] | _ :: _ => [encoded] end
    | right _ =>
        firstn max_row_length encoded :: rows_of (skipn max_row_length encoded) }.
Proof.
  change (length (skipn max_row_length encoded) < length encoded).
  rewrite length_skipn. unfold max_row_length in *. lia.
Qed.

(** A character of the base-64 alphabet or the padding sign. *)
Definition base64_char (c : ascii) : Prop :=
  In c Base64.alphabet \/ c = Base64.padding.

(** The framing of one thumbnail, as the output format describes it: the
    begin line carries the label, the dimensions and the number of
    characters of the body rows taken together; then the body lines; then
    the end lines. *)
Definition framing_of (label : text) (w h : N) (rows : list text) : text :=
  nl ++ lit ";" ++ nl ++ lit "; " ++ label ++ lit " begin " ++
  to_string w ++ lit "x" ++ to_string h ++ lit " " ++
  to_string (N.of_nat (length (concat rows))) ++ nl ++
  concat (map row_line rows) ++
  lit "; " ++ label ++ lit " end" ++ nl ++ lit ";" ++ nl.

(** PNG and unrecognised tags are labelled "thumbnail". *)
Definition label_of (f : EThumbnailFormat) : text :=
  match f with
  | PNG => lit "thumbnail"
  | JPG => lit "thumbnail_JPG"
  | QOI => lit "thumbnail_QOI"
  | UnknownFormat _ => lit "thumbnail"
  end.

Definition framing (t : ThumbnailBlock) : text :=
  framing_of (label_of (format t)) (width t) (height t)
             (rows_of (Base64.encode (data t))).

(** The lines of a metadata block, one per pair, in order. *)
Definition metadata_lines (d : metadata) : text :=
  concat (map (fun item => lit "; " ++ fst item ++ lit " = " ++ snd item ++ nl) d).

(** No pair of the block has the key "Producer". *)
Definition no_producer (d : metadata) : Prop :=
  forall item, In item d -> fst item <> lit "Producer".

(** The producer named by the file metadata: the value of the first pair
    whose key is "Producer", or "Unknown". *)
Fixpoint producer_of (d : metadata) : text :=
  match d with
  | [] => lit "Unknown"
  | (key, value) :: rest =>
      if text_eqb key (lit "Producer") then value else producer_of rest
  end.

Definition producer_line (d : metadata) : text :=
  lit "; generated by " ++ producer_of d ++ nl ++ nl ++ nl.

(** The whole output for a container with the given payloads; [gcode]
    holds the normalised text of each G-code block. *)
Definition render (fm pm : metadata) (ts : list ThumbnailBlock)
    (gcode : list text) (prm sm : metadata) : text :=
  producer_line fm ++ metadata_lines pm ++
  concat (map framing ts) ++
  nl ++ concat gcode ++
  nl ++ metadata_lines prm ++
  nl ++ lit "; prusaslicer_config = begin" ++ nl ++ metadata_lines sm ++
  lit "; prusaslicer_config = end" ++ nl ++ nl.

(** *** What the layer hands over

    The statements about whole runs are made for any Block Access Layer,
    by saying which answers the layer gives to the calls of the run. *)

Section Reads.

Variable L : BlockAccessLayer.
Variable verify_checksum : bool.
Variable file_header : FileHeader L.
Variable file_size : Z.

(** [thumbnails_read s h rp ts s' h' rp']: from the stream [s], where the
    header [h] has just been read and [rp] is the offset noted before it,
    the layer hands over the thumbnails [ts], each followed by a further
    header; the first header that is not a thumbnail's is [h'], read at
    the offset [rp'], and leaves the stream at [s']. *)
Inductive thumbnails_read :
  Src L -> BlockHeader L -> Z -> list ThumbnailBlock ->
  Src L -> BlockHeader L -> Z -> Prop :=
| thumbnails_none s h rp :
    header_type L h <> Thumbnail ->
    thumbnails_read s h rp [] s h rp
| thumbnails_more s h rp t s1 h1 s2 ts s' h' rp' :
    header_type L h = Thumbnail ->
    read_thumbnail L s file_header h = (Success, t, s1) ->
    read_next_block_header L s1 file_header verify_checksum
      = (Success, h1, s2) ->
    thumbnails_read s2 h1 (ftell L s1) ts s' h' rp' ->
    thumbnails_read s h rp (t :: ts) s' h' rp'.

(** [gcode_read s h raws s' h']: from the stream [s], where the header
    [h] has just been read, the layer hands over the G-code payloads
    [raws]; the run of G-code blocks ends either at the end of the file or
    at the header [h'] of another type, with the stream at [s']. *)
Inductive gcode_read :
  Src L -> BlockHeader L -> list text -> Src L -> BlockHeader L -> Prop :=
| gcode_none s h :
    header_type L h <> GCode ->
    gcode_read s h [] s h
| gcode_last s h raw s1 :
    header_type L h = GCode ->
    read_gcode L s file_header h = (Success, raw, s1) ->
    ftell L s1 = file_size ->
    gcode_read s h [raw] s1 h
| gcode_more s h raw s1 h1 s2 raws s' h' :
    header_type L h = GCode ->
    read_gcode L s file_header h = (Success, raw, s1) ->
    ftell L s1 <> file_size ->
    read_next_block_header L s1 file_header verify_checksum
      = (Success, h1, s2) ->
    gcode_read s2 h1 raws s' h' ->
    gcode_read s h (raw :: raws) s' h'.

End Reads.

(** [delivers L vc src fm pm ts raws prm sm src']: every call of the run
    on [src] succeeds, and the layer hands over, in the order in which
    [from_binary_to_ascii] asks for them, the file metadata [fm], the
    printer metadata [pm], the thumbnails [ts], a block whose content is
    passed over, the G-code payloads [raws] found by the read constrained
    to the G-code type, and, back at the block passed over, the print
    metadata [prm] and the slicer metadata [sm]. *)
Definition delivers (L : BlockAccessLayer) (verify_checksum : bool)
    (src : Src L) (fm pm : metadata) (ts : list ThumbnailBlock)
    (raws : list text) (prm sm : metadata) (src' : Src L) : Prop :=
  exists s1 fh s2 h2 s3 s4 h4 s5 s6 h6 s7 s8 h8 rp s9 h9 s10 s11 h11 h12 s12
         s13 h13 s14,
    is_valid_binary_gcode L src = (Success, s1) /\
    read_header L (rewind L (fseek_end L s1)) = (Success, fh, s2) /\
    read_next_block_header L s2 fh verify_checksum = (Success, h2, s3) /\
    header_type L h2 = FileMetadata /\
    read_file_metadata L s3 fh h2 = (Success, fm, s4) /\
    read_next_block_header L s4 fh verify_checksum = (Success, h4, s5) /\
    header_type L h4 = PrinterMetadata /\
    read_printer_metadata L s5 fh h4 = (Success, pm, s6) /\
    read_next_block_header L s6 fh verify_checksum = (Success, h6, s7) /\
    thumbnails_read L verify_checksum fh s7 h6 (ftell L s6) ts s8 h8 rp /\
    skip_block_content L s8 fh h8 = (Success, s9) /\
    read_next_block_header_of L s9 fh GCode verify_checksum
      = (Success, h9, s10) /\
    gcode_read L verify_checksum fh (ftell L (fseek_end L s1))
      s10 h9 raws s11 h11 /\
    read_next_block_header L (fseek_set L s11 rp) fh verify_checksum
      = (Success, h12, s12) /\
    header_type L h12 = PrintMetadata /\
    read_print_metadata L s12 fh h12 = (Success, prm, s13) /\
    read_next_block_header L s13 fh verify_checksum = (Success, h13, s14) /\
    header_type L h13 = SlicerMetadata /\
    read_slicer_metadata L s14 fh h13 = (Success, sm, src').

(** [outs] holds the normalised text of each payload of [raws]. *)
Definition normalised (raws outs : list text) : Prop :=
  Forall2 (fun raw out => remove_empty_lines raw = Some out) raws outs.

(** What a stretch of the run leaves in the destination holds, at its
    beginning, what [d] holds. *)
Definition keeps_output {L : BlockAccessLayer} (d : OutFile)
    (o : Outcome (Src L) (State L)) : Prop :=
  match o with
  | Next st' => extends d (dst_file st')
  | Return _ _ d' => extends d d'
  | Stuck _ => True
  end.

(** The producer line of a container whose file metadata names no
    producer. *)
Definition producer_unknown_line : text :=
  lit "; generated by Unknown" ++ nl ++ nl ++ nl.

(** What [from_binary_to_ascii] does after the printer metadata
    (lines 109-248). *)
Definition later_stretches (L : BlockAccessLayer) (verify_checksum : bool)
    (file_header : FileHeader L) (file_size : Z) (fuel : nat)
    (src : Src L) (dst : OutFile) : Outcome (Src L) (State L) :=
  do st <- convert_thumbnails L verify_checksum file_header fuel src dst;
  do st <- convert_gcode L verify_checksum file_header file_size fuel st;
  do st <- convert_print_metadata L verify_checksum file_header st;
  convert_slicer_metadata L verify_checksum file_header st.

(** What [from_binary_to_ascii] does after the producer line
    (lines 92-248). *)
Definition after_producer_line (L : BlockAccessLayer) (verify_checksum : bool)
    (file_header : FileHeader L) (file_size : Z) (fuel : nat)
    (src : Src L) (dst : OutFile) : Outcome (Src L) (State L) :=
  do (src, dst) <- convert_printer_metadata L verify_checksum file_header
                     src dst;
  later_stretches L verify_checksum file_header file_size fuel src dst.

(** *** Containers that differ in one payload *)

(** The offset at which the block that follows [pre] starts. *)
Definition offset_after (pre : list Container.Block) : nat :=
  Container.file_header_size + Container.blocks_size pre.

(** On the container [bs], the thumbnail loop is left at the header of
    the block that starts at offset [p]: the stretches up to the loop fall
    through, and [restore_position] is [p] when the loop is left. *)
Definition loop_left_at (mode : Container.TypedRead) (fuel : nat)
    (bs : list Container.Block) (p : nat) : Prop :=
  let L := Container.layer mode in
  exists fs fh s d s0 d0 st,
    convert_file_metadata L true (Container.open_file bs) Container.empty_out
      = Next (fs, fh, s, d) /\
    convert_printer_metadata L true fh s d = Next (s0, d0) /\
    convert_thumbnails L true fh fuel s0 d0 = Next st /\
    restore_position st = Z.of_nat p.

(** The same stream over other blocks. *)
Definition with_blocks (bs : list Container.Block) (f : Container.File)
  : Container.File :=
  {| Container.well_formed := Container.well_formed f;
     Container.blocks := bs;
     Container.position := Container.position f |}.

(** [f'] is [f] moved forward, or [f] itself. *)
Definition advances (f f' : Container.File) : Prop :=
  Container.blocks f' = Container.blocks f /\
  Container.well_formed f' = Container.well_formed f /\
  Container.position f <= Container.position f'.

(** A state, and an outcome, of a run on a container, carried over to
    the same stream positions over other blocks. *)
Definition with_blocks_state (mode : Container.TypedRead)
    (bs : list Container.Block) (st : State (Container.layer mode))
  : State (Container.layer mode) :=
  Build_State (Container.layer mode)
    (with_blocks bs (src_file st)) (dst_file st)
    (block_header st) (restore_position st).

Definition with_blocks_outcome (mode : Container.TypedRead)
    (bs : list Container.Block)
    (o : Outcome Container.File (State (Container.layer mode)))
  : Outcome Container.File (State (Container.layer mode)) :=
  match o with
  | Next st => Next (with_blocks_state mode bs st)
  | Return res s d => Return res (with_blocks bs s) d
  | Stuck why => Stuck why
  end.

(** *** Fuel *)

(** The number of blocks of [bs] that start [off] bytes into the block
    area or later. *)
Fixpoint blocks_after (bs : list Container.Block) (off : nat) : nat :=
  match bs with
  | [] => 0
  | b :: rest =>
      if off =? 0 then S (length rest)
      else blocks_after rest (off - Container.block_size b)
  end.

(** The blocks that a stream has not yet gone past. *)
Definition blocks_ahead (f : Container.File) : nat :=
  blocks_after (Container.blocks f)
    (Container.position f - Container.file_header_size).

(** *** The parts of an encoded group of three bytes *)

Module Base64Parts.
Import Base64.

(** Every byte, for checks by enumeration. *)
Definition all_bytes : list byte :=
  flat_map (fun n => match Byte.of_N (N.of_nat n) with
                     | Some x => [x]
                     | None => []
                     end) (seq 0 256).

Definition s0 (a : byte) : N := N.shiftr (N.land (val a) 252) 2.
Definition s1 (a b : byte) : N :=
  N.shiftl (N.land (val a) 3) 4 + N.shiftr (N.land (val b) 240) 4.
Definition s1_last (a : byte) : N := N.shiftl (N.land (val a) 3) 4.
Definition s2 (b c : byte) : N :=
  N.shiftr (N.land (val c) 192) 6 + N.shiftl (N.land (val b) 15) 2.
Definition s2_last (b : byte) : N := N.shiftl (N.land (val b) 15) 2.
Definition s3 (c : byte) : N := N.land (val c) 63.

(** A six-bit value is read back from its character, which is neither the
    padding sign nor a newline. *)
Definition sextet_ok (n : N) : bool :=
  match inverse (tab n) with
  | Some m => N.eqb m n
  | None => false
  end && negb (Ascii.eqb (tab n) padding) && negb (Ascii.eqb (tab n) newline)
  && (if in_dec Ascii.ascii_dec (tab n) alphabet then true else false).

Definition byte_eqb (x y : byte) : bool := N.eqb (Byte.to_N x) (Byte.to_N y).

End Base64Parts.

(** ** Vocabulary of the statements about whole runs *)

(** The result code with which a stretch returns, if it returns. *)
Definition result_code {S A : Type} (o : Outcome S A) : option EResult :=
  match o with
  | Return res _ _ => Some res
  | _ => None
  end.

(** A stretch entered with the error indicator clear leaves it clear when
    it falls through, and returns [WriteError] when it returns with the
    indicator set. *)
Definition failure_reported {S A : Type} (dst_of : A -> OutFile)
    (o : Outcome S A) : Prop :=
  match o with
  | Next a => ferror (dst_of a) = false
  | Return res _ dst => ferror dst = true -> res = WriteError
  | Stuck _ => True
  end.

(** A G-code payload that is not empty and does not end with a newline. *)
Definition unterminated (raw : text) : Prop :=
  raw <> [] /\ forall body, raw <> body ++ [newline].

(** A destination with room for [room] more characters. *)
Definition out_with_room (room : nat) : OutFile :=
  {| contents := []; space := Some room; error_flag := false |}.

(** *** Further example containers *)

Module MoreExamples.
Import Container Examples.

(** File metadata that names a producer twice. *)
Definition file_meta_twice : Block :=
  metadata_block FileMetadata
    [(lit "Comment", lit "none");
     (lit "Producer", lit "PrusaSlicer 2.6");
     (lit "Producer", lit "Other")] 52.

Definition named : list Block :=
  [file_meta_twice; printer_meta; print_meta; slicer_meta; gcode].

(** A container whose G-code payload lacks the closing newline. *)
Definition open_ended : list Block :=
  [file_meta; printer_meta; print_meta; slicer_meta;
   gcode_block (lit "G1 X0" ++ nl ++ lit "G1 X1")].

End MoreExamples.

(** *** Result codes of the layer *)

(** [handed_back L res]: some call of the Block Access Layer answers with
    the code [res]. *)
Inductive handed_back (L : BlockAccessLayer) (res : EResult) : Prop :=
| by_is_valid_binary_gcode s s' :
    is_valid_binary_gcode L s = (res, s') -> handed_back L res
| by_read_header s fh s' :
    read_header L s = (res, fh, s') -> handed_back L res
| by_read_next_block_header s fh vc h s' :
    read_next_block_header L s fh vc = (res, h, s') -> handed_back L res
| by_read_next_block_header_of s fh ty vc h s' :
    read_next_block_header_of L s fh ty vc = (res, h, s') -> handed_back L res
| by_skip_block_content s fh h s' :
    skip_block_content L s fh h = (res, s') -> handed_back L res
| by_read_file_metadata s fh h d s' :
    read_file_metadata L s fh h = (res, d, s') -> handed_back L res
| by_read_printer_metadata s fh h d s' :
    read_printer_metadata L s fh h = (res, d, s') -> handed_back L res
| by_read_print_metadata s fh h d s' :
    read_print_metadata L s fh h = (res, d, s') -> handed_back L res
| by_read_slicer_metadata s fh h d s' :
    read_slicer_metadata L s fh h = (res, d, s') -> handed_back L res
| by_read_thumbnail s fh h t s' :
    read_thumbnail L s fh h = (res, t, s') -> handed_back L res
| by_read_gcode s fh h d s' :
    read_gcode L s fh h = (res, d, s') -> handed_back L res.

(** The code with which a stretch returns is [Success], one of the two
    codes that the converter raises itself, or a code handed back by the
    layer. *)
Definition code_accounted (L : BlockAccessLayer) {A : Type}
    (o : Outcome (Src L) A) : Prop :=
  match o with
  | Return res _ _ =>
      res = Success \/ res = WriteError \/ res = InvalidSequenceOfBlocks \/
      (res <> Success /\ handed_back L res)
  | _ => True
  end.

(** A line that G-code readers pass over: a comment marker followed by
    text without a newline. *)
Definition comment_line (l : text) : Prop :=
  exists rest, l = semicolon :: rest /\ no_newline rest.

(** *** The lines of the output *)

(** Metadata whose keys and values hold no newline. *)
Definition clean (d : metadata) : Prop :=
  Forall (fun item => no_newline (fst item) /\ no_newline (snd item)) d.

(** A line of one of the G-code payloads [raws] that the test of line 170
    keeps. *)
Definition payload_line (raws : list text) (l : text) : Prop :=
  exists raw ls,
    In raw raws /\ raw = unlines ls /\ Forall no_newline ls /\
    In l ls /\ significant l = Some true.

(** A line of the output: empty, a comment, or a line of the G-code. *)
Definition output_line (raws : list text) (l : text) : Prop :=
  l = [] \/ comment_line l \/ payload_line raws l.

(** *** The run up to the G-code, and from there on *)

(** What [from_binary_to_ascii] does up to line 205, before the source
    is set back. *)
Definition through_gcode (L : BlockAccessLayer) (verify_checksum : bool)
    (fuel : nat) (src : Src L) (dst : OutFile) : Outcome (Src L) (State L) :=
  do (file_size, file_header, src, dst) <-
    convert_file_metadata L verify_checksum src dst;
  do (src, dst) <-
    convert_printer_metadata L verify_checksum file_header src dst;
  do st <- convert_thumbnails L verify_checksum file_header fuel src dst;
  convert_gcode L verify_checksum file_header file_size fuel st.

(** A stretch entered with a destination that accepts every write
    leaves such a destination. *)
Definition stays_healthy {S A : Type} (dst_of : A -> OutFile)
    (o : Outcome S A) : Prop :=
  match o with
  | Next a => healthy (dst_of a)
  | Return _ _ dst => healthy dst
  | Stuck _ => True
  end.

(** A state with another destination. *)
Definition with_dst {L : BlockAccessLayer} (st : State L) (dst : OutFile)
  : State L :=
  {| src_file := src_file st; dst_file := dst;
     block_header := block_header st;
     restore_position := restore_position st |}.

(** [gcode_reaches L vc fh fs s h raws s' h']: from the stream [s], where
    the header [h] has just been read, the G-code loop converts the
    payloads [raws], each followed by a further header, and stands at the
    stream [s'] with the header [h'] read last. *)
Inductive gcode_reaches (L : BlockAccessLayer) (verify_checksum : bool)
    (file_header : FileHeader L) (file_size : Z) :
  Src L -> BlockHeader L -> list text -> Src L -> BlockHeader L -> Prop :=
| reaches_first s h :
    gcode_reaches L verify_checksum file_header file_size s h [] s h
| reaches_next s h raw out s1 h1 s2 raws s' h' :
    header_type L h = GCode ->
    read_gcode L s file_header h = (Success, raw, s1) ->
    remove_empty_lines raw = Some out ->
    ftell L s1 <> file_size ->
    read_next_block_header L s1 file_header verify_checksum
      = (Success, h1, s2) ->
    gcode_reaches L verify_checksum file_header file_size s2 h1 raws s' h' ->
    gcode_reaches L verify_checksum file_header file_size
      s h (raw :: raws) s' h'.

(** * Properties *)

(** ** The definitions on small inputs *)

Example trim_blanks_both_sides :
  trim (lit "  G1 X1 ") = Some (lit "G1 X1").
Proof. reflexivity. Qed.

Example trim_only_blanks : trim (lit "   ") = Some [].
Proof. reflexivity. Qed.

Example trim_empty : trim [] = Some [].
Proof. reflexivity. Qed.

Example uncomment_comment : uncomment (lit ";  note ") = Some (lit "note").
Proof. reflexivity. Qed.

Example uncomment_command : uncomment (lit "G1 X1 ; move") = Some (lit "G1 X1 ; move").
Proof. reflexivity. Qed.

Example remove_empty_lines_example :
  remove_empty_lines Examples.gcode_text
  = Some (lit "G1 X0" ++ nl ++ lit "; comment" ++ nl ++ lit "G1 X1" ++ nl).
Proof. reflexivity. Qed.

Example encode_man : Base64.encode [x4d; x61; x6e] = lit "TWFu".
Proof. reflexivity. Qed.

Example encode_padded : Base64.encode [x4d] = lit "TQ==".
Proof. reflexivity. Qed.

Example decode_padded : Base64.decode (lit "TWE=") = Some [x4d; x61].
Proof. reflexivity. Qed.

Example to_string_width : to_string 160 = lit "160".
Proof. reflexivity. Qed.
(** ** Properties of the text utilities *)

Section TrimFacts.

Lemma skip_leading_spec (str : text) (start : nat) :
  start <= length str - 1 -> 0 < length str ->
  exists i, skip_leading str start = Some i /\
    start <= i <= length str - 1 /\
    (forall k, start <= k < i -> blank_at str k) /\
    (i < length str - 1 -> solid_at str i).
Proof.
  funelim (skip_leading str start); intros Hle Hpos.
  - exists start. split; [reflexivity|]. repeat split; try lia.
  - exfalso. unfold char_at in *.
    match goal with H : nth_error _ _ = None |- _ =>
      apply nth_error_None in H; lia end.
  - destruct H as (i & Hi & Hr & Hb & Hs); [lia | lia |].
    exists i. split; [assumption|]. repeat split; try lia; try assumption.
    intros k Hk. destruct (Nat.eq_dec k start) as [->|Hne].
    + exists c. split; assumption.
    + apply Hb. lia.
  - exists start. split; [reflexivity|]. repeat split; try lia.
    intros _. exists c. split; assumption.
Qed.

Lemma skip_trailing_spec (str : text) (e : nat) :
  e < length str ->
  exists j, skip_trailing str e = Some j /\ j <= e /\
    (forall k, j < k <= e -> blank_at str k) /\
    (0 < j -> solid_at str j).
Proof.
  induction e as [|e IH]; intros He; cbn [skip_trailing].
  - exists 0. repeat split; try lia.
  - unfold char_at. destruct (nth_error str (S e)) as [c|] eqn:Hc.
    2:{ apply nth_error_None in Hc. lia. }
    destruct (is_blank c) eqn:Hb.
    + destruct IH as (j & Hj & Hle & Hbl & Hso); [lia|].
      exists j. split; [assumption|]. repeat split; try lia; try assumption.
      intros k Hk. destruct (Nat.eq_dec k (S e)) as [->|Hne].
      * exists c. split; assumption.
      * apply Hbl. lia.
    + exists (S e). split; [reflexivity|]. repeat split; try lia.
      intros _. exists c. split; assumption.
Qed.

Lemma blank_at_all (str : text) :
  (forall k, k < length str -> blank_at str k) -> forallb is_blank str = true.
Proof.
  induction str as [|c str IH]; intros H; simpl; [reflexivity|].
  apply andb_true_intro. split.
  - destruct (H 0) as (c' & Hc & Hb); [simpl; lia|]. simpl in Hc.
    injection Hc as <-. assumption.
  - apply IH. intros k Hk. destruct (H (S k)) as (c' & Hc & Hb); [simpl; lia|].
    exists c'. split; assumption.
Qed.

Lemma blank_at_firstn (str : text) (i : nat) :
  i <= length str -> (forall k, k < i -> blank_at str k) ->
  forallb is_blank (firstn i str) = true.
Proof.
  intros Hi H. apply blank_at_all. intros k Hk.
  rewrite length_firstn in Hk.
  destruct (H k) as (c & Hc & Hb); [lia|].
  exists c. split; [|assumption].
  rewrite nth_error_firstn. destruct (Nat.ltb_spec k i); [assumption|lia].
Qed.

Lemma blank_at_skipn (str : text) (j : nat) :
  (forall k, j <= k < length str -> blank_at str k) ->
  forallb is_blank (skipn j str) = true.
Proof.
  intros H. apply blank_at_all. intros k Hk.
  rewrite length_skipn in Hk.
  destruct (H (j + k)) as (c & Hc & Hb); [lia|].
  exists c. split; [|assumption].
  rewrite nth_error_skipn. assumption.
Qed.

Lemma forallb_blank_solid (str : text) (k : nat) :
  solid_at str k -> forallb is_blank str = false.
Proof.
  intros (c & Hc & Hb). apply nth_error_split in Hc.
  destruct Hc as (l1 & l2 & -> & _).
  rewrite forallb_app. simpl. rewrite Hb, andb_false_r. reflexivity.
Qed.

Lemma view_at_split (str : text) (i n : nat) :
  i < length str -> i + n <= length str ->
  view_at str i n = Some (firstn n (skipn i str)) /\
  str = firstn i str ++ firstn n (skipn i str) ++ skipn (i + n) str.
Proof.
  intros Hi Hn. unfold view_at.
  destruct (Nat.ltb_spec i (length str)); [|lia].
  destruct (Nat.leb_spec (i + n) (length str)); [|lia].
  split; [reflexivity|].
  rewrite <- (firstn_skipn i str) at 1. f_equal.
  rewrite <- (firstn_skipn n (skipn i str)) at 1. f_equal.
  rewrite skipn_skipn. f_equal. lia.
Qed.

Lemma starts_blank_firstn_skipn (str : text) (i n : nat) :
  0 < n -> solid_at str i -> starts_blank (firstn n (skipn i str)) = false.
Proof.
  intros Hn (c & Hc & Hb).
  apply nth_error_split in Hc. destruct Hc as (l1 & l2 & -> & <-).
  rewrite skipn_app, Nat.sub_diag, skipn_all. simpl.
  destruct n; [lia|]. simpl. assumption.
Qed.

Lemma starts_blank_rev_firstn_skipn (str : text) (i n : nat) :
  0 < n -> solid_at str (i + n - 1) ->
  starts_blank (rev (firstn n (skipn i str))) = false.
Proof.
  intros Hn (c & Hc & Hb).
  assert (Hlen : i + n - 1 < length str)
    by (apply nth_error_Some; rewrite Hc; discriminate).
  assert (Hl : nth_error (firstn n (skipn i str)) (n - 1) = Some c).
  { rewrite nth_error_firstn. destruct (Nat.ltb_spec (n - 1) n); [|lia].
    rewrite nth_error_skipn. rewrite <- Hc. f_equal. lia. }
  assert (Hn' : length (firstn n (skipn i str)) = n).
  { rewrite length_firstn, length_skipn. lia. }
  remember (firstn n (skipn i str)) as r eqn:Hr. clear Hr.
  destruct (rev r) as [|c' r'] eqn:Hrev.
  - reflexivity.
  - simpl. apply (f_equal (@rev ascii)) in Hrev. rewrite rev_involutive in Hrev.
    simpl in Hrev. subst r. rewrite length_app in Hn'. simpl in Hn'.
    rewrite nth_error_app2 in Hl by (rewrite length_rev in *; lia).
    replace (n - 1 - length (rev r')) with 0 in Hl by lia.
    simpl in Hl. injection Hl as ->. assumption.
Qed.

Lemma forallb_blank_none (str : text) (i j : nat) :
  (forall k, k < i -> blank_at str k) ->
  (forall k, j < k <= length str - 1 -> blank_at str k) ->
  (forall k, i <= k <= j -> blank_at str k) ->
  forallb is_blank str = true.
Proof.
  intros Hlo Hhi Hmid. apply blank_at_all. intros k Hk.
  destruct (Nat.lt_ge_cases k i) as [H1|H1]; [apply Hlo; assumption|].
  destruct (Nat.lt_ge_cases j k) as [H2|H2]; [apply Hhi; lia|].
  apply Hmid. lia.
Qed.

End TrimFacts.

(** [trim] as a decomposition of its argument. *)
Lemma trim_decomposition (s : text) :
  exists pre r post,
    trim s = Some r /\
    s = pre ++ r ++ post /\
    forallb is_blank pre = true /\
    forallb is_blank post = true /\
    starts_blank r = false /\
    starts_blank (rev r) = false /\
    ((forallb is_blank s = true /\ r = []) \/
     (forallb is_blank s = false /\ 0 < length r)).
Proof.
  destruct s as [|c0 s0] eqn:Hs.
  { exists [], [], []. simpl. repeat split; auto. }
  rewrite <- Hs. assert (Hlen : 0 < length s) by (subst s; simpl; lia).
  assert (Htrim : trim s =
    (start <- skip_leading s 0 ;;
     end_ <- skip_trailing s (length s - 1) ;;
     if start =? end_ then
       c <- char_at s end_ ;;
       if is_blank c then Some [] else view_at s start (end_ - start + 1)
     else if end_ <? start then Some []
     else view_at s start (end_ - start + 1))) by (subst s; reflexivity).
  rewrite Htrim. clear Htrim Hs c0 s0.
  destruct (skip_leading_spec s 0) as (i & -> & Hi & Hib & His); [lia | lia |].
  destruct (skip_trailing_spec s (length s - 1)) as (j & -> & Hj & Hjb & Hjs);
    [lia|].
  assert (Hall : forall P : Prop, (forall k, i <= k <= j -> blank_at s k) ->
            (forallb is_blank s = true -> P) -> P).
  { intros P Hmid HP. apply HP. apply forallb_blank_none with (i := i) (j := j).
    - intros k Hk. apply Hib. lia.
    - intros k Hk. apply Hjb. lia.
    - assumption. }
  assert (Hview : solid_at s i -> solid_at s j -> i <= j ->
    exists pre r post, view_at s i (j - i + 1) = Some r /\
      s = pre ++ r ++ post /\ forallb is_blank pre = true /\
      forallb is_blank post = true /\ starts_blank r = false /\
      starts_blank (rev r) = false /\
      ((forallb is_blank s = true /\ r = []) \/
       (forallb is_blank s = false /\ 0 < length r))).
  { intros Hsi Hsj Hij.
    destruct (view_at_split s i (j - i + 1)) as (Hv & Hsplit); [lia | lia |].
    exists (firstn i s), (firstn (j - i + 1) (skipn i s)),
           (skipn (i + (j - i + 1)) s).
    split; [exact Hv|]. split; [exact Hsplit|].
    split. { apply blank_at_firstn; [lia|]. intros k Hk. apply Hib. lia. }
    split. { apply blank_at_skipn. intros k Hk. apply Hjb. lia. }
    split. { apply starts_blank_firstn_skipn; [lia | assumption]. }
    split. { apply starts_blank_rev_firstn_skipn; [lia|].
             replace (i + (j - i + 1) - 1) with j by lia. assumption. }
    right. split; [apply forallb_blank_solid with (k := i); assumption|].
    rewrite length_firstn, length_skipn. lia. }
  destruct (Nat.eqb_spec i j) as [Heq|Hne].
  - subst j. unfold char_at.
    destruct (nth_error s i) as [c|] eqn:Hc.
    2:{ apply nth_error_None in Hc. lia. }
    destruct (is_blank c) eqn:Hb.
    + apply Hall.
      * intros k Hk. assert (k = i) by lia. subst k. exists c. auto.
      * intros Hs. exists [], [], s. simpl. repeat split; auto.
    + apply Hview; [exists c; auto | exists c; auto | lia].
  - destruct (Nat.ltb_spec j i) as [Hlt|Hge].
    + apply Hall.
      * intros k Hk. lia.
      * intros Hs. exists [], [], s. simpl. repeat split; auto.
    + apply Hview; [apply His; lia | apply Hjs; lia | lia].
Qed.

(** C7.  [trim s] always has a result (no index outside [s] is read, for
    the empty string too); the result [r] is the span of [s] left when its
    leading and trailing spaces and tabs are taken away, and it is empty
    exactly when [s] is empty or holds nothing but spaces and tabs. *)
Theorem trim_spec (s : text) :
  exists pre r post,
    trim s = Some r /\
    s = pre ++ r ++ post /\
    forallb is_blank pre = true /\
    forallb is_blank post = true /\
    starts_blank r = false /\
    starts_blank (rev r) = false /\
    ((forallb is_blank s = true /\ r = []) \/
     (forallb is_blank s = false /\ 0 < length r)).
Proof. exact (trim_decomposition s). Qed.

(** The theorem at a line with blanks on both sides. *)
Lemma trim_spec_witness :
  exists pre r post,
    trim (lit "  G1 X1 ") = Some r /\
    lit "  G1 X1 " = pre ++ r ++ post /\
    forallb is_blank pre = true /\
    forallb is_blank post = true /\
    starts_blank r = false /\
    starts_blank (rev r) = false /\
    ((forallb is_blank (lit "  G1 X1 ") = true /\ r = []) \/
     (forallb is_blank (lit "  G1 X1 ") = false /\ 0 < length r)).
Proof. exact (trim_spec (lit "  G1 X1 ")). Defined.

(** ** Properties of the normalisation *)

(** Rewrites with the outcome of the tests met on the way to a clause. *)
Ltac rew_tests :=
  repeat match goal with
    | H : Nat.eq_dec _ _ = _ |- _ => rewrite H
    | H : le_lt_dec _ _ = _ |- _ => rewrite H
    | H : char_at _ _ = _ |- _ => rewrite H
    | H : Ascii.eqb _ _ = _ |- _ => rewrite H
    | H : find_line_end _ _ = _ |- _ => rewrite H
    | H : take_line _ _ _ _ = _ |- _ => rewrite H
    | H : write_line _ _ = _ |- _ => rewrite H
    end.

Section LinesFacts.

Lemma find_line_end_step (data : text) (e : nat) :
  find_line_end data e =
  if Nat.eq_dec e (length data) then Some e else
  match char_at data e with
  | None => None
  | Some c => if Ascii.eqb c newline then Some e
              else find_line_end data (S e)
  end.
Proof.
  funelim (find_line_end data e); rew_tests; reflexivity.
Qed.

Lemma lines_loop_step (data : text) (b : nat) (ret : text) :
  lines_loop data b ret =
  if Nat.eq_dec b (length data) then Some ret else
  match find_line_end data b with
  | None => None
  | Some e =>
      match take_line data b e ret with
      | None => None
      | Some ret' =>
          if le_lt_dec (length data) e then None
          else lines_loop data (S e) ret'
      end
  end.
Proof.
  funelim (lines_loop data b ret); rew_tests; reflexivity.
Qed.

Lemma find_line_end_scan (line pre rest : text) :
  no_newline line ->
  find_line_end (pre ++ line ++ newline :: rest) (length pre)
  = Some (length pre + length line).
Proof.
  revert pre. induction line as [|c line IH]; intros pre Hno.
  - rewrite find_line_end_step. simpl.
    destruct (Nat.eq_dec _ _) as [E|_].
    { rewrite length_app in E. simpl in E. lia. }
    unfold char_at. rewrite nth_error_app2, Nat.sub_diag by lia. simpl.
    f_equal. lia.
  - rewrite find_line_end_step.
    destruct (Nat.eq_dec _ _) as [E|_].
    { rewrite length_app in E. simpl in E. lia. }
    unfold char_at. rewrite nth_error_app2, Nat.sub_diag by lia. simpl.
    destruct (Ascii.eqb_spec c newline) as [->|Hc].
    { exfalso. apply Hno. left. reflexivity. }
    specialize (IH (pre ++ [c])).
    rewrite <- app_assoc in IH. simpl in IH.
    rewrite length_app in IH. simpl in IH.
    rewrite Nat.add_1_r in IH. rewrite IH.
    + f_equal. lia.
    + intros Hin. apply Hno. right. assumption.
Qed.

Lemma trim_total (s : text) : exists r, trim s = Some r.
Proof.
  destruct (trim_decomposition s) as (_ & r & _ & Hr & _). exists r. exact Hr.
Qed.

Lemma uncomment_total (s : text) : exists r, uncomment s = Some r.
Proof.
  destruct s as [|c s]; [exists []; reflexivity|].
  unfold uncomment, char_at. cbn [nth_error skipn].
  destruct (Ascii.eqb c semicolon).
  - apply trim_total.
  - exists (c :: s). reflexivity.
Qed.

Lemma reduced_total (l : text) : exists r, reduced l = Some r.
Proof.
  unfold reduced. destruct (trim_total l) as (t & ->). apply uncomment_total.
Qed.

Lemma significant_kept (l : text) : significant l = Some (kept l).
Proof.
  unfold significant, kept.
  destruct (reduced_total l) as (r & Hr). rewrite Hr.
  unfold reduced in Hr. destruct (trim l) as [t|]; [|discriminate].
  rewrite Hr. destruct r; reflexivity.
Qed.

Lemma take_line_at (pre line rest ret : text) :
  take_line (pre ++ line ++ newline :: rest) (length pre)
            (length pre + length line) ret
  = Some (if kept line then ret ++ line ++ [newline] else ret).
Proof.
  unfold take_line, line_view.
  replace (length pre + length line - length pre) with (length line) by lia.
  rewrite !length_app. simpl.
  destruct (Nat.leb_spec (length pre)
              (length pre + (length line + S (length rest)))); [|lia].
  destruct (Nat.leb_spec (length pre + length line)
              (length pre + (length line + S (length rest)))); [|lia].
  simpl. rewrite skipn_app, Nat.sub_diag, skipn_all. simpl.
  rewrite firstn_app, Nat.sub_diag, firstn_all. simpl. rewrite app_nil_r.
  rewrite significant_kept. reflexivity.
Qed.

Lemma lines_loop_unlines (ls : list text) (pre ret : text) :
  Forall no_newline ls ->
  lines_loop (pre ++ unlines ls) (length pre) ret
  = Some (ret ++ unlines (filter kept ls)).
Proof.
  revert pre ret. induction ls as [|l ls IH]; intros pre ret Hno.
  - rewrite lines_loop_step. unfold unlines. simpl. rewrite !app_nil_r.
    destruct (Nat.eq_dec _ _); [reflexivity | contradiction].
  - inversion Hno as [|? ? Hl Hls]; subst.
    assert (Hd : pre ++ unlines (l :: ls) = pre ++ l ++ newline :: unlines ls).
    { unfold unlines. simpl. rewrite <- app_assoc. reflexivity. }
    rewrite Hd. clear Hd.
    rewrite lines_loop_step.
    destruct (Nat.eq_dec _ _) as [E|_].
    { rewrite !length_app in E. simpl in E. lia. }
    rewrite find_line_end_scan by assumption.
    rewrite take_line_at.
    destruct (le_lt_dec _ _) as [E|_].
    { rewrite !length_app in E. simpl in E. lia. }
    specialize (IH (pre ++ l ++ [newline])
                   (if kept l then ret ++ l ++ [newline] else ret) Hls).
    rewrite <- !app_assoc in IH. simpl app in IH.
    rewrite !length_app in IH. simpl length in IH.
    replace (length pre + (length l + 1)) with (S (length pre + length l)) in IH
      by lia.
    etransitivity; [exact IH|]. f_equal. simpl filter.
    destruct (kept l).
    + change (unlines (l :: filter kept ls))
        with ((l ++ [newline]) ++ unlines (filter kept ls)).
      rewrite <- !app_assoc. reflexivity.
    + reflexivity.
Qed.

Lemma remove_empty_lines_unlines (ls : list text) :
  Forall no_newline ls ->
  remove_empty_lines (unlines ls) = Some (unlines (filter kept ls)).
Proof.
  intros Hno. unfold remove_empty_lines.
  apply (lines_loop_unlines ls [] [] Hno).
Qed.

(** A payload whose last line is not closed by a newline: the iterator
    is stepped beyond [data.end()]. *)
Lemma remove_empty_lines_unterminated :
  remove_empty_lines (lit "G1 X0") = None.
Proof. reflexivity. Qed.

End LinesFacts.

(** ** Properties of the base-64 transcription *)

Module Base64Facts.
Import Base64 Base64Parts.

Lemma in_all_bytes (x : byte) : In x all_bytes.
Proof.
  unfold all_bytes. apply in_flat_map. exists (N.to_nat (Byte.to_N x)). split.
  - apply in_seq. pose proof (Byte.to_N_bounded x). lia.
  - rewrite N2Nat.id, Byte.of_to_N. left. reflexivity.
Qed.

Lemma for_bytes (P : byte -> bool) :
  forallb P all_bytes = true -> forall x, P x = true.
Proof.
  intros H x. apply (proj1 (forallb_forall P all_bytes) H). apply in_all_bytes.
Qed.

Lemma for_bytes2 (P : byte -> byte -> bool) :
  forallb (fun x => forallb (P x) all_bytes) all_bytes = true ->
  forall x y, P x y = true.
Proof.
  intros H x y. apply for_bytes with (P := P x).
  apply (for_bytes (fun x => forallb (P x) all_bytes) H).
Qed.

Lemma s0_ok a : sextet_ok (s0 a) = true.
Proof. revert a. apply for_bytes. vm_compute. reflexivity. Qed.
Lemma s1_ok a b : sextet_ok (s1 a b) = true.
Proof. revert a b. apply for_bytes2. vm_compute. reflexivity. Qed.
Lemma s1_last_ok a : sextet_ok (s1_last a) = true.
Proof. revert a. apply for_bytes. vm_compute. reflexivity. Qed.
Lemma s2_ok b c : sextet_ok (s2 b c) = true.
Proof. revert b c. apply for_bytes2. vm_compute. reflexivity. Qed.
Lemma s2_last_ok b : sextet_ok (s2_last b) = true.
Proof. revert b. apply for_bytes. vm_compute. reflexivity. Qed.
Lemma s3_ok c : sextet_ok (s3 c) = true.
Proof. revert c. apply for_bytes. vm_compute. reflexivity. Qed.

Lemma byte_eqb_eq x y : byte_eqb x y = true -> x = y.
Proof.
  unfold byte_eqb. intros H. apply N.eqb_eq in H.
  apply (f_equal Byte.of_N) in H. rewrite !Byte.of_to_N in H.
  injection H as ->. reflexivity.
Qed.

Lemma c3_0_ok a b : c3_0 (s0 a) (s1 a b) = a.
Proof.
  apply byte_eqb_eq. revert a b.
  apply (for_bytes2 (fun a b => byte_eqb (c3_0 (s0 a) (s1 a b)) a)).
  vm_compute. reflexivity.
Qed.

Lemma c3_0_last_ok a : c3_0 (s0 a) (s1_last a) = a.
Proof.
  apply byte_eqb_eq. revert a.
  apply (for_bytes (fun a => byte_eqb (c3_0 (s0 a) (s1_last a)) a)).
  vm_compute. reflexivity.
Qed.

(** The middle byte is rebuilt from the low four bits of the second
    sextet and bits 2-5 of the third. *)
Lemma s1_low a b : N.land (s1 a b) 15 = N.shiftr (val b) 4.
Proof.
  apply N.eqb_eq. revert a b.
  apply (for_bytes2 (fun a b => N.eqb (N.land (s1 a b) 15) (N.shiftr (val b) 4))).
  vm_compute. reflexivity.
Qed.

Lemma s2_mid b c : N.shiftr (N.land (s2 b c) 60) 2 = N.land (val b) 15.
Proof.
  apply N.eqb_eq. revert b c.
  apply (for_bytes2 (fun b c =>
    N.eqb (N.shiftr (N.land (s2 b c) 60) 2) (N.land (val b) 15))).
  vm_compute. reflexivity.
Qed.

Lemma s2_last_mid b : N.shiftr (N.land (s2_last b) 60) 2 = N.land (val b) 15.
Proof.
  apply N.eqb_eq. revert b.
  apply (for_bytes (fun b =>
    N.eqb (N.shiftr (N.land (s2_last b) 60) 2) (N.land (val b) 15))).
  vm_compute. reflexivity.
Qed.

Lemma halves b :
  to_uchar (N.shiftl (N.shiftr (val b) 4) 4 + N.land (val b) 15) = b.
Proof.
  apply byte_eqb_eq. revert b.
  apply (for_bytes (fun b => byte_eqb
    (to_uchar (N.shiftl (N.shiftr (val b) 4) 4 + N.land (val b) 15)) b)).
  vm_compute. reflexivity.
Qed.

Lemma c3_1_ok a b c : c3_1 (s1 a b) (s2 b c) = b.
Proof. unfold c3_1. rewrite s1_low, s2_mid. apply halves. Qed.

Lemma c3_1_last_ok a b : c3_1 (s1 a b) (s2_last b) = b.
Proof. unfold c3_1. rewrite s1_low, s2_last_mid. apply halves. Qed.

Lemma c3_2_ok b c : c3_2 (s2 b c) (s3 c) = c.
Proof.
  apply byte_eqb_eq. revert b c.
  apply (for_bytes2 (fun b c => byte_eqb (c3_2 (s2 b c) (s3 c)) c)).
  vm_compute. reflexivity.
Qed.

Lemma list_ind3 {A : Type} (P : list A -> Prop) :
  P [] -> (forall a, P [a]) -> (forall a b, P [a; b]) ->
  (forall a b c l, P l -> P (a :: b :: c :: l)) ->
  forall l, P l.
Proof.
  intros H0 H1 H2 H3.
  assert (H : forall n l, length l <= n -> P l).
  { induction n as [|n IH]; intros l Hl.
    - destruct l; [exact H0 | simpl in Hl; lia].
    - destruct l as [|a [|b [|c l]]]; auto.
      apply H3. apply IH. simpl in Hl. lia. }
  intros l. apply (H (length l)). lia.
Qed.

Lemma encode_group a b c rest :
  encode (a :: b :: c :: rest) =
  tab (s0 a) :: tab (s1 a b) :: tab (s2 b c) :: tab (s3 c) :: encode rest.
Proof. reflexivity. Qed.

Lemma sextet_inverse n : sextet_ok n = true -> inverse (tab n) = Some n.
Proof.
  unfold sextet_ok. intros H.
  apply andb_prop in H. destruct H as (H & _).
  apply andb_prop in H. destruct H as (H & _).
  apply andb_prop in H. destruct H as (H & _).
  destruct (inverse (tab n)) as [m|]; [|discriminate].
  apply N.eqb_eq in H. subst. reflexivity.
Qed.

Lemma sextet_not_padding n :
  sextet_ok n = true -> Ascii.eqb (tab n) padding = false.
Proof.
  unfold sextet_ok. intros H.
  apply andb_prop in H. destruct H as (H & _).
  apply andb_prop in H. destruct H as (H & _).
  apply andb_prop in H. destruct H as (_ & H).
  apply negb_true_iff in H. exact H.
Qed.

Lemma sextet_not_newline n : sextet_ok n = true -> tab n <> newline.
Proof.
  unfold sextet_ok. intros H.
  apply andb_prop in H. destruct H as (H & _).
  apply andb_prop in H. destruct H as (_ & H).
  apply negb_true_iff in H. apply Ascii.eqb_neq. exact H.
Qed.

Lemma sextet_in_alphabet n : sextet_ok n = true -> In (tab n) alphabet.
Proof.
  unfold sextet_ok. intros H.
  apply andb_prop in H. destruct H as (_ & H).
  destruct (in_dec Ascii.ascii_dec (tab n) alphabet); [assumption|discriminate].
Qed.

(** Decoding what [encode] produced gives the bytes back. *)
Lemma decode_encode (src : list byte) : decode (encode src) = Some src.
Proof.
  induction src as [|a|a b|a b c rest IH] using list_ind3.
  - reflexivity.
  - change (encode [a]) with [tab (s0 a); tab (s1_last a); padding; padding].
    cbn [decode].
    rewrite (sextet_inverse _ (s0_ok a)), (sextet_inverse _ (s1_last_ok a)).
    rewrite Ascii.eqb_refl, c3_0_last_ok. reflexivity.
  - change (encode [a; b])
      with [tab (s0 a); tab (s1 a b); tab (s2_last b); padding].
    cbn [decode].
    rewrite (sextet_inverse _ (s0_ok a)), (sextet_inverse _ (s1_ok a b)).
    rewrite (sextet_not_padding _ (s2_last_ok b)).
    rewrite (sextet_inverse _ (s2_last_ok b)).
    rewrite Ascii.eqb_refl, c3_0_ok, c3_1_last_ok. reflexivity.
  - rewrite encode_group. cbn [decode].
    rewrite (sextet_inverse _ (s0_ok a)), (sextet_inverse _ (s1_ok a b)).
    rewrite (sextet_not_padding _ (s2_ok b c)).
    rewrite (sextet_inverse _ (s2_ok b c)).
    rewrite (sextet_not_padding _ (s3_ok c)).
    rewrite (sextet_inverse _ (s3_ok c)).
    rewrite IH, c3_0_ok, c3_1_ok, c3_2_ok. reflexivity.
Qed.

(** The encoded text is made of alphabet characters and padding signs;
    in particular it holds no newline. *)
Lemma encode_chars (src : list byte) : Forall base64_char (encode src).
Proof.
  assert (Hs : forall n, sextet_ok n = true -> base64_char (tab n)).
  { intros n Hn. left. apply sextet_in_alphabet. exact Hn. }
  assert (Hp : base64_char padding) by (right; reflexivity).
  induction src as [|a|a b|a b c rest IH] using list_ind3.
  - apply Forall_nil.
  - change (encode [a]) with [tab (s0 a); tab (s1_last a); padding; padding].
    apply Forall_cons; [apply Hs, s0_ok|].
    apply Forall_cons; [apply Hs, s1_last_ok|].
    apply Forall_cons; [exact Hp|].
    apply Forall_cons; [exact Hp|]. apply Forall_nil.
  - change (encode [a; b])
      with [tab (s0 a); tab (s1 a b); tab (s2_last b); padding].
    apply Forall_cons; [apply Hs, s0_ok|].
    apply Forall_cons; [apply Hs, s1_ok|].
    apply Forall_cons; [apply Hs, s2_last_ok|].
    apply Forall_cons; [exact Hp|]. apply Forall_nil.
  - rewrite encode_group.
    apply Forall_cons; [apply Hs, s0_ok|].
    apply Forall_cons; [apply Hs, s1_ok|].
    apply Forall_cons; [apply Hs, s2_ok|].
    apply Forall_cons; [apply Hs, s3_ok|]. exact IH.
Qed.

(** [encode] fills exactly [encoded_size] characters. *)
Lemma encode_length (src : list byte) :
  length (encode src) = encoded_size (length src).
Proof.
  induction src as [|a|a b|a b c rest IH] using list_ind3;
    try reflexivity.
  rewrite encode_group. cbn [length]. rewrite IH. unfold encoded_size.
  replace (S (S (S (length rest))) + 2) with (length rest + 2 + 1 * 3) by lia.
  rewrite Nat.div_add by lia. lia.
Qed.

End Base64Facts.

(** ** The destination stream and the thumbnail rows *)

Section SinkFacts.

Lemma write_line_healthy (x : text) (d : OutFile) :
  healthy d -> write_line x d = (true, grow d x).
Proof.
  intros (Hs & He). unfold write_line, fwrite, ferror, grow.
  rewrite Hs. simpl. rewrite He. reflexivity.
Qed.

Lemma healthy_grow (x : text) (d : OutFile) : healthy d -> healthy (grow d x).
Proof. intros (Hs & He). split; assumption. Qed.

Lemma grow_grow (d : OutFile) (x y : text) :
  grow (grow d x) y = grow d (x ++ y).
Proof. unfold grow. simpl. rewrite app_assoc. reflexivity. Qed.

Lemma grow_nil (d : OutFile) : grow d [] = d.
Proof. destruct d. unfold grow. simpl. rewrite app_nil_r. reflexivity. Qed.

Lemma write_line_true (x : text) (d d' : OutFile) :
  write_line x d = (true, d') -> contents d' = contents d ++ x.
Proof.
  unfold write_line, fwrite, ferror. intros H.
  destruct (space d) as [room|].
  - destruct (Nat.leb_spec (length x) room).
    + injection H as _ <-. reflexivity.
    + simpl in H. discriminate.
  - injection H as _ <-. reflexivity.
Qed.

Lemma extends_refl (d : OutFile) : extends d d.
Proof. exists []. rewrite app_nil_r. reflexivity. Qed.

Lemma extends_trans (d1 d2 d3 : OutFile) :
  extends d1 d2 -> extends d2 d3 -> extends d1 d3.
Proof.
  intros (m1 & H1) (m2 & H2). exists (m1 ++ m2).
  rewrite H2, H1, app_assoc. reflexivity.
Qed.

Lemma fwrite_extends (x : text) (d : OutFile) : extends d (fwrite x d).
Proof.
  unfold fwrite. destruct (space d) as [room|].
  - destruct (length x <=? room).
    + exists x. reflexivity.
    + exists (firstn room x). reflexivity.
  - exists x. reflexivity.
Qed.

Lemma write_line_extends (x : text) (d d' : OutFile) (ok : bool) :
  write_line x d = (ok, d') -> extends d d'.
Proof.
  unfold write_line. intros H. injection H as _ <-. apply fwrite_extends.
Qed.

Lemma write_line_dst (x : text) (d d' : OutFile) (ok : bool) :
  write_line x d = (ok, d') -> d' = fwrite x d.
Proof. unfold write_line. intros H. injection H as _ <-. reflexivity. Qed.

Lemma write_metadata_healthy (md : metadata) (d : OutFile) :
  healthy d -> write_metadata md d = (true, grow d (metadata_lines md)).
Proof.
  revert d. induction md as [|[key value] md IH]; intros d Hd.
  - simpl. destruct Hd as (_ & He). unfold ferror. rewrite He.
    unfold metadata_lines. simpl. rewrite grow_nil. reflexivity.
  - cbn [write_metadata]. rewrite write_line_healthy by assumption.
    cbn [negb]. rewrite IH by (apply healthy_grow; assumption).
    rewrite grow_grow. unfold metadata_lines. simpl.
    rewrite <- !app_assoc. reflexivity.
Qed.

Lemma write_metadata_extends (md : metadata) (d d' : OutFile) (ok : bool) :
  write_metadata md d = (ok, d') -> extends d d'.
Proof.
  revert d. induction md as [|[key value] md IH]; intros d H.
  - simpl in H. injection H as _ <-. apply extends_refl.
  - cbn [write_metadata] in H.
    destruct (write_line _ d) as [ok1 d1] eqn:Hw.
    apply write_line_extends in Hw.
    destruct ok1; cbn [negb] in H.
    + apply extends_trans with d1; [assumption | apply IH; assumption].
    + injection H as _ <-. assumption.
Qed.

Lemma write_rows_step (encoded : text) (dst : OutFile) :
  write_rows encoded dst =
  if le_lt_dec (length encoded) max_row_length then
    if 0 <? length encoded
    then write_line (lit "; " ++ encoded ++ nl) dst
    else (true, dst)
  else
    let '(ok, dst') :=
      write_line (lit "; " ++ firstn max_row_length encoded ++ nl) dst in
    if ok then write_rows (skipn max_row_length encoded) dst'
    else (false, dst').
Proof.
  funelim (write_rows encoded dst); rew_tests; try reflexivity;
    unfold write_line; cbv zeta;
    match goal with H : negb _ = _ |- _ => rewrite H end; reflexivity.
Qed.

Lemma rows_of_step (encoded : text) :
  rows_of encoded =
  if le_lt_dec (length encoded) max_row_length then
    match encoded with [] => [] | _ :: _ => [encoded] end
  else firstn max_row_length encoded :: rows_of (skipn max_row_length encoded).
Proof.
  funelim (rows_of encoded); rew_tests; reflexivity.
Qed.

End SinkFacts.

(** ** The thumbnail encoder *)

Section RowFacts.

Lemma rows_of_concat (s : text) : concat (rows_of s) = s.
Proof.
  remember (length s) as n eqn:Hn. revert s Hn.
  induction n as [n IH] using lt_wf_ind. intros s Hn.
  rewrite rows_of_step. destruct (le_lt_dec _ _) as [Hle|Hgt].
  - destruct s; [reflexivity|]. simpl. rewrite app_nil_r. reflexivity.
  - cbn [concat]. rewrite (IH (length (skipn max_row_length s))).
    + apply firstn_skipn.
    + rewrite length_skipn. unfold max_row_length in *. lia.
    + reflexivity.
Qed.

Lemma rows_of_bounds (s : text) :
  Forall (fun row => 0 < length row <= max_row_length) (rows_of s).
Proof.
  remember (length s) as n eqn:Hn. revert s Hn.
  induction n as [n IH] using lt_wf_ind. intros s Hn.
  rewrite rows_of_step. destruct (le_lt_dec _ _) as [Hle|Hgt].
  - destruct s; [apply Forall_nil|].
    apply Forall_cons; [|apply Forall_nil]. simpl in *. lia.
  - apply Forall_cons.
    + rewrite length_firstn. unfold max_row_length in *. lia.
    + apply (IH (length (skipn max_row_length s))); [|reflexivity].
      rewrite length_skipn. unfold max_row_length in *. lia.
Qed.

Lemma rows_of_chars (P : ascii -> Prop) (s : text) :
  Forall P s -> Forall (Forall P) (rows_of s).
Proof.
  intros HP. rewrite <- (rows_of_concat s) in HP.
  induction (rows_of s) as [|row rows IH]; [apply Forall_nil|].
  simpl in HP. apply Forall_app in HP. destruct HP as (H1 & H2).
  apply Forall_cons; [assumption | apply IH; assumption].
Qed.

Lemma write_rows_true (s : text) (d d' : OutFile) :
  write_rows s d = (true, d') ->
  contents d' = contents d ++ concat (map row_line (rows_of s)).
Proof.
  remember (length s) as n eqn:Hn. revert s d Hn.
  induction n as [n IH] using lt_wf_ind. intros s d Hn.
  rewrite write_rows_step, rows_of_step.
  destruct (le_lt_dec _ _) as [Hle|Hgt].
  - destruct s as [|c s].
    + simpl. intros H. injection H as <-. rewrite app_nil_r. reflexivity.
    + cbn [length Nat.ltb Nat.leb]. intros H. apply write_line_true in H.
      rewrite H. simpl. rewrite app_nil_r. reflexivity.
  - destruct (write_line _ d) as [ok d1] eqn:Hw. destruct ok; [|discriminate].
    intros H. apply write_line_true in Hw.
    apply (IH (length (skipn max_row_length s))) in H.
    + rewrite H, Hw. cbn [map concat]. rewrite <- app_assoc. reflexivity.
    + rewrite length_skipn. unfold max_row_length in *. lia.
    + reflexivity.
Qed.

Lemma write_rows_healthy (s : text) (d : OutFile) :
  healthy d ->
  write_rows s d = (true, grow d (concat (map row_line (rows_of s)))).
Proof.
  remember (length s) as n eqn:Hn. revert s d Hn.
  induction n as [n IH] using lt_wf_ind. intros s d Hn Hd.
  rewrite write_rows_step, rows_of_step.
  destruct (le_lt_dec _ _) as [Hle|Hgt].
  - destruct s as [|c s].
    + simpl. rewrite grow_nil. reflexivity.
    + cbn [length Nat.ltb Nat.leb]. rewrite write_line_healthy by assumption.
      simpl. rewrite app_nil_r. reflexivity.
  - rewrite write_line_healthy by assumption.
    rewrite (IH (length (skipn max_row_length s))).
    + rewrite grow_grow. reflexivity.
    + rewrite length_skipn. unfold max_row_length in *. lia.
    + reflexivity.
    + apply healthy_grow. assumption.
Qed.

Lemma write_rows_extends (s : text) (d d' : OutFile) (ok : bool) :
  write_rows s d = (ok, d') -> extends d d'.
Proof.
  remember (length s) as n eqn:Hn. revert s d Hn.
  induction n as [n IH] using lt_wf_ind. intros s d Hn.
  rewrite write_rows_step.
  destruct (le_lt_dec _ _) as [Hle|Hgt].
  - destruct (0 <? length s).
    + apply write_line_extends.
    + intros H. injection H as _ <-. apply extends_refl.
  - destruct (write_line _ d) as [ok1 d1] eqn:Hw.
    apply write_line_extends in Hw. destruct ok1.
    + intros H. apply (IH (length (skipn max_row_length s))) in H.
      * apply extends_trans with d1; assumption.
      * rewrite length_skipn. unfold max_row_length in *. lia.
      * reflexivity.
    + intros H. injection H as _ <-. assumption.
Qed.

End RowFacts.

(** C5.  The body lines written for a thumbnail: when the rows are
    written without error (as they are on a destination that accepts every
    write), the text added is one line ["; " ++ row ++ newline] per row,
    every row holds between 1 and 78 base-64 characters, the rows put end
    to end are the base-64 encoding of the image bytes, decoding them
    gives the image bytes back, and an empty image has no row at all. *)
Theorem thumbnail_body_roundtrip (image : list byte) (dst : OutFile) :
  (healthy dst -> fst (write_rows (Base64.encode image) dst) = true) /\
  (forall dst', write_rows (Base64.encode image) dst = (true, dst') ->
   exists rows,
     contents dst' = contents dst ++ concat (map row_line rows) /\
     Forall (fun row => 0 < length row <= 78 /\ Forall base64_char row) rows /\
     concat rows = Base64.encode image /\
     Base64.decode (concat rows) = Some image /\
     (image = [] -> rows = [])).
Proof.
  split.
  - intros Hd. rewrite write_rows_healthy by assumption. reflexivity.
  - intros dst' Hw. exists (rows_of (Base64.encode image)).
    split; [apply write_rows_true; assumption|].
    split.
    { pose proof (rows_of_bounds (Base64.encode image)) as Hb.
      pose proof (rows_of_chars base64_char (Base64.encode image)
                    (Base64Facts.encode_chars image)) as Hc.
      rewrite Forall_forall in *. intros row Hrow. split.
      - apply Hb. assumption.
      - apply Hc. assumption. }
    split; [apply rows_of_concat|].
    split; [rewrite rows_of_concat; apply Base64Facts.decode_encode|].
    intros ->. reflexivity.
Qed.

(** The theorem at a four-byte image on an empty destination. *)
Lemma thumbnail_body_roundtrip_witness :
  fst (write_rows (Base64.encode [x01; x02; x03; x04]) Container.empty_out)
    = true /\
  exists rows,
    contents (snd (write_rows (Base64.encode [x01; x02; x03; x04])
                     Container.empty_out))
      = contents Container.empty_out ++ concat (map row_line rows) /\
    Forall (fun row => 0 < length row <= 78 /\ Forall base64_char row) rows /\
    concat rows = Base64.encode [x01; x02; x03; x04] /\
    Base64.decode (concat rows) = Some [x01; x02; x03; x04] /\
    ([x01; x02; x03; x04] = @nil byte -> rows = []).
Proof.
  destruct (thumbnail_body_roundtrip [x01; x02; x03; x04] Container.empty_out)
    as (Hok & Hrows).
  split.
  - apply Hok. split; reflexivity.
  - apply Hrows. reflexivity.
Defined.

(** ** Runs of the converter *)

Lemma block_type_eqb_eq (a b : EBlockType) :
  block_type_eqb a b = true <-> a = b.
Proof. destruct a, b; simpl; split; congruence. Qed.

Lemma block_type_eqb_refl (a : EBlockType) : block_type_eqb a a = true.
Proof. destruct a; reflexivity. Qed.

Lemma block_type_eqb_neq (a b : EBlockType) :
  a <> b -> block_type_eqb a b = false.
Proof.
  intros H. destruct (block_type_eqb a b) eqn:E; [|reflexivity].
  apply block_type_eqb_eq in E. contradiction.
Qed.

Lemma is_success_true (res : EResult) : is_success res = true -> res = Success.
Proof. destruct res; simpl; congruence. Qed.

Lemma thumbnail_label_of (f : EThumbnailFormat) : thumbnail_label f = label_of f.
Proof. destruct f; reflexivity. Qed.

(** Reduces the tests and bindings met after a call has been replaced by
    its answer. *)
Ltac settle :=
  cbv beta iota zeta;
  cbn [is_success negb block_type_eqb src_file dst_file block_header
       restore_position with_src and_then fst snd].

Ltac answer H := rewrite H; settle.

Section RunFacts.

Variable L : BlockAccessLayer.
Variable verify_checksum : bool.
Variable file_header : FileHeader L.
Variable file_size : Z.

Let thumbs := thumbnails_loop L verify_checksum file_header.
Let gcodes := gcode_loop L verify_checksum file_header file_size.

Lemma framing_written (t : ThumbnailBlock) (d : OutFile) :
  grow (grow (grow d
    (thumbnail_begin (thumbnail_label (format t)) t (Base64.encode (data t))))
    (concat (map row_line (rows_of (Base64.encode (data t))))))
    (thumbnail_end (thumbnail_label (format t)))
  = grow d (framing t).
Proof.
  rewrite !grow_grow. f_equal.
  unfold framing, framing_of, thumbnail_begin, thumbnail_end.
  rewrite thumbnail_label_of, rows_of_concat.
  rewrite <- !app_assoc. reflexivity.
Qed.

Lemma thumbnails_loop_reads s h rp ts s' h' rp' :
  thumbnails_read L verify_checksum file_header s h rp ts s' h' rp' ->
  forall fuel dst, length ts <= fuel -> healthy dst ->
  thumbs fuel {| src_file := s; dst_file := dst; block_header := h;
                 restore_position := rp |}
  = Next {| src_file := s'; dst_file := grow dst (concat (map framing ts));
            block_header := h'; restore_position := rp' |}.
Proof.
  unfold thumbs.
  induction 1 as [s h rp Hty | s h rp t s1 h1 s2 ts s' h' rp' Hty Hrd Hhd _ IH];
    intros fuel dst Hfuel Hd.
  - destruct fuel; cbn [thumbnails_loop]; settle;
      rewrite (block_type_eqb_neq _ _ Hty); settle;
      cbn [map concat]; rewrite grow_nil; reflexivity.
  - destruct fuel as [|fuel]; [simpl in Hfuel; lia|].
    cbn [thumbnails_loop]. settle. rewrite Hty. settle.
    answer Hrd.
    rewrite write_line_healthy by assumption. settle.
    rewrite write_rows_healthy by (apply healthy_grow; assumption). settle.
    rewrite write_line_healthy by (repeat apply healthy_grow; assumption).
    settle. answer Hhd.
    rewrite framing_written.
    rewrite IH; [| simpl in Hfuel; lia | apply healthy_grow; assumption].
    rewrite grow_grow. reflexivity.
Qed.

Lemma gcode_loop_reads s h raws s' h' :
  gcode_read L verify_checksum file_header file_size s h raws s' h' ->
  forall outs fuel dst rp, normalised raws outs ->
  length raws <= fuel -> healthy dst ->
  gcodes fuel {| src_file := s; dst_file := dst; block_header := h;
                 restore_position := rp |}
  = Next {| src_file := s'; dst_file := grow dst (concat outs);
            block_header := h'; restore_position := rp |}.
Proof.
  unfold gcodes.
  assert (Hout : forall out dst, healthy dst ->
    match out with [] => (true, dst) | _ :: _ => write_line out dst end
    = (true, grow dst out)).
  { intros out dst Hd. destruct out.
    - rewrite grow_nil. reflexivity.
    - apply write_line_healthy. assumption. }
  induction 1 as [s h Hty | s h raw s1 Hty Hrd Hend
                 | s h raw s1 h1 s2 raws s' h' Hty Hrd Hend Hhd _ IH];
    intros outs fuel dst rp Hn Hfuel Hd.
  - inversion Hn; subst.
    destruct fuel; cbn [gcode_loop]; settle;
      rewrite (block_type_eqb_neq _ _ Hty); settle;
      cbn [concat]; rewrite grow_nil; reflexivity.
  - inversion Hn as [|? out ? outs' Hraw Hrest]; subst.
    inversion Hrest; subst.
    destruct fuel as [|fuel]; [simpl in Hfuel; lia|].
    cbn [gcode_loop]. settle. rewrite Hty. settle.
    answer Hrd. rewrite Hraw. rewrite Hout by assumption. settle.
    rewrite Z.eqb_refl. cbn [concat]. rewrite app_nil_r. reflexivity.
  - inversion Hn as [|? out ? outs' Hraw Hrest]; subst.
    destruct fuel as [|fuel]; [simpl in Hfuel; lia|].
    cbn [gcode_loop]. settle. rewrite Hty. settle.
    answer Hrd. rewrite Hraw. rewrite Hout by assumption. settle.
    destruct (Z.eqb_spec (ftell L s1) file_size) as [E|_]; [contradiction|].
    answer Hhd.
    rewrite (IH outs' fuel (grow dst out) rp Hrest);
      [| simpl in Hfuel; lia | apply healthy_grow; assumption].
    rewrite grow_grow. reflexivity.
Qed.

End RunFacts.

Lemma find_producer (d : metadata) :
  match find (fun item => text_eqb (fst item) (lit "Producer")) d with
  | Some item => snd item
  | None => lit "Unknown"
  end = producer_of d.
Proof.
  induction d as [|[key value] d IH]; [reflexivity|].
  cbn [find producer_of fst]. destruct (text_eqb key (lit "Producer")).
  - reflexivity.
  - exact IH.
Qed.

Lemma text_eqb_eq (a b : text) : text_eqb a b = true <-> a = b.
Proof.
  unfold text_eqb. destruct (list_eq_dec Ascii.ascii_dec a b); split;
    congruence.
Qed.

Lemma producer_of_absent (d : metadata) :
  no_producer d -> producer_of d = lit "Unknown".
Proof.
  induction d as [|[key value] d IH]; intros H; [reflexivity|].
  cbn [producer_of]. destruct (text_eqb key (lit "Producer")) eqn:E.
  - apply text_eqb_eq in E. exfalso. apply (H (key, value)); [left; reflexivity|].
    exact E.
  - apply IH. intros item Hin. apply H. right. exact Hin.
Qed.

(** A run whose calls all succeed writes the rendering of the payloads
    handed over. *)
Lemma from_binary_to_ascii_delivers (L : BlockAccessLayer) (vc : bool)
    (src src' : Src L) (fm pm : metadata) (ts : list ThumbnailBlock)
    (raws outs : list text) (prm sm : metadata) (fuel : nat) (dst : OutFile) :
  delivers L vc src fm pm ts raws prm sm src' ->
  normalised raws outs ->
  healthy dst ->
  length ts <= fuel -> length raws <= fuel ->
  from_binary_to_ascii L vc fuel src dst
  = Return Success src' (grow dst (render fm pm ts outs prm sm)).
Proof.
  intros (s1 & fh & s2 & h2 & s3 & s4 & h4 & s5 & s6 & h6 & s7 & s8 & h8 & rp
          & s9 & h9 & s10 & s11 & h11 & h12 & s12 & s13 & h13 & s14
          & Hv & Hfh & Hh2 & Ht2 & Hfm & Hh4 & Ht4 & Hpm & Hh6 & Hthumbs
          & Hskip & Hh9 & Hgcode & Hh12 & Ht12 & Hprm & Hh13 & Ht13 & Hsm)
         Hnorm Hd Hfuel1 Hfuel2.
  unfold from_binary_to_ascii, convert_file_metadata.
  answer Hv. answer Hfh. answer Hh2. rewrite Ht2. settle. answer Hfm.
  rewrite find_producer.
  rewrite write_line_healthy by assumption. settle.
  unfold convert_printer_metadata. answer Hh4. rewrite Ht4. settle. answer Hpm.
  rewrite write_metadata_healthy by (apply healthy_grow; assumption). settle.
  unfold convert_thumbnails. answer Hh6.
  rewrite (thumbnails_loop_reads L vc fh _ _ _ _ _ _ _ Hthumbs)
    by (try assumption; repeat apply healthy_grow; assumption).
  settle. unfold convert_gcode. settle.
  rewrite write_line_healthy by (repeat apply healthy_grow; assumption).
  settle. answer Hskip. answer Hh9.
  rewrite (gcode_loop_reads L vc fh _ _ _ _ _ _ Hgcode outs)
    by (try assumption; repeat apply healthy_grow; assumption).
  settle. unfold convert_print_metadata, read_print_metadata_block. settle.
  answer Hh12. rewrite Ht12. settle. answer Hprm.
  rewrite write_line_healthy by (repeat apply healthy_grow; assumption).
  settle.
  rewrite write_metadata_healthy by (repeat apply healthy_grow; assumption).
  settle. unfold convert_slicer_metadata. settle.
  answer Hh13. rewrite Ht13. settle. answer Hsm.
  rewrite write_line_healthy by (repeat apply healthy_grow; assumption).
  settle.
  rewrite write_metadata_healthy by (repeat apply healthy_grow; assumption).
  settle.
  rewrite write_line_healthy by (repeat apply healthy_grow; assumption).
  settle. f_equal. rewrite !grow_grow. unfold render, producer_line.
  rewrite <- !app_assoc. reflexivity.
Qed.

(** ** The stretches of a run, one by one *)

Lemma write_out_extends (out : text) (d d' : OutFile) (ok : bool) :
  match out with [] => (true, d) | _ :: _ => write_line out d end = (ok, d') ->
  extends d d'.
Proof.
  destruct out.
  - intros H. injection H as _ <-. apply extends_refl.
  - apply write_line_extends.
Qed.

(** Splits the next answer, test or write on which the hypothesis [H]
    depends, keeping what is learnt about the destination. *)
Ltac crack H :=
  match type of H with
  | context [match ?c with (_, _) => _ end] =>
      lazymatch c with
      | (_, _) => fail
      | write_line _ _ =>
          let E := fresh "Hw" in
          destruct c as [? ?] eqn:E;
          pose proof (write_line_extends _ _ _ _ E)
      | write_metadata _ _ =>
          let E := fresh "Hw" in
          destruct c as [? ?] eqn:E;
          pose proof (write_metadata_extends _ _ _ _ E)
      | write_rows _ _ =>
          let E := fresh "Hw" in
          destruct c as [? ?] eqn:E;
          pose proof (write_rows_extends _ _ _ _ E)
      | match _ with [] => _ | _ :: _ => _ end =>
          let E := fresh "Hw" in
          destruct c as [? ?] eqn:E;
          pose proof (write_out_extends _ _ _ _ E)
      | _ => let E := fresh "Hc" in destruct c as [? ?] eqn:E
      end
  | context [is_success ?r] =>
      let E := fresh "Hres" in destruct (is_success r) eqn:E
  | context [block_type_eqb ?a ?b] =>
      let E := fresh "Hty" in destruct (block_type_eqb a b) eqn:E
  | context [if negb ?b then _ else _] =>
      is_var b; destruct b
  | context [match remove_empty_lines ?r with _ => _ end] =>
      let E := fresh "Hn" in destruct (remove_empty_lines r) eqn:E
  | context [(?a =? ?b)%Z] =>
      let E := fresh "Hpos" in destruct (Z.eqb_spec a b) as [E|E]
  end;
  cbv beta iota zeta in H;
  cbn [negb src_file dst_file block_header restore_position with_src
       and_then fst snd] in H.

(** Applies the induction hypothesis of a loop to the state with which
    the hypothesis [H] re-enters it. *)
Ltac use_loop_IH IH H :=
  match type of H with
  | ?loop ?st0 = _ =>
      specialize (IH st0); rewrite H in IH;
      cbn [src_file dst_file block_header restore_position] in IH
  end.

Ltac extends_chain :=
  first [ apply extends_refl
        | eassumption
        | eapply extends_trans; [eassumption | extends_chain] ].

Section PhaseFacts.

Variable L : BlockAccessLayer.
Variable verify_checksum : bool.
Variable file_header : FileHeader L.
Variable file_size : Z.

Lemma thumbnails_loop_extends (fuel : nat) (st : State L) :
  keeps_output (dst_file st)
    (thumbnails_loop L verify_checksum file_header fuel st).
Proof.
  unfold keeps_output.
  revert st. induction fuel as [|fuel IH]; intros st.
  - cbn [thumbnails_loop]. destruct (negb _); [apply extends_refl | exact I].
  - destruct (thumbnails_loop L verify_checksum file_header (S fuel) st)
      as [st'|res s d|why] eqn:H; [| |exact I].
    + cbn [thumbnails_loop] in H.
      repeat (crack H; try discriminate);
        try (injection H as <-; extends_chain).
      use_loop_IH IH H. extends_chain.
    + cbn [thumbnails_loop] in H.
      repeat (crack H; try discriminate);
        try (injection H as <- <- <-; extends_chain).
      use_loop_IH IH H. extends_chain.
Qed.

Lemma gcode_loop_extends (fuel : nat) (st : State L) :
  keeps_output (dst_file st)
    (gcode_loop L verify_checksum file_header file_size fuel st).
Proof.
  unfold keeps_output.
  revert st. induction fuel as [|fuel IH]; intros st.
  - cbn [gcode_loop]. destruct (negb _); [apply extends_refl | exact I].
  - destruct (gcode_loop L verify_checksum file_header file_size (S fuel) st)
      as [st'|res s d|why] eqn:H; [| |exact I].
    + cbn [gcode_loop] in H.
      repeat (crack H; try discriminate);
        try (injection H as <-; cbn [dst_file]; extends_chain).
      use_loop_IH IH H. extends_chain.
    + cbn [gcode_loop] in H.
      repeat (crack H; try discriminate);
        try (injection H as <- <- <-; extends_chain).
      use_loop_IH IH H. extends_chain.
Qed.

(** Settles a goal about a stretch without loop from its definition. *)
Ltac by_cases_on H :=
  repeat (crack H; try discriminate);
  first [ injection H as <-; cbn [dst_file]; extends_chain
        | injection H as <- <- <-; extends_chain ].

Lemma convert_thumbnails_extends (fuel : nat) (src : Src L) (dst : OutFile) :
  keeps_output dst
    (convert_thumbnails L verify_checksum file_header fuel src dst).
Proof.
  unfold convert_thumbnails.
  destruct (read_next_block_header L src file_header verify_checksum)
    as [[res h] s].
  destruct (is_success res); cbn [negb]; [|apply extends_refl].
  apply (thumbnails_loop_extends fuel
    {| src_file := s; dst_file := dst; block_header := h;
       restore_position := ftell L src |}).
Qed.

Lemma convert_gcode_extends (fuel : nat) (st : State L) :
  keeps_output (dst_file st)
    (convert_gcode L verify_checksum file_header file_size fuel st).
Proof.
  unfold convert_gcode.
  destruct (write_line nl (dst_file st)) as [ok d] eqn:Hw.
  apply write_line_extends in Hw.
  destruct ok; cbn [negb]; [|exact Hw].
  destruct (skip_block_content L (src_file st) file_header (block_header st))
    as [res s].
  destruct (is_success res); cbn [negb]; [|exact Hw].
  destruct (read_next_block_header_of L s file_header GCode verify_checksum)
    as [[res' h] s'].
  destruct (is_success res'); cbn [negb]; [|exact Hw].
  pose proof (gcode_loop_extends fuel
    {| src_file := s'; dst_file := d; block_header := h;
       restore_position := restore_position st |}) as Hl.
  unfold keeps_output in *. cbn [dst_file] in Hl.
  destruct (gcode_loop _ _ _ _ _ _); try exact I; extends_chain.
Qed.

Lemma read_print_metadata_block_extends (st : State L) :
  keeps_output (dst_file st)
    (read_print_metadata_block L verify_checksum file_header st).
Proof.
  unfold keeps_output.
  destruct (read_print_metadata_block L verify_checksum file_header st)
    as [st'|res s d|why] eqn:H; [| |exact I];
    unfold read_print_metadata_block in H; by_cases_on H.
Qed.

Lemma convert_print_metadata_extends (st : State L) :
  keeps_output (dst_file st)
    (convert_print_metadata L verify_checksum file_header st).
Proof.
  unfold convert_print_metadata.
  apply (read_print_metadata_block_extends
           (with_src st (fseek_set L (src_file st) (restore_position st)))).
Qed.

Lemma convert_slicer_metadata_extends (st : State L) :
  keeps_output (dst_file st)
    (convert_slicer_metadata L verify_checksum file_header st).
Proof.
  unfold keeps_output.
  destruct (convert_slicer_metadata L verify_checksum file_header st)
    as [st'|res s d|why] eqn:H; [| |exact I];
    unfold convert_slicer_metadata in H; by_cases_on H.
Qed.

Lemma later_stretches_extends (fuel : nat) (src : Src L) (dst : OutFile) :
  keeps_output dst
    (later_stretches L verify_checksum file_header file_size fuel src dst).
Proof.
  unfold later_stretches.
  pose proof (convert_thumbnails_extends fuel src dst) as H1.
  destruct (convert_thumbnails _ _ _ _ _ _) as [st1| |]; cbn [and_then];
    try exact H1.
  pose proof (convert_gcode_extends fuel st1) as H2.
  destruct (convert_gcode _ _ _ _ _ _) as [st2| |]; cbn [and_then];
    unfold keeps_output in *; try exact I; try extends_chain.
  pose proof (convert_print_metadata_extends st2) as H3.
  destruct (convert_print_metadata _ _ _ _) as [st3| |]; cbn [and_then];
    unfold keeps_output in *; try exact I; try extends_chain.
  pose proof (convert_slicer_metadata_extends st3) as H4.
  destruct (convert_slicer_metadata _ _ _ _) as [st4| |];
    unfold keeps_output in *; try exact I; extends_chain.
Qed.

End PhaseFacts.

Section RestoreFacts.

Variable L : BlockAccessLayer.
Variable verify_checksum : bool.
Variable file_header : FileHeader L.
Variable file_size : Z.

Lemma thumbnails_loop_restore (fuel : nat) (st st' : State L) :
  thumbnails_loop L verify_checksum file_header fuel st = Next st' ->
  header_type L (block_header st') <> Thumbnail /\
  (st' = st \/
   exists s_before,
     restore_position st' = ftell L s_before /\
     read_next_block_header L s_before file_header verify_checksum
       = (Success, block_header st', src_file st')).
Proof.
  revert st. induction fuel as [|fuel IH]; intros st H.
  - cbn [thumbnails_loop] in H.
    destruct (block_type_eqb _ _) eqn:Hty; cbn [negb] in H; [discriminate|].
    injection H as <-. split; [|left; reflexivity].
    intros E. rewrite E in Hty. discriminate.
  - cbn [thumbnails_loop] in H.
    destruct (block_type_eqb (header_type L (block_header st)) Thumbnail)
      eqn:Hty; cbn [negb] in H.
    2:{ injection H as <-. split; [|left; reflexivity].
        intros E. rewrite E in Hty. discriminate. }
    repeat (crack H; try discriminate).
    match goal with
    | Hc : read_next_block_header L ?s0 _ _ = (?r, ?h, ?s1) |- _ =>
        apply is_success_true in Hres0; subst r;
        destruct (IH _ H) as (Hexit & [-> | Hprev]);
          (split; [exact Hexit|]); right;
          [exists s0; split; [reflexivity | exact Hc] | exact Hprev]
    end.
Qed.

Lemma convert_thumbnails_restore (fuel : nat) (src : Src L) (dst : OutFile)
    (st' : State L) :
  convert_thumbnails L verify_checksum file_header fuel src dst = Next st' ->
  header_type L (block_header st') <> Thumbnail /\
  exists s_before,
    restore_position st' = ftell L s_before /\
    read_next_block_header L s_before file_header verify_checksum
      = (Success, block_header st', src_file st').
Proof.
  unfold convert_thumbnails. intros H.
  destruct (read_next_block_header L src file_header verify_checksum)
    as [[res h] s] eqn:Hh.
  destruct (is_success res) eqn:Hres; cbn [negb] in H; [|discriminate].
  apply is_success_true in Hres. subst res.
  apply thumbnails_loop_restore in H.
  destruct H as (Hexit & [-> | Hprev]); (split; [exact Hexit|]).
  - exists src. split; [reflexivity | exact Hh].
  - exact Hprev.
Qed.

Lemma gcode_loop_restore (fuel : nat) (st st' : State L) :
  gcode_loop L verify_checksum file_header file_size fuel st = Next st' ->
  restore_position st' = restore_position st.
Proof.
  revert st. induction fuel as [|fuel IH]; intros st H.
  - cbn [gcode_loop] in H. destruct (negb _); [|discriminate].
    injection H as <-. reflexivity.
  - cbn [gcode_loop] in H.
    repeat (crack H; try discriminate); try (injection H as <-; reflexivity).
    apply IH in H. exact H.
Qed.

Lemma convert_gcode_restore (fuel : nat) (st st' : State L) :
  convert_gcode L verify_checksum file_header file_size fuel st = Next st' ->
  restore_position st' = restore_position st.
Proof.
  unfold convert_gcode. intros H.
  repeat (crack H; try discriminate).
  apply gcode_loop_restore in H. exact H.
Qed.

End RestoreFacts.

(** ** The block-ordering state machine *)

Lemma after_producer_line_extends (L : BlockAccessLayer) (vc : bool)
    (fh : FileHeader L) (fs : Z) (fuel : nat) (src : Src L) (dst : OutFile) :
  keeps_output dst (after_producer_line L vc fh fs fuel src dst).
Proof.
  unfold after_producer_line.
  destruct (convert_printer_metadata L vc fh src dst)
    as [[s d]|res s d|why] eqn:H; cbn [and_then]; unfold keeps_output;
    [| |exact I].
  - assert (Hd : extends dst d).
    { unfold convert_printer_metadata in H.
      repeat (crack H; try discriminate). injection H as _ <-. extends_chain. }
    pose proof (later_stretches_extends L vc fh fs fuel s d) as Hl.
    unfold keeps_output in Hl.
    destruct (later_stretches L vc fh fs fuel s d); try exact I;
      extends_chain.
  - unfold convert_printer_metadata in H.
    repeat (crack H; try discriminate);
      injection H as <- <- <-; extends_chain.
Qed.

(** C8.  When the file-metadata block is read and holds no pair with the
    key "Producer", the first write of [from_binary_to_ascii] is the line
    "; generated by Unknown" followed by three newlines: the call either
    stops with [WriteError] right after that write, or goes on with the
    rest of the conversion, which only adds to what the destination then
    holds. *)
Theorem producer_line_unknown (L : BlockAccessLayer) (vc : bool) (fuel : nat)
    (src : Src L) (dst : OutFile) s1 fh s2 h s3 fm s4 :
  is_valid_binary_gcode L src = (Success, s1) ->
  read_header L (rewind L (fseek_end L s1)) = (Success, fh, s2) ->
  read_next_block_header L s2 fh vc = (Success, h, s3) ->
  header_type L h = FileMetadata ->
  read_file_metadata L s3 fh h = (Success, fm, s4) ->
  no_producer fm ->
  let written := fwrite producer_unknown_line dst in
  let rest := after_producer_line L vc fh (ftell L (fseek_end L s1)) fuel s4 in
  from_binary_to_ascii L vc fuel src dst
    = (if ferror written then Return WriteError s4 written else rest written)
  /\ keeps_output written (rest written)
  /\ (healthy dst ->
      ferror written = false /\
      contents written = contents dst ++ producer_unknown_line).
Proof.
  intros Hv Hfh Hh Hty Hfm Hno written rest. split; [|split].
  - unfold from_binary_to_ascii, convert_file_metadata.
    answer Hv. answer Hfh. answer Hh. rewrite Hty. settle. answer Hfm.
    rewrite find_producer, (producer_of_absent fm Hno).
    unfold write_line. settle.
    change (lit "; generated by " ++ lit "Unknown" ++ nl ++ nl ++ nl)
      with producer_unknown_line.
    fold written. destruct (ferror written); settle; reflexivity.
  - apply after_producer_line_extends.
  - intros (Hs & He). unfold written, fwrite, ferror. rewrite Hs. simpl.
    split; [exact He | reflexivity].
Qed.

(** The theorem on the example container. *)
Lemma producer_line_unknown_witness :
  let L := Container.layer Container.Skipping in
  let src := Container.open_file Examples.stored in
  let dst := Container.empty_out in
  let written := fwrite producer_unknown_line dst in
  let rest := after_producer_line L true tt
                (ftell L (fseek_end L src)) 5
                (Container.seek src 24) in
  from_binary_to_ascii L true 5 src dst
    = (if ferror written then Return WriteError (Container.seek src 24) written
       else rest written)
  /\ keeps_output written (rest written)
  /\ (healthy dst ->
      ferror written = false /\
      contents written = contents dst ++ producer_unknown_line).
Proof.
  intros L src dst.
  apply (producer_line_unknown L true 5 src dst src tt
           (Container.seek src 10)
           {| Container.type := FileMetadata; Container.size := 6 |}
           (Container.seek src 18) [] (Container.seek src 24));
    try reflexivity.
  intros item [].
Defined.

(** C9.  One turn of the G-code loop, for a block that is read,
    normalised and written without error: if the stream then stands at
    [file_size] the loop is left and control falls through to the print
    metadata, with no result code; otherwise the next block header is
    read, a failure of that read is returned, and the loop goes on with
    the new header, which it leaves at once when the header is not a
    G-code header.  [file_size] is the offset found by lines 55-57 at the
    end of the container. *)
Theorem gcode_loop_stops_at_end_of_file (L : BlockAccessLayer) (vc : bool)
    (fh : FileHeader L) (fs : Z) (fuel : nat) (st : State L)
    (raw out : text) (s1 : Src L) (d1 : OutFile) :
  header_type L (block_header st) = GCode ->
  read_gcode L (src_file st) fh (block_header st) = (Success, raw, s1) ->
  remove_empty_lines raw = Some out ->
  match out with
  | [] => (true, dst_file st)
  | _ :: _ => write_line out (dst_file st)
  end = (true, d1) ->
  (ftell L s1 = fs ->
   gcode_loop L vc fh fs (S fuel) st
   = Next {| src_file := s1; dst_file := d1;
             block_header := block_header st;
             restore_position := restore_position st |}) /\
  (ftell L s1 <> fs ->
   forall res h s2,
     read_next_block_header L s1 fh vc = (res, h, s2) ->
     gcode_loop L vc fh fs (S fuel) st
     = if is_success res
       then gcode_loop L vc fh fs fuel
              {| src_file := s2; dst_file := d1; block_header := h;
                 restore_position := restore_position st |}
       else Return res s2 d1) /\
  (forall st', header_type L (block_header st') <> GCode ->
               gcode_loop L vc fh fs fuel st' = Next st') /\
  (forall src dst fs' fh' s d,
     convert_file_metadata L vc src dst = Next (fs', fh', s, d) ->
     fs' = ftell L (fseek_end L (snd (is_valid_binary_gcode L src)))).
Proof.
  intros Hty Hrd Hn Hw. repeat split.
  - intros Hend. cbn [gcode_loop]. rewrite Hty. settle. answer Hrd.
    rewrite Hn, Hw. settle. rewrite Hend, Z.eqb_refl. reflexivity.
  - intros Hend res h s2 Hh. cbn [gcode_loop]. rewrite Hty. settle.
    answer Hrd. rewrite Hn, Hw. settle.
    destruct (Z.eqb_spec (ftell L s1) fs) as [E|_]; [contradiction|].
    rewrite Hh. settle. destruct (is_success res); reflexivity.
  - intros st' Hty'. destruct fuel; cbn [gcode_loop];
      rewrite (block_type_eqb_neq _ _ Hty'); reflexivity.
  - intros src dst fs' fh' s d H. unfold convert_file_metadata in H.
    destruct (is_valid_binary_gcode L src) as [res0 s0]. cbn [snd].
    repeat (crack H; try discriminate).
    injection H as <- _ _ _. reflexivity.
Qed.

(** The theorem on a container that ends with its only G-code block. *)
Lemma gcode_loop_stops_at_end_of_file_witness :
  let L := Container.layer Container.Skipping in
  let src := Container.open_file Examples.stored in
  let header := {| Container.type := GCode; Container.size := 23 |} in
  let st := Build_State L (Container.seek src 106) Container.empty_out
              header 49%Z in
  gcode_loop L true tt 129%Z 1 st
  = Next (Build_State L (Container.seek src 129)
            (grow Container.empty_out
               (lit "G1 X0" ++ nl ++ lit "; comment" ++ nl ++ lit "G1 X1" ++ nl))
            header 49%Z).
Proof.
  intros L src header st.
  refine (proj1 (gcode_loop_stops_at_end_of_file L true tt 129%Z 0 st
            Examples.gcode_text
            (lit "G1 X0" ++ nl ++ lit "; comment" ++ nl ++ lit "G1 X1" ++ nl)
            (Container.seek src 129) _ _ _ _ _) _);
    reflexivity.
Defined.

(** C3.  At each of the four places where a block type is required, a
    header of another type makes [from_binary_to_ascii] return
    [InvalidSequenceOfBlocks] with the source as the header read left it
    and the destination as it was before that read: nothing further is
    read, decoded or written. *)
Theorem wrong_block_type_stops (L : BlockAccessLayer) (vc : bool) (fuel : nat)
    (src : Src L) (dst : OutFile) :
  (forall s1 fh s2 h s3,
     is_valid_binary_gcode L src = (Success, s1) ->
     read_header L (rewind L (fseek_end L s1)) = (Success, fh, s2) ->
     read_next_block_header L s2 fh vc = (Success, h, s3) ->
     header_type L h <> FileMetadata ->
     from_binary_to_ascii L vc fuel src dst
     = Return InvalidSequenceOfBlocks s3 dst) /\
  (forall fs fh s d h s',
     convert_file_metadata L vc src dst = Next (fs, fh, s, d) ->
     read_next_block_header L s fh vc = (Success, h, s') ->
     header_type L h <> PrinterMetadata ->
     from_binary_to_ascii L vc fuel src dst
     = Return InvalidSequenceOfBlocks s' d) /\
  (forall fs fh s d s0 d0 st1 st2 h s',
     convert_file_metadata L vc src dst = Next (fs, fh, s, d) ->
     convert_printer_metadata L vc fh s d = Next (s0, d0) ->
     convert_thumbnails L vc fh fuel s0 d0 = Next st1 ->
     convert_gcode L vc fh fs fuel st1 = Next st2 ->
     read_next_block_header L
       (fseek_set L (src_file st2) (restore_position st2)) fh vc
       = (Success, h, s') ->
     header_type L h <> PrintMetadata ->
     from_binary_to_ascii L vc fuel src dst
     = Return InvalidSequenceOfBlocks s' (dst_file st2)) /\
  (forall fs fh s d s0 d0 st1 st2 st3 h s',
     convert_file_metadata L vc src dst = Next (fs, fh, s, d) ->
     convert_printer_metadata L vc fh s d = Next (s0, d0) ->
     convert_thumbnails L vc fh fuel s0 d0 = Next st1 ->
     convert_gcode L vc fh fs fuel st1 = Next st2 ->
     convert_print_metadata L vc fh st2 = Next st3 ->
     read_next_block_header L (src_file st3) fh vc = (Success, h, s') ->
     header_type L h <> SlicerMetadata ->
     from_binary_to_ascii L vc fuel src dst
     = Return InvalidSequenceOfBlocks s' (dst_file st3)).
Proof.
  repeat split.
  - intros s1 fh s2 h s3 Hv Hfh Hh Hty.
    unfold from_binary_to_ascii, convert_file_metadata.
    answer Hv. answer Hfh. answer Hh.
    rewrite (block_type_eqb_neq _ _ Hty). settle. reflexivity.
  - intros fs fh s d h s' H1 Hh Hty. unfold from_binary_to_ascii.
    answer H1. unfold convert_printer_metadata. answer Hh.
    rewrite (block_type_eqb_neq _ _ Hty). settle. reflexivity.
  - intros fs fh s d s0 d0 st1 st2 h s' H1 H2 H3 H4 Hh Hty.
    unfold from_binary_to_ascii. answer H1. answer H2. answer H3. answer H4.
    unfold convert_print_metadata, read_print_metadata_block. settle.
    answer Hh. rewrite (block_type_eqb_neq _ _ Hty). settle. reflexivity.
  - intros fs fh s d s0 d0 st1 st2 st3 h s' H1 H2 H3 H4 H5 Hh Hty.
    unfold from_binary_to_ascii. answer H1. answer H2. answer H3. answer H4.
    answer H5. unfold convert_slicer_metadata. settle.
    answer Hh. rewrite (block_type_eqb_neq _ _ Hty). settle. reflexivity.
Qed.

(** The theorem on four containers, one for each place. *)
Lemma wrong_block_type_stops_witness :
  Container.run Container.Strict 5 Examples.misplaced_1
    = Some (InvalidSequenceOfBlocks, []) /\
  Container.run Container.Skipping 5 Examples.misplaced_2
    = Some (InvalidSequenceOfBlocks, producer_unknown_line) /\
  Container.run Container.Skipping 5 Examples.misplaced_3
    = Some (InvalidSequenceOfBlocks,
            Examples.output_before_gcode ++
            lit "G1 X0" ++ nl ++ lit "; comment" ++ nl ++ lit "G1 X1" ++ nl) /\
  Container.run Container.Skipping 5 Examples.misplaced_4
    = Some (InvalidSequenceOfBlocks,
            Examples.output_before_gcode ++
            lit "G1 X0" ++ nl ++ lit "; comment" ++ nl ++ lit "G1 X1" ++ nl ++
            nl ++ lit "; Layers = 10" ++ nl).
Proof.
  unfold Container.run. split; [|split; [|split]].
  - rewrite (proj1 (wrong_block_type_stops
                      (Container.layer Container.Strict) true 5
                      (Container.open_file Examples.misplaced_1)
                      Container.empty_out)
               (Container.open_file Examples.misplaced_1) tt
               (Container.seek (Container.open_file Examples.misplaced_1) 10)
               (Container.header_of Examples.printer_meta)
               (Container.seek (Container.open_file Examples.misplaced_1) 18));
      [reflexivity | reflexivity | reflexivity | reflexivity | discriminate].
  - set (L := Container.layer Container.Skipping).
    set (src := Container.open_file Examples.misplaced_2).
    rewrite (proj1 (proj2 (wrong_block_type_stops L true 5 src
                             Container.empty_out))
               48%Z tt (Container.seek src 24)
               (grow Container.empty_out producer_unknown_line)
               (Container.header_of Examples.print_meta)
               (Container.seek src 32));
      [reflexivity | vm_compute; reflexivity | reflexivity | discriminate].
  - set (L := Container.layer Container.Skipping).
    set (src := Container.open_file Examples.misplaced_3).
    pose (out := Examples.output_before_gcode ++
                 lit "G1 X0" ++ nl ++ lit "; comment" ++ nl ++
                 lit "G1 X1" ++ nl).
    rewrite (proj1 (proj2 (proj2 (wrong_block_type_stops L true 5 src
                                    Container.empty_out)))
               105%Z tt (Container.seek src 24)
               (grow Container.empty_out producer_unknown_line)
               (Container.seek src 49)
               (grow Container.empty_out
                  (producer_unknown_line ++ lit "; Printer = X1" ++ nl))
               (Build_State L (Container.seek src 57)
                  (grow Container.empty_out
                     (producer_unknown_line ++ lit "; Printer = X1" ++ nl))
                  (Container.header_of Examples.slicer_meta) 49%Z)
               (Build_State L (Container.seek src 105)
                  (grow Container.empty_out out)
                  (Container.header_of Examples.gcode) 49%Z)
               (Container.header_of Examples.slicer_meta)
               (Container.seek src 57));
      [reflexivity | vm_compute; reflexivity .. | discriminate].
  - set (L := Container.layer Container.Skipping).
    set (src := Container.open_file Examples.misplaced_4).
    pose (out := Examples.output_before_gcode ++
                 lit "G1 X0" ++ nl ++ lit "; comment" ++ nl ++
                 lit "G1 X1" ++ nl).
    rewrite (proj2 (proj2 (proj2 (wrong_block_type_stops L true 5 src
                                    Container.empty_out)))
               129%Z tt (Container.seek src 24)
               (grow Container.empty_out producer_unknown_line)
               (Container.seek src 49)
               (grow Container.empty_out
                  (producer_unknown_line ++ lit "; Printer = X1" ++ nl))
               (Build_State L (Container.seek src 57)
                  (grow Container.empty_out
                     (producer_unknown_line ++ lit "; Printer = X1" ++ nl))
                  (Container.header_of Examples.print_meta) 49%Z)
               (Build_State L (Container.seek src 129)
                  (grow Container.empty_out out)
                  (Container.header_of Examples.gcode) 49%Z)
               (Build_State L (Container.seek src 73)
                  (grow Container.empty_out
                     (out ++ nl ++ lit "; Layers = 10" ++ nl))
                  (Container.header_of Examples.print_meta) 49%Z)
               (Container.header_of Examples.printer_meta)
               (Container.seek src 81));
      [reflexivity | vm_compute; reflexivity .. | discriminate].
Defined.

(** C4.  When the thumbnail loop is left, [restore_position] is the
    offset of the source just before the read of the header that ended
    the loop; the G-code stretch leaves it as it is; and line 210 seeks
    the source to that very offset before the print-metadata header is
    read. *)
Theorem restore_position_kept (L : BlockAccessLayer) (vc : bool)
    (fh : FileHeader L) (fs : Z) (fuel : nat) (src : Src L) (dst : OutFile)
    (st1 st2 : State L) :
  convert_thumbnails L vc fh fuel src dst = Next st1 ->
  convert_gcode L vc fh fs fuel st1 = Next st2 ->
  exists s_before,
    read_next_block_header L s_before fh vc
      = (Success, block_header st1, src_file st1) /\
    header_type L (block_header st1) <> Thumbnail /\
    restore_position st1 = ftell L s_before /\
    restore_position st2 = ftell L s_before /\
    convert_print_metadata L vc fh st2
      = read_print_metadata_block L vc fh
          (with_src st2 (fseek_set L (src_file st2) (ftell L s_before))).
Proof.
  intros H1 H2.
  destruct (convert_thumbnails_restore L vc fh fuel src dst st1 H1)
    as (Hexit & s_before & Hrp & Hh).
  pose proof (convert_gcode_restore L vc fh fs fuel st1 st2 H2) as Hkeep.
  exists s_before. repeat split; try assumption.
  - congruence.
  - unfold convert_print_metadata. rewrite Hkeep, Hrp. reflexivity.
Qed.

(** The theorem on the container with one thumbnail: the offset is 67,
    where the print-metadata block starts. *)
Lemma restore_position_kept_witness :
  let L := Container.layer Container.Skipping in
  let src := Container.open_file Examples.with_thumbnail in
  exists st1 st2 s_before,
    convert_thumbnails L true tt 5 (Container.seek src 49)
      (grow Container.empty_out Examples.output_before_gcode) = Next st1 /\
    convert_gcode L true tt 161%Z 5 st1 = Next st2 /\
    ftell L s_before = 67%Z /\
    read_next_block_header L s_before tt true
      = (Success, block_header st1, src_file st1) /\
    header_type L (block_header st1) <> Thumbnail /\
    restore_position st1 = ftell L s_before /\
    restore_position st2 = ftell L s_before /\
    convert_print_metadata L true tt st2
      = read_print_metadata_block L true tt
          (with_src st2 (fseek_set L (src_file st2) (ftell L s_before))).
Proof.
  intros L src.
  destruct (convert_thumbnails L true tt 5 (Container.seek src 49)
              (grow Container.empty_out Examples.output_before_gcode))
    as [st1| |] eqn:H1; try (vm_compute in H1; discriminate).
  destruct (convert_gcode L true tt 161%Z 5 st1)
    as [st2| |] eqn:H2;
    try (vm_compute in H1; injection H1 as <-; vm_compute in H2; discriminate).
  destruct (restore_position_kept L true tt 161%Z 5 _ _ st1 st2 H1 H2)
    as (s_before & Hh & Hexit & Hrp1 & Hrp2 & Hseek).
  exists st1, st2, s_before. repeat split; try assumption.
  rewrite <- Hrp1. vm_compute in H1. injection H1 as <-. reflexivity.
Defined.

(** A G-code payload made of lines closed by newlines is normalised
    to the lines whose trimmed and uncommented form is not empty, each
    copied as it stands and closed by a newline; this is the text that
    the G-code loop writes for the blocks it converts.  Lines of blanks,
    a lone comment marker, and a comment marker followed by blanks are
    dropped; a command followed by a comment is kept. *)
Theorem gcode_lines_kept :
  (forall lines, Forall no_newline lines ->
     remove_empty_lines (unlines lines) = Some (unlines (filter kept lines))) /\
  (forall (L : BlockAccessLayer) vc fh fs s h blocks s' h' fuel dst rp,
     Forall (Forall no_newline) blocks ->
     gcode_read L vc fh fs s h (map unlines blocks) s' h' ->
     healthy dst -> length blocks <= fuel ->
     gcode_loop L vc fh fs fuel
       {| src_file := s; dst_file := dst; block_header := h;
          restore_position := rp |}
     = Next {| src_file := s';
               dst_file := grow dst
                 (concat (map (fun ls => unlines (filter kept ls)) blocks));
               block_header := h'; restore_position := rp |}) /\
  kept (lit "   ") = false /\
  kept (lit ";") = false /\
  kept (lit ";   ") = false /\
  kept (lit "G1 X1 ; move") = true.
Proof.
  split; [exact remove_empty_lines_unlines|].
  split; [|repeat split; reflexivity].
  intros L vc fh fs s h blocks s' h' fuel dst rp Hno Hread Hd Hfuel.
  apply gcode_loop_reads with (raws := map unlines blocks); try assumption.
  - unfold normalised. clear Hread Hfuel.
    induction Hno as [|ls blocks Hls _ IH]; cbn [map]; constructor.
    + apply remove_empty_lines_unlines. exact Hls.
    + exact IH.
  - rewrite length_map. exact Hfuel.
Qed.

(** The theorem on the lines of the example. *)
Lemma gcode_lines_kept_witness :
  remove_empty_lines Examples.gcode_text
  = Some (lit "G1 X0" ++ nl ++ lit "; comment" ++ nl ++ lit "G1 X1" ++ nl).
Proof.
  refine (proj1 gcode_lines_kept Examples.gcode_lines _).
  repeat (apply Forall_cons; [unfold no_newline; simpl; intuition discriminate|]).
  apply Forall_nil.
Defined.

(** C2.  The claim fails on a G-code block whose last line is not closed
    by a newline, here "G1 X0", newline, "G1 X1".  On the last line the
    inner loop stops at [data.end()] (index 11); the line is taken and
    appended to [ret] with a newline, as the claim has it; then
    [begin_it = ++end_it] steps beyond [data.end()], and neither
    [remove_empty_lines] nor the run has a defined result. *)
Theorem gcode_last_line_out_of_range :
  let data := lit "G1 X0" ++ nl ++ lit "G1 X1" in
  find_line_end data 6 = Some (length data) /\
  take_line data 6 (length data) (lit "G1 X0" ++ nl)
    = Some (lit "G1 X0" ++ nl ++ lit "G1 X1" ++ nl) /\
  remove_empty_lines data = None /\
  from_binary_to_ascii (Container.layer Container.Skipping) true 5
    (Container.open_file MoreExamples.open_ended) Container.empty_out
    = Stuck OutOfRange.
Proof.
  intros data. split; [|split; [|split]]; vm_compute; reflexivity.
Qed.

(** C6.  In a run that succeeds on a container with [k >= 1] thumbnails,
    the output holds, between the printer-metadata lines and the gap line
    that precedes the G-code text, one framing per thumbnail and nothing
    else; in each framing the number on the begin line is the number of
    characters of the body rows taken together, and these rows are the
    base-64 encoding of the image. *)
Theorem thumbnails_framed (L : BlockAccessLayer) (vc : bool)
    (src src' : Src L) (fm pm : metadata) (ts : list ThumbnailBlock)
    (raws outs : list text) (prm sm : metadata) (fuel : nat) (dst : OutFile)
    (k : nat) :
  1 <= k -> length ts = k ->
  delivers L vc src fm pm ts raws prm sm src' ->
  normalised raws outs ->
  healthy dst ->
  length ts <= fuel -> length raws <= fuel ->
  exists framings dst',
    from_binary_to_ascii L vc fuel src dst = Return Success src' dst' /\
    contents dst'
    = contents dst ++
      (producer_line fm ++ metadata_lines pm) ++
      concat framings ++
      (nl ++ concat outs) ++
      (nl ++ metadata_lines prm ++
       nl ++ lit "; prusaslicer_config = begin" ++ nl ++ metadata_lines sm ++
       lit "; prusaslicer_config = end" ++ nl ++ nl) /\
    length framings = k /\
    Forall2 (fun t framing =>
      exists rows,
        framing = framing_of (label_of (format t)) (width t) (height t) rows /\
        concat rows = Base64.encode (data t)) ts framings.
Proof.
  intros Hk Hlen Hdel Hnorm Hd Hf1 Hf2.
  exists (map framing ts), (grow dst (render fm pm ts outs prm sm)).
  split; [apply from_binary_to_ascii_delivers with (raws := raws); assumption|].
  split; [cbn [contents grow]; unfold render; rewrite <- !app_assoc;
          reflexivity|].
  split; [rewrite length_map; exact Hlen|].
  clear. induction ts as [|t ts IH]; cbn [map]; constructor; [|exact IH].
  exists (rows_of (Base64.encode (data t))). split; [reflexivity|].
  apply rows_of_concat.
Qed.

(** The run of the container with one thumbnail and two G-code blocks,
    call by call. *)
Lemma with_thumbnail_delivers :
  delivers (Container.layer Container.Skipping) true
    (Container.open_file Examples.with_thumbnail)
    [] [(lit "Printer", lit "X1")] [Examples.picture]
    [Examples.gcode_text; lit "G1 X2" ++ nl]
    [(lit "Layers", lit "10")] [(lit "nozzle", lit "0.4")]
    (Container.seek (Container.open_file Examples.with_thumbnail) 116).
Proof.
  set (src := Container.open_file Examples.with_thumbnail).
  set (last := Container.gcode_block (lit "G1 X2" ++ nl)).
  unfold delivers.
  exists src, tt, (Container.seek src 10),
    (Container.header_of Examples.file_meta),
    (Container.seek src 18), (Container.seek src 24),
    (Container.header_of Examples.printer_meta),
    (Container.seek src 32), (Container.seek src 49),
    (Container.header_of (Container.thumbnail_block Examples.picture)),
    (Container.seek src 57), (Container.seek src 75),
    (Container.header_of Examples.print_meta), 67%Z,
    (Container.seek src 91), (Container.header_of Examples.gcode),
    (Container.seek src 124), (Container.seek src 161),
    (Container.header_of last),
    (Container.header_of Examples.print_meta),
    (Container.seek src 75), (Container.seek src 91),
    (Container.header_of Examples.slicer_meta), (Container.seek src 99).
  repeat match goal with |- _ /\ _ => split end;
    try (vm_compute; reflexivity).
  - apply thumbnails_more
      with (s1 := Container.seek src 67)
           (h1 := Container.header_of Examples.print_meta)
           (s2 := Container.seek src 75);
      try (vm_compute; reflexivity).
    apply thumbnails_none. discriminate.
  - apply gcode_more
      with (s1 := Container.seek src 147) (h1 := Container.header_of last)
           (s2 := Container.seek src 155);
      try (vm_compute; reflexivity); try discriminate.
    apply gcode_last; vm_compute; reflexivity.
Qed.

(** The theorem on that container. *)
Lemma thumbnails_framed_witness :
  exists framings dst',
    from_binary_to_ascii (Container.layer Container.Skipping) true 5
      (Container.open_file Examples.with_thumbnail) Container.empty_out
    = Return Success
        (Container.seek (Container.open_file Examples.with_thumbnail) 116)
        dst' /\
    contents dst'
    = contents Container.empty_out ++
      (producer_line [] ++ metadata_lines [(lit "Printer", lit "X1")]) ++
      concat framings ++
      (nl ++ concat [lit "G1 X0" ++ nl ++ lit "; comment" ++ nl ++
                     lit "G1 X1" ++ nl; lit "G1 X2" ++ nl]) ++
      (nl ++ metadata_lines [(lit "Layers", lit "10")] ++
       nl ++ lit "; prusaslicer_config = begin" ++ nl ++
       metadata_lines [(lit "nozzle", lit "0.4")] ++
       lit "; prusaslicer_config = end" ++ nl ++ nl) /\
    length framings = 1 /\
    Forall2 (fun t framing =>
      exists rows,
        framing = framing_of (label_of (format t)) (width t) (height t) rows /\
        concat rows = Base64.encode (data t)) [Examples.picture] framings.
Proof.
  apply (thumbnails_framed (Container.layer Container.Skipping) true
           (Container.open_file Examples.with_thumbnail) _
           [] [(lit "Printer", lit "X1")] [Examples.picture]
           [Examples.gcode_text; lit "G1 X2" ++ nl] _
           [(lit "Layers", lit "10")] [(lit "nozzle", lit "0.4")]
           5 Container.empty_out 1).
  - apply le_n.
  - reflexivity.
  - exact with_thumbnail_delivers.
  - repeat constructor.
  - split; reflexivity.
  - simpl. lia.
  - simpl. lia.
Defined.

(** The run of the example container, call by call. *)
Lemma stored_delivers :
  delivers (Container.layer Container.Skipping) true
    (Container.open_file Examples.stored)
    [] [(lit "Printer", lit "X1")] [] [Examples.gcode_text]
    [(lit "Layers", lit "10")] [(lit "nozzle", lit "0.4")]
    (Container.seek (Container.open_file Examples.stored) 98).
Proof.
  set (src := Container.open_file Examples.stored).
  unfold delivers.
  exists src, tt, (Container.seek src 10),
    (Container.header_of Examples.file_meta),
    (Container.seek src 18), (Container.seek src 24),
    (Container.header_of Examples.printer_meta),
    (Container.seek src 32), (Container.seek src 49),
    (Container.header_of Examples.print_meta),
    (Container.seek src 57), (Container.seek src 57),
    (Container.header_of Examples.print_meta), 49%Z,
    (Container.seek src 73), (Container.header_of Examples.gcode),
    (Container.seek src 106), (Container.seek src 129),
    (Container.header_of Examples.gcode),
    (Container.header_of Examples.print_meta),
    (Container.seek src 57), (Container.seek src 73),
    (Container.header_of Examples.slicer_meta), (Container.seek src 81).
  repeat match goal with |- _ /\ _ => split end;
    try (vm_compute; reflexivity).
  - apply thumbnails_none. discriminate.
  - apply gcode_last; vm_compute; reflexivity.
Qed.

(** C1, as amended.  For a container without thumbnails whose file
    metadata names no producer, whose printer metadata is ("Printer","X1"),
    whose only G-code block holds the lines "G1 X0", "; comment", "" and
    "G1 X1", and whose print and slicer metadata are ("Layers","10") and
    ("nozzle","0.4"), a run whose calls all succeed writes the producer
    line for "Unknown", the printer line, a gap line, the three lines
    "G1 X0", "; comment" and "G1 X1", a blank line, the print-metadata
    line and the framed slicer-metadata line. *)
Theorem example_conversion (L : BlockAccessLayer) (vc : bool)
    (src src' : Src L) (fm : metadata) (fuel : nat) (dst : OutFile) :
  no_producer fm ->
  delivers L vc src fm [(lit "Printer", lit "X1")] [] [Examples.gcode_text]
    [(lit "Layers", lit "10")] [(lit "nozzle", lit "0.4")] src' ->
  healthy dst ->
  1 <= fuel ->
  from_binary_to_ascii L vc fuel src dst
  = Return Success src' (grow dst Examples.actual_output).
Proof.
  intros Hno Hdel Hd Hfuel.
  rewrite (from_binary_to_ascii_delivers L vc src src' fm
             [(lit "Printer", lit "X1")] [] [Examples.gcode_text]
             [lit "G1 X0" ++ nl ++ lit "; comment" ++ nl ++ lit "G1 X1" ++ nl]
             [(lit "Layers", lit "10")] [(lit "nozzle", lit "0.4")]
             fuel dst Hdel).
  - unfold render, producer_line. rewrite (producer_of_absent fm Hno).
    reflexivity.
  - repeat constructor.
  - exact Hd.
  - simpl. lia.
  - exact Hfuel.
Qed.

(** The theorem on the example container. *)
Lemma example_conversion_witness :
  from_binary_to_ascii (Container.layer Container.Skipping) true 5
    (Container.open_file Examples.stored) Container.empty_out
  = Return Success (Container.seek (Container.open_file Examples.stored) 98)
      (grow Container.empty_out Examples.actual_output).
Proof.
  apply (example_conversion (Container.layer Container.Skipping) true
           (Container.open_file Examples.stored) _ [] 5 Container.empty_out).
  - intros item [].
  - exact stored_delivers.
  - split; reflexivity.
  - simpl. lia.
Defined.

(** C1 as stated does not hold: on the example the converter keeps the
    line "; comment" and writes a single blank line after the G-code
    text, whether the typed read searches or not and whether the blocks
    are stored in the listed order or with the metadata first; in no case
    is the stated output the result of a successful run. *)
Lemma example_stated_output_refuted :
  Container.run Container.Skipping 5 Examples.stored
    = Some (Success, Examples.actual_output) /\
  Examples.actual_output <> Examples.stated_output /\
  Container.run Container.Strict 5 Examples.stored
    = Some (InvalidSequenceOfBlocks, Examples.output_before_gcode) /\
  Container.run Container.Skipping 5 Examples.listed
    = Some (ReadError, Examples.output_before_gcode) /\
  Container.run Container.Strict 5 Examples.listed
    = Some (InvalidSequenceOfBlocks, Examples.output_before_gcode).
Proof.
  split; [reflexivity|].
  split; [|split; [|split]]; try reflexivity.
  intros H. apply (f_equal (fun t => nth_error t 47)) in H.
  vm_compute in H. discriminate.
Qed.

(** ** Two containers that differ in the payload of one block *)

Module SwapFacts.
Import Container.

Lemma blocks_size_app (l1 l2 : list Block) :
  blocks_size (l1 ++ l2) = blocks_size l1 + blocks_size l2.
Proof.
  induction l1 as [|a l1 IH]; cbn [app blocks_size];
    [reflexivity | rewrite IH; lia].
Qed.

Lemma block_size_pos (b : Block) : 0 < block_size b.
Proof. unfold block_size, block_header_size. lia. Qed.

Lemma block_size_same (b1 b2 : Block) :
  payload_size b1 = payload_size b2 -> block_size b1 = block_size b2.
Proof. unfold block_size. intros ->. reflexivity. Qed.

(** Away from the block that differs, the two containers hold the same
    block at the same offset. *)
Lemma block_at_away (pre post : list Block) (b1 b2 : Block) (off : nat) :
  payload_size b1 = payload_size b2 ->
  off <> blocks_size pre ->
  block_at (pre ++ b1 :: post) off = block_at (pre ++ b2 :: post) off.
Proof.
  intros Hsz. revert off. induction pre as [|a l IH]; intros off Hoff.
  - cbn [blocks_size app block_at] in *.
    destruct (Nat.eqb_spec off 0); [contradiction|].
    rewrite (block_size_same b1 b2 Hsz). reflexivity.
  - cbn [blocks_size app block_at] in *. pose proof (block_size_pos a).
    destruct (off =? 0); [reflexivity|].
    destruct (Nat.ltb_spec off (block_size a)); [reflexivity|].
    apply IH. lia.
Qed.

Lemma block_at_differing (pre post : list Block) (b : Block) :
  block_at (pre ++ b :: post) (blocks_size pre) = Some b.
Proof.
  induction pre as [|a l IH]; [reflexivity|].
  cbn [blocks_size app block_at]. pose proof (block_size_pos a).
  destruct (Nat.eqb_spec (block_size a + blocks_size l) 0); [lia|].
  destruct (Nat.ltb_spec (block_size a + blocks_size l) (block_size a));
    [lia|].
  replace (block_size a + blocks_size l - block_size a)
    with (blocks_size l) by lia.
  exact IH.
Qed.

(** At every offset the two containers hold blocks with the same header,
    or both hold none. *)
Lemma block_at_header (pre post : list Block) (b1 b2 : Block) (off : nat) :
  block_type b1 = block_type b2 ->
  payload_size b1 = payload_size b2 ->
  option_map header_of (block_at (pre ++ b1 :: post) off)
  = option_map header_of (block_at (pre ++ b2 :: post) off).
Proof.
  intros Hty Hsz. destruct (Nat.eq_dec off (blocks_size pre)) as [->|Hne].
  - rewrite !block_at_differing. cbn [option_map]. unfold header_of.
    rewrite Hty, Hsz. reflexivity.
  - rewrite (block_at_away pre post b1 b2 off Hsz Hne). reflexivity.
Qed.

(** *** What the calls do to the stream *)

Lemma advances_refl (f : File) : advances f f.
Proof. repeat split. apply le_n. Qed.

Lemma advances_trans (f g h : File) :
  advances f g -> advances g h -> advances f h.
Proof.
  intros (B1 & W1 & P1) (B2 & W2 & P2). repeat split; try congruence. lia.
Qed.

Lemma advances_seek (f : File) (p : nat) :
  position f <= p -> advances f (seek f p).
Proof. intros H. repeat split. exact H. Qed.

Lemma read_block_header_advances f u v res h f' :
  read_block_header f u v = (res, h, f') ->
  advances f f' /\
  (res = Success -> position f' = position f + block_header_size).
Proof.
  unfold read_block_header. intros H.
  destruct (position f <? file_header_size).
  - injection H as <- _ <-. split; [apply advances_refl | discriminate].
  - destruct (block_at _ _).
    + injection H as <- _ <-. split; [apply advances_seek; lia | reflexivity].
    + injection H as <- _ <-. split; [apply advances_refl | discriminate].
Qed.

Lemma skip_content_advances f u h res f' :
  skip_content f u h = (res, f') -> advances f f'.
Proof.
  unfold skip_content. intros H. destruct (_ <=? _).
  - injection H as _ <-. apply advances_seek. lia.
  - injection H as _ <-. apply advances_refl.
Qed.

Lemma read_payload_advances {A : Type} (pick : Payload -> option A) dflt
    f u h res a f' :
  read_payload pick dflt f u h = (res, a, f') -> advances f f'.
Proof.
  unfold read_payload. intros H. destruct (payload_here f) as [b|].
  - destruct (pick (payload b)).
    + injection H as _ _ <-. apply advances_seek. lia.
    + injection H as _ _ <-. apply advances_refl.
  - injection H as _ _ <-. apply advances_refl.
Qed.

Lemma search_header_advances n f ty res h f' :
  search_header n f ty = (res, h, f') ->
  advances f f' /\ (res = Success -> position f < position f').
Proof.
  revert f. induction n as [|n IH]; intros f H; cbn [search_header] in H.
  - destruct (read_block_header f tt true) as [[r0 h0] f0] eqn:E.
    apply read_block_header_advances in E. destruct E as (Ea & Ep).
    destruct r0; try (injection H as <- _ <-; split; [exact Ea|discriminate]).
    destruct (block_type_eqb (type h0) ty).
    + injection H as <- _ <-. split; [exact Ea|]. intros _.
      rewrite Ep by reflexivity. unfold block_header_size. lia.
    + injection H as <- _ <-. split; [exact Ea | discriminate].
  - destruct (read_block_header f tt true) as [[r0 h0] f0] eqn:E.
    apply read_block_header_advances in E. destruct E as (Ea & Ep).
    destruct r0; try (injection H as <- _ <-; split; [exact Ea|discriminate]).
    destruct (block_type_eqb (type h0) ty).
    + injection H as <- _ <-. split; [exact Ea|]. intros _.
      rewrite Ep by reflexivity. unfold block_header_size. lia.
    + destruct (skip_content f0 tt h0) as [r1 f1] eqn:E1.
      apply skip_content_advances in E1.
      destruct r1;
        try (injection H as <- _ <-; split;
             [eapply advances_trans; eassumption | discriminate]).
      apply IH in H. destruct H as (Ha & Hp). split.
      * eapply advances_trans; [exact Ea|].
        eapply advances_trans; [exact E1 | exact Ha].
      * intros Hs. specialize (Hp Hs).
        destruct Ea as (_ & _ & Ea). destruct E1 as (_ & _ & E1). lia.
Qed.

Lemma read_block_header_of_advances mode f u ty v res h f' :
  read_block_header_of mode f u ty v = (res, h, f') ->
  advances f f' /\ (res = Success -> position f < position f').
Proof.
  destruct mode; cbn [read_block_header_of].
  - intros H. destruct (read_block_header f u v) as [[r0 h0] f0] eqn:E.
    apply read_block_header_advances in E. destruct E as (Ea & Ep).
    destruct r0; try (injection H as <- _ <-; split; [exact Ea|discriminate]).
    destruct (block_type_eqb (type h0) ty).
    + injection H as <- _ <-. split; [exact Ea|]. intros _.
      rewrite Ep by reflexivity. unfold block_header_size. lia.
    + injection H as <- _ <-. split; [exact Ea | discriminate].
  - apply search_header_advances.
Qed.

(** *** Where the stretches leave the stream *)

(** Exposes the calls of the container behind those of the layer. *)
Ltac expose :=
  cbn [layer Src FileHeader BlockHeader header_type ftell fseek_set fseek_end
       rewind is_valid_binary_gcode read_header read_next_block_header
       read_next_block_header_of skip_block_content read_file_metadata
       read_printer_metadata read_print_metadata read_slicer_metadata
       read_thumbnail read_gcode
       src_file dst_file block_header restore_position
       with_blocks_state with_blocks_outcome].

Ltac expose_in H :=
  cbn [layer Src FileHeader BlockHeader header_type ftell fseek_set fseek_end
       rewind is_valid_binary_gcode read_header read_next_block_header
       read_next_block_header_of skip_block_content read_file_metadata
       read_printer_metadata read_print_metadata read_slicer_metadata
       read_thumbnail read_gcode
       src_file dst_file block_header restore_position
       with_blocks_state with_blocks_outcome] in H.

Section Positions.

Variable mode : TypedRead.

Local Abbreviation L := (layer mode).

Lemma thumbnails_loop_bound (vc : bool) (fh : unit) (fuel : nat)
    (st st' : State L) :
  thumbnails_loop L vc fh fuel st = Next st' ->
  blocks (src_file st') = blocks (src_file st) /\
  (st' = st \/
   (Z.of_nat (position (src_file st)) <= restore_position st')%Z).
Proof.
  revert st. induction fuel as [|fuel IH]; intros st H.
  - cbn [thumbnails_loop] in H. destruct (negb _); [|discriminate].
    injection H as <-. split; [reflexivity | left; reflexivity].
  - cbn [thumbnails_loop] in H. expose_in H.
    destruct (negb (block_type_eqb (type (block_header st)) Thumbnail)).
    { injection H as <-. split; [reflexivity | left; reflexivity]. }
    destruct (read_payload pick_thumbnail no_thumbnail (src_file st) fh
                (block_header st)) as [[r t] f1] eqn:E.
    apply read_payload_advances in E. destruct E as (Eb & _ & Ep).
    repeat (crack H; try discriminate).
    match goal with
    | Hc : read_block_header f1 fh vc = (_, _, ?f2) |- _ =>
        apply read_block_header_advances in Hc;
        destruct Hc as ((E2b & _ & E2p) & _)
    end.
    apply IH in H. cbn [src_file restore_position] in H.
    destruct H as (Hb' & Hcase). split; [congruence|]. right.
    destruct Hcase as [-> | Hle]; cbn [restore_position]; unfold tell; lia.
Qed.

Lemma convert_thumbnails_bound (vc : bool) (fh : unit) (fuel : nat)
    (s0 : File) (d0 : OutFile) (st' : State L) :
  convert_thumbnails L vc fh fuel s0 d0 = Next st' ->
  blocks (src_file st') = blocks s0 /\
  (tell s0 <= restore_position st')%Z.
Proof.
  unfold convert_thumbnails. expose. intros H.
  destruct (read_block_header s0 fh vc) as [[r h] f1] eqn:E.
  apply read_block_header_advances in E. destruct E as ((Eb & _ & Ep) & _).
  destruct (is_success r); cbn [negb] in H; [|discriminate].
  apply thumbnails_loop_bound in H. cbn [src_file restore_position] in H.
  destruct H as (Hb & Hcase). split; [congruence|].
  destruct Hcase as [-> | Hle]; cbn [restore_position]; unfold tell in *; lia.
Qed.

Lemma convert_printer_metadata_position (vc : bool) (fh : unit)
    (s : File) (d : OutFile) (s0 : File) (d0 : OutFile) :
  convert_printer_metadata L vc fh s d = Next (s0, d0) ->
  blocks s0 = blocks s /\ position s + block_header_size <= position s0.
Proof.
  unfold convert_printer_metadata. expose. intros H.
  destruct (read_block_header s fh vc) as [[r h] f1] eqn:E.
  apply read_block_header_advances in E. destruct E as ((Eb & _ & _) & Ep).
  destruct r; cbn [is_success negb] in H; try discriminate.
  specialize (Ep eq_refl).
  destruct (negb (block_type_eqb (type h) PrinterMetadata)); [discriminate|].
  destruct (read_payload pick_metadata [] f1 fh h) as [[r2 md] f2] eqn:E2.
  apply read_payload_advances in E2. destruct E2 as (E2b & _ & E2p).
  repeat (crack H; try discriminate).
  injection H as <- _. split; [congruence | lia].
Qed.

Lemma read_file_header_position (f f' : File) u :
  read_file_header f = (Success, u, f') ->
  blocks f' = blocks f /\ position f' = file_header_size.
Proof.
  unfold read_file_header. destruct (position f =? 0); [|discriminate].
  intros H. injection H as _ <-. split; reflexivity.
Qed.

Lemma validate_same (f f' : File) res :
  validate f = (res, f') -> f' = f.
Proof.
  unfold validate. destruct (well_formed f); intros H; injection H as _ <-;
    reflexivity.
Qed.

Lemma convert_file_metadata_position (vc : bool) (f : File) (dst : OutFile)
    fs fh (s : File) (d : OutFile) :
  convert_file_metadata L vc f dst = Next (fs, fh, s, d) ->
  blocks s = blocks f /\
  file_header_size + block_header_size <= position s.
Proof.
  unfold convert_file_metadata. expose. intros H.
  destruct (validate f) as [r0 f0] eqn:E0. apply validate_same in E0. subst f0.
  destruct (is_success r0); cbn [negb] in H; [|discriminate].
  destruct (read_file_header _) as [[r1 u] f1] eqn:E1.
  destruct r1; cbn [is_success negb] in H; try discriminate.
  apply read_file_header_position in E1. destruct E1 as (E1b & E1p).
  cbn [blocks seek] in E1b.
  destruct (read_block_header f1 u vc) as [[r2 h] f2] eqn:E2.
  apply read_block_header_advances in E2. destruct E2 as ((E2b & _ & _) & E2p).
  destruct r2; cbn [is_success negb] in H; try discriminate.
  specialize (E2p eq_refl).
  destruct (negb (block_type_eqb (type h) FileMetadata)); [discriminate|].
  destruct (read_payload pick_metadata [] f2 u h) as [[r3 md] f3] eqn:E3.
  apply read_payload_advances in E3. destruct E3 as (E3b & _ & E3p).
  repeat (crack H; try discriminate).
  injection H as _ _ <- _. split; [congruence | lia].
Qed.

Lemma gcode_loop_blocks (vc : bool) (fh : unit) (fs : Z) (fuel : nat)
    (st st' : State L) :
  gcode_loop L vc fh fs fuel st = Next st' ->
  blocks (src_file st') = blocks (src_file st).
Proof.
  revert st. induction fuel as [|fuel IH]; intros st H.
  - cbn [gcode_loop] in H. destruct (negb _); [|discriminate].
    injection H as <-. reflexivity.
  - cbn [gcode_loop] in H. expose_in H.
    destruct (negb (block_type_eqb (type (block_header st)) GCode)).
    { injection H as <-. reflexivity. }
    destruct (read_payload pick_gcode [] (src_file st) fh (block_header st))
      as [[r raw] f1] eqn:E.
    apply read_payload_advances in E. destruct E as (Eb & _ & _).
    destruct (is_success r); cbn [negb] in H; [|discriminate].
    destruct (remove_empty_lines raw) as [out|]; [|discriminate].
    destruct (match out with [] => _ | _ :: _ => _ end) as [ok d1].
    destruct ok; cbn [negb] in H; [|discriminate].
    destruct (tell f1 =? fs)%Z.
    { injection H as <-. exact Eb. }
    destruct (read_block_header f1 fh vc) as [[r2 h2] f2] eqn:E2.
    apply read_block_header_advances in E2. destruct E2 as ((E2b & _ & _) & _).
    destruct (is_success r2); cbn [negb] in H; [|discriminate].
    apply IH in H. cbn [src_file] in H. congruence.
Qed.

Lemma convert_gcode_blocks (vc : bool) (fh : unit) (fs : Z) (fuel : nat)
    (st st' : State L) :
  convert_gcode L vc fh fs fuel st = Next st' ->
  blocks (src_file st') = blocks (src_file st).
Proof.
  unfold convert_gcode. expose. intros H.
  destruct (write_line nl (dst_file st)) as [ok d1].
  destruct ok; cbn [negb] in H; [|discriminate].
  destruct (skip_content (src_file st) fh (block_header st)) as [r f1] eqn:E.
  apply skip_content_advances in E. destruct E as (Eb & _ & _).
  destruct (is_success r); cbn [negb] in H; [|discriminate].
  destruct (read_block_header_of mode f1 fh GCode vc) as [[r2 h2] f2] eqn:E2.
  apply read_block_header_of_advances in E2. destruct E2 as ((E2b & _ & _) & _).
  destruct (is_success r2); cbn [negb] in H; [|discriminate].
  apply gcode_loop_blocks in H. cbn [src_file] in H. congruence.
Qed.

(** Back at a block that is not a print-metadata block, the run stops. *)
Lemma print_metadata_refused (pre post : list Block) (vc : bool) (fh : unit)
    (b : Block) (st : State L) :
  blocks (src_file st) = pre ++ b :: post ->
  block_type b <> PrintMetadata ->
  restore_position st = Z.of_nat (offset_after pre) ->
  exists s,
    convert_print_metadata L vc fh st
    = Return InvalidSequenceOfBlocks s (dst_file st).
Proof.
  intros Hb Hty Hrp.
  unfold convert_print_metadata, read_print_metadata_block. expose.
  rewrite Hrp. unfold seek_set.
  destruct (Z.ltb_spec (Z.of_nat (offset_after pre)) 0) as [Hneg|_]; [lia|].
  rewrite Nat2Z.id. unfold read_block_header.
  cbn [position blocks seek with_src src_file]. rewrite Hb.
  unfold offset_after.
  destruct (Nat.ltb_spec (file_header_size + blocks_size pre) file_header_size)
    as [Hlt|_]; [lia|].
  replace (file_header_size + blocks_size pre - file_header_size)
    with (blocks_size pre) by lia.
  rewrite block_at_differing. cbn [is_success negb header_of type].
  rewrite (block_type_eqb_neq _ _ Hty). cbn [negb].
  eexists. reflexivity.
Qed.

End Positions.

(** *** The same calls on the other container *)

Section Swap.

Variable mode : TypedRead.
Variables pre post : list Block.
Variables b1 b2 : Block.
Hypothesis same_type : block_type b1 = block_type b2.
Hypothesis same_size : payload_size b1 = payload_size b2.

Local Abbreviation bs1 := (pre ++ b1 :: post).
Local Abbreviation bs2 := (pre ++ b2 :: post).
Local Abbreviation swap := (with_blocks bs2).
Local Abbreviation payload_offset := (offset_after pre + block_header_size).
Local Abbreviation L := (layer mode).

Lemma swap_total_size (f : File) :
  blocks f = bs1 -> total_size (swap f) = total_size f.
Proof.
  intros Hb. unfold total_size. cbn [blocks with_blocks]. rewrite Hb.
  rewrite !blocks_size_app. cbn [blocks_size].
  rewrite (block_size_same b1 b2 same_size). reflexivity.
Qed.

Lemma swap_validate (f : File) :
  validate (swap f) = (let '(res, f') := validate f in (res, swap f')).
Proof. unfold validate. cbn [well_formed with_blocks]. destruct (well_formed f); reflexivity. Qed.

Lemma swap_read_file_header (f : File) :
  read_file_header (swap f)
  = (let '(res, u, f') := read_file_header f in (res, u, swap f')).
Proof.
  unfold read_file_header. cbn [position with_blocks].
  destruct (position f =? 0); reflexivity.
Qed.

Lemma swap_read_block_header (f : File) u v :
  blocks f = bs1 ->
  read_block_header (swap f) u v
  = (let '(res, h, f') := read_block_header f u v in (res, h, swap f')).
Proof.
  intros Hb. unfold read_block_header. cbn [position blocks with_blocks].
  rewrite Hb. destruct (position f <? file_header_size); [reflexivity|].
  pose proof (block_at_header pre post b1 b2 (position f - file_header_size)
                same_type same_size) as Hh.
  destruct (block_at bs1 _) as [x|], (block_at bs2 _) as [y|];
    cbn [option_map] in Hh; try discriminate; [|reflexivity].
  assert (Hx : header_of x = header_of y) by congruence.
  rewrite Hx. reflexivity.
Qed.

Lemma swap_skip_content (f : File) u h :
  blocks f = bs1 ->
  skip_content (swap f) u h
  = (let '(res, f') := skip_content f u h in (res, swap f')).
Proof.
  intros Hb. unfold skip_content. rewrite (swap_total_size f Hb).
  cbn [position with_blocks]. destruct (_ <=? _); reflexivity.
Qed.

Lemma swap_read_payload {A : Type} (pick : Payload -> option A) dflt
    (f : File) u h :
  blocks f = bs1 ->
  position f <> payload_offset ->
  read_payload pick dflt (swap f) u h
  = (let '(res, a, f') := read_payload pick dflt f u h in (res, a, swap f')).
Proof.
  intros Hb Hpos. unfold read_payload, payload_here.
  cbn [position blocks with_blocks]. rewrite Hb.
  destruct (Nat.ltb_spec (position f) (file_header_size + block_header_size));
    [reflexivity|].
  rewrite (block_at_away pre post b1 b2
             (position f - file_header_size - block_header_size) same_size).
  - destruct (block_at bs2 _) as [b|]; [|reflexivity].
    destruct (pick (payload b)); reflexivity.
  - unfold offset_after in Hpos. lia.
Qed.

Lemma swap_search_header (n : nat) (f : File) ty :
  blocks f = bs1 ->
  search_header n (swap f) ty
  = (let '(res, h, f') := search_header n f ty in (res, h, swap f')).
Proof.
  revert f. induction n as [|n IH]; intros f Hb; cbn [search_header];
    rewrite (swap_read_block_header f tt true Hb);
    destruct (read_block_header f tt true) as [[r0 h0] f0] eqn:E;
    apply read_block_header_advances in E; destruct E as ((Eb & _) & _);
    destruct r0; try reflexivity;
    destruct (block_type_eqb (type h0) ty); try reflexivity.
  rewrite (swap_skip_content f0 tt h0) by congruence.
  destruct (skip_content f0 tt h0) as [r1 f1] eqn:E1.
  apply skip_content_advances in E1. destruct E1 as (E1 & _).
  destruct r1; try reflexivity.
  apply IH. congruence.
Qed.

Lemma swap_read_block_header_of (f : File) u ty v :
  blocks f = bs1 ->
  read_block_header_of mode (swap f) u ty v
  = (let '(res, h, f') := read_block_header_of mode f u ty v in
     (res, h, swap f')).
Proof.
  intros Hb. destruct mode; cbn [read_block_header_of].
  - rewrite (swap_read_block_header f u v Hb).
    destruct (read_block_header f u v) as [[r0 h0] f0].
    destruct r0; try reflexivity.
    destruct (block_type_eqb (type h0) ty); reflexivity.
  - cbn [blocks with_blocks]. rewrite Hb.
    replace (length bs2) with (length bs1)
      by (rewrite !length_app; reflexivity).
    apply swap_search_header. exact Hb.
Qed.

Local Abbreviation swap_state := (with_blocks_state mode bs2).
Local Abbreviation swap_outcome := (with_blocks_outcome mode bs2).

Lemma swap_gcode_loop (vc : bool) (fh : unit) (fs : Z) (fuel : nat)
    (st : State L) :
  blocks (src_file st) = bs1 ->
  payload_offset < position (src_file st) ->
  gcode_loop L vc fh fs fuel (swap_state st)
  = swap_outcome (gcode_loop L vc fh fs fuel st).
Proof.
  revert st. induction fuel as [|fuel IH]; intros st Hb Hpos.
  - cbn [gcode_loop]. expose. destruct (negb _); reflexivity.
  - cbn [gcode_loop]. expose.
    destruct (negb (block_type_eqb (type (block_header st)) GCode));
      [reflexivity|].
    rewrite (swap_read_payload pick_gcode [] (src_file st) fh
               (block_header st) Hb) by lia.
    destruct (read_payload pick_gcode [] (src_file st) fh (block_header st))
      as [[r raw] f1] eqn:E.
    apply read_payload_advances in E. destruct E as (Eb & _ & Ep).
    destruct (is_success r); cbn [negb]; [|reflexivity].
    destruct (remove_empty_lines raw) as [out|]; [|reflexivity].
    destruct (match out with [] => _ | _ :: _ => _ end) as [ok d1].
    destruct ok; cbn [negb]; [|reflexivity].
    change (tell (with_blocks bs2 f1)) with (tell f1).
    destruct (tell f1 =? fs)%Z; [reflexivity|].
    rewrite (swap_read_block_header f1 fh vc) by congruence.
    destruct (read_block_header f1 fh vc) as [[r2 h2] f2] eqn:E2.
    apply read_block_header_advances in E2. destruct E2 as ((E2b & _ & E2p) & _).
    destruct (is_success r2); cbn [negb]; [|reflexivity].
    apply (IH (Build_State L f2 d1 h2 (restore_position st))).
    + cbn [src_file]. congruence.
    + cbn [src_file]. lia.
Qed.

Lemma swap_convert_gcode (vc : bool) (fh : unit) (fs : Z) (fuel : nat)
    (st : State L) :
  blocks (src_file st) = bs1 ->
  payload_offset <= position (src_file st) ->
  convert_gcode L vc fh fs fuel (swap_state st)
  = swap_outcome (convert_gcode L vc fh fs fuel st).
Proof.
  intros Hb Hpos. unfold convert_gcode. expose.
  destruct (write_line nl (dst_file st)) as [ok d1].
  destruct ok; cbn [negb]; [|reflexivity].
  rewrite (swap_skip_content (src_file st) fh (block_header st) Hb).
  destruct (skip_content (src_file st) fh (block_header st)) as [r f1] eqn:E.
  apply skip_content_advances in E. destruct E as (Eb & _ & Ep).
  destruct (is_success r); cbn [negb]; [|reflexivity].
  rewrite (swap_read_block_header_of f1 fh GCode vc) by congruence.
  destruct (read_block_header_of mode f1 fh GCode vc) as [[r2 h2] f2] eqn:E2.
  apply read_block_header_of_advances in E2.
  destruct E2 as ((E2b & _ & _) & E2p).
  destruct r2; cbn [is_success negb]; try reflexivity.
  specialize (E2p eq_refl).
  apply (swap_gcode_loop vc fh fs fuel
           (Build_State L f2 d1 h2 (restore_position st))).
  - cbn [src_file]. congruence.
  - cbn [src_file]. lia.
Qed.

Lemma swap_thumbnails_loop (vc : bool) (fh : unit) (fuel : nat)
    (st st' : State L) :
  blocks (src_file st) = bs1 ->
  thumbnails_loop L vc fh fuel st = Next st' ->
  restore_position st' = Z.of_nat (offset_after pre) ->
  thumbnails_loop L vc fh fuel (swap_state st) = Next (swap_state st').
Proof.
  revert st. induction fuel as [|fuel IH]; intros st Hb H Hrp.
  - cbn [thumbnails_loop] in *. expose. destruct (negb _); [|discriminate].
    injection H as <-. reflexivity.
  - cbn [thumbnails_loop] in *. expose. expose_in H.
    destruct (negb (block_type_eqb (type (block_header st)) Thumbnail)).
    { injection H as <-. reflexivity. }
    destruct (read_payload pick_thumbnail no_thumbnail (src_file st) fh
                (block_header st)) as [[r t] f1] eqn:E.
    pose proof (read_payload_advances _ _ _ _ _ _ _ _ E) as (Eb & _ & Ep).
    destruct (is_success r) eqn:Hr; cbn [negb] in H; [|discriminate].
    destruct (write_line _ (dst_file st)) as [ok1 d1] eqn:W1.
    destruct ok1; cbn [negb] in H; [|discriminate].
    destruct (write_rows _ d1) as [ok2 d2] eqn:W2.
    destruct ok2; cbn [negb] in H; [|discriminate].
    destruct (write_line _ d2) as [ok3 d3] eqn:W3.
    destruct ok3; cbn [negb] in H; [|discriminate].
    destruct (read_block_header f1 fh vc) as [[r2 h2] f2] eqn:E2.
    pose proof (read_block_header_advances _ _ _ _ _ _ E2)
      as ((E2b & _ & E2p) & _).
    destruct (is_success r2) eqn:Hr2; cbn [negb] in H; [|discriminate].
    pose proof (thumbnails_loop_bound mode vc fh fuel _ _ H) as (_ & Hcase).
    cbn [src_file restore_position] in Hcase.
    assert (Hguard : position (src_file st) <> payload_offset).
    { unfold block_header_size.
      destruct Hcase as [-> | Hle]; cbn [restore_position] in Hrp;
        unfold tell in *; lia. }
    rewrite (swap_read_payload pick_thumbnail no_thumbnail (src_file st) fh
               (block_header st) Hb Hguard).
    rewrite E, Hr. cbn [negb]. rewrite W1. cbn [negb]. rewrite W2. cbn [negb].
    rewrite W3. cbn [negb].
    change (tell (with_blocks bs2 f1)) with (tell f1).
    rewrite (swap_read_block_header f1 fh vc) by congruence.
    rewrite E2, Hr2. cbn [negb].
    apply (IH (Build_State L f2 d3 h2 (tell f1))).
    + cbn [src_file]. congruence.
    + exact H.
    + exact Hrp.
Qed.

Lemma swap_convert_thumbnails (vc : bool) (fh : unit) (fuel : nat)
    (s0 : File) (d0 : OutFile) (st' : State L) :
  blocks s0 = bs1 ->
  convert_thumbnails L vc fh fuel s0 d0 = Next st' ->
  restore_position st' = Z.of_nat (offset_after pre) ->
  convert_thumbnails L vc fh fuel (with_blocks bs2 s0) d0
  = Next (swap_state st').
Proof.
  unfold convert_thumbnails. expose. intros Hb H Hrp.
  rewrite (swap_read_block_header s0 fh vc Hb).
  destruct (read_block_header s0 fh vc) as [[r h] f1] eqn:E.
  apply read_block_header_advances in E. destruct E as ((Eb & _ & Ep) & _).
  destruct (is_success r); cbn [negb] in *; [|discriminate].
  change (tell (with_blocks bs2 s0)) with (tell s0).
  apply (swap_thumbnails_loop vc fh fuel (Build_State L f1 d0 h (tell s0)));
    [cbn [src_file]; congruence | exact H | exact Hrp].
Qed.

Lemma swap_convert_printer_metadata (vc : bool) (fh : unit)
    (s : File) (d : OutFile) (s0 : File) (d0 : OutFile) :
  blocks s = bs1 ->
  position s + block_header_size <> payload_offset ->
  convert_printer_metadata L vc fh s d = Next (s0, d0) ->
  convert_printer_metadata L vc fh (with_blocks bs2 s) d
  = Next (with_blocks bs2 s0, d0).
Proof.
  unfold convert_printer_metadata. expose. intros Hb Hguard H.
  rewrite (swap_read_block_header s fh vc Hb).
  destruct (read_block_header s fh vc) as [[r h] f1] eqn:E.
  apply read_block_header_advances in E. destruct E as ((Eb & _ & _) & Ep).
  destruct r; cbn [is_success negb] in *; try discriminate.
  specialize (Ep eq_refl).
  destruct (negb (block_type_eqb (type h) PrinterMetadata)); [discriminate|].
  rewrite (swap_read_payload pick_metadata [] f1 fh h)
    by (try congruence; lia).
  destruct (read_payload pick_metadata [] f1 fh h) as [[r2 md] f2].
  destruct (is_success r2); cbn [negb] in *; [|discriminate].
  destruct (write_metadata md d) as [ok d1].
  destruct ok; cbn [negb] in *; [|discriminate].
  injection H as <- <-. reflexivity.
Qed.

Lemma swap_convert_file_metadata (vc : bool) (f : File) (dst : OutFile)
    fs fh (s : File) (d : OutFile) :
  blocks f = bs1 ->
  payload_offset <> file_header_size + block_header_size ->
  convert_file_metadata L vc f dst = Next (fs, fh, s, d) ->
  convert_file_metadata L vc (with_blocks bs2 f) dst
  = Next (fs, fh, with_blocks bs2 s, d).
Proof.
  unfold convert_file_metadata. expose. intros Hb Hguard H.
  rewrite swap_validate.
  destruct (validate f) as [r0 f0] eqn:E0. apply validate_same in E0. subst f0.
  destruct (is_success r0); cbn [negb] in *; [|discriminate].
  change (seek (seek (with_blocks bs2 f) (total_size (with_blocks bs2 f))) 0)
    with (with_blocks bs2 (seek (seek f (total_size f)) 0)).
  change (tell (seek (with_blocks bs2 f) (total_size (with_blocks bs2 f))))
    with (Z.of_nat (total_size (with_blocks bs2 f))).
  change (tell (seek f (total_size f))) with (Z.of_nat (total_size f)) in H.
  rewrite (swap_total_size f Hb).
  rewrite swap_read_file_header.
  destruct (read_file_header _) as [[r1 u] f1] eqn:E1.
  destruct r1; cbn [is_success negb] in *; try discriminate.
  apply read_file_header_position in E1. destruct E1 as (E1b & E1p).
  cbn [blocks seek] in E1b.
  rewrite (swap_read_block_header f1 u vc) by congruence.
  destruct (read_block_header f1 u vc) as [[r2 h] f2] eqn:E2.
  apply read_block_header_advances in E2. destruct E2 as ((E2b & _ & _) & E2p).
  destruct r2; cbn [is_success negb] in *; try discriminate.
  specialize (E2p eq_refl).
  destruct (negb (block_type_eqb (type h) FileMetadata)); [discriminate|].
  rewrite (swap_read_payload pick_metadata [] f2 u h)
    by (try congruence; lia).
  destruct (read_payload pick_metadata [] f2 u h) as [[r3 md] f3].
  destruct (is_success r3); cbn [negb] in *; [|discriminate].
  destruct (write_line _ dst) as [ok d1].
  destruct ok; cbn [negb] in *; [|discriminate].
  injection H as <- <- <- <-. reflexivity.
Qed.


End Swap.

End SwapFacts.

(** C10 as stated does not hold.  On the example the print-metadata block
    ends the thumbnail loop (at offset 49); its content is passed over and
    the read constrained to the G-code type succeeds; yet the container
    with another print metadata in that block gives another output,
    because line 210 sets the source back to that block and its payload is
    then decoded and written.  The same happens when the typed read does
    not search. *)
Lemma skipped_payload_is_written :
  let L := Container.layer Container.Skipping in
  let src := Container.open_file Examples.stored in
  loop_left_at Container.Skipping 5 Examples.stored 49 /\
  skip_block_content L (Container.seek src 57) tt
    (Container.header_of Examples.print_meta)
    = (Success, Container.seek src 73) /\
  read_next_block_header_of L (Container.seek src 73) tt GCode true
    = (Success, Container.header_of Examples.gcode, Container.seek src 106) /\
  Container.run Container.Skipping 5 Examples.stored
    = Some (Success, Examples.actual_output) /\
  Container.run Container.Skipping 5 Examples.stored_other
    = Some (Success, Examples.actual_output_other) /\
  Examples.actual_output <> Examples.actual_output_other /\
  Container.run Container.Strict 5
    [Examples.file_meta; Examples.printer_meta; Examples.print_meta;
     Examples.gcode]
  <> Container.run Container.Strict 5
    [Examples.file_meta; Examples.printer_meta; Examples.print_meta_other;
     Examples.gcode].
Proof.
  intros L src.
  split.
  { set (d0 := grow Container.empty_out
                 (producer_unknown_line ++ lit "; Printer = X1" ++ nl)).
    exists 129%Z, tt, (Container.seek src 24),
      (grow Container.empty_out producer_unknown_line),
      (Container.seek src 49), d0,
      (Build_State L (Container.seek src 57) d0
         (Container.header_of Examples.print_meta) 49%Z).
    repeat match goal with |- _ /\ _ => split end; vm_compute; reflexivity. }
  repeat match goal with |- _ /\ _ => split end;
    try (vm_compute; reflexivity).
  - intros H. apply (f_equal (fun t => nth_error t 75)) in H.
    vm_compute in H. discriminate.
  - vm_compute. intros H. discriminate H.
Qed.

(** ** A run that returns [Success] *)

(** Settles that a stretch does not execute [return EResult::Success]. *)
Ltac not_success H :=
  repeat (crack H; try discriminate);
  try (injection H as <- _ _;
       first [ discriminate
             | intros Hs; subst;
               match goal with
               | E : is_success Success = false |- _ => discriminate E
               end ]).

Section SuccessFacts.

Variable L : BlockAccessLayer.
Variable verify_checksum : bool.
Variable file_header : FileHeader L.
Variable file_size : Z.

Lemma thumbnails_loop_return (fuel : nat) (st : State L) res s d :
  thumbnails_loop L verify_checksum file_header fuel st = Return res s d ->
  res <> Success.
Proof.
  revert st. induction fuel as [|fuel IH]; intros st H.
  - cbn [thumbnails_loop] in H. destruct (negb _); discriminate.
  - cbn [thumbnails_loop] in H. not_success H.
    apply IH in H. exact H.
Qed.

Lemma gcode_loop_return (fuel : nat) (st : State L) res s d :
  gcode_loop L verify_checksum file_header file_size fuel st = Return res s d ->
  res <> Success.
Proof.
  revert st. induction fuel as [|fuel IH]; intros st H.
  - cbn [gcode_loop] in H. destruct (negb _); discriminate.
  - cbn [gcode_loop] in H. not_success H.
    apply IH in H. exact H.
Qed.

Lemma convert_file_metadata_return (src : Src L) (dst : OutFile) res s d :
  convert_file_metadata L verify_checksum src dst = Return res s d ->
  res <> Success.
Proof. unfold convert_file_metadata. intros H. not_success H. Qed.

Lemma convert_printer_metadata_return (src : Src L) (dst : OutFile) res s d :
  convert_printer_metadata L verify_checksum file_header src dst
    = Return res s d ->
  res <> Success.
Proof. unfold convert_printer_metadata. intros H. not_success H. Qed.

Lemma convert_thumbnails_return (fuel : nat) (src : Src L) (dst : OutFile)
    res s d :
  convert_thumbnails L verify_checksum file_header fuel src dst
    = Return res s d ->
  res <> Success.
Proof.
  unfold convert_thumbnails. intros H. not_success H.
  apply thumbnails_loop_return in H. exact H.
Qed.

Lemma convert_gcode_return (fuel : nat) (st : State L) res s d :
  convert_gcode L verify_checksum file_header file_size fuel st
    = Return res s d ->
  res <> Success.
Proof.
  unfold convert_gcode. intros H. not_success H.
  apply gcode_loop_return in H. exact H.
Qed.

Lemma convert_print_metadata_return (st : State L) res s d :
  convert_print_metadata L verify_checksum file_header st = Return res s d ->
  res <> Success.
Proof.
  unfold convert_print_metadata, read_print_metadata_block. intros H.
  not_success H.
Qed.

End SuccessFacts.

(** [from_binary_to_ascii] returns [Success] only from its last line:
    every stretch before has fallen through. *)
Lemma success_inversion (L : BlockAccessLayer) (vc : bool) (fuel : nat)
    (src : Src L) (dst : OutFile) s' d' :
  from_binary_to_ascii L vc fuel src dst = Return Success s' d' ->
  exists fs fh s d s0 d0 st1 st2 st3,
    convert_file_metadata L vc src dst = Next (fs, fh, s, d) /\
    convert_printer_metadata L vc fh s d = Next (s0, d0) /\
    convert_thumbnails L vc fh fuel s0 d0 = Next st1 /\
    convert_gcode L vc fh fs fuel st1 = Next st2 /\
    convert_print_metadata L vc fh st2 = Next st3 /\
    convert_slicer_metadata L vc fh st3 = Return Success s' d'.
Proof.
  unfold from_binary_to_ascii. intros H.
  destruct (convert_file_metadata L vc src dst)
    as [[[[fs fh] s] d]|r x y|w] eqn:H1; cbn [and_then] in H;
    [| injection H as -> _ _;
       exfalso; exact (convert_file_metadata_return _ _ _ _ _ _ _ H1 eq_refl)
     | discriminate].
  destruct (convert_printer_metadata L vc fh s d)
    as [[s0 d0]|r x y|w] eqn:H2; cbn [and_then] in H;
    [| injection H as -> _ _;
       exfalso;
       exact (convert_printer_metadata_return _ _ _ _ _ _ _ _ H2 eq_refl)
     | discriminate].
  destruct (convert_thumbnails L vc fh fuel s0 d0)
    as [st1|r x y|w] eqn:H3; cbn [and_then] in H;
    [| injection H as -> _ _;
       exfalso;
       exact (convert_thumbnails_return _ _ _ _ _ _ _ _ _ H3 eq_refl)
     | discriminate].
  destruct (convert_gcode L vc fh fs fuel st1)
    as [st2|r x y|w] eqn:H4; cbn [and_then] in H;
    [| injection H as -> _ _;
       exfalso;
       exact (convert_gcode_return _ _ _ _ _ _ _ _ _ H4 eq_refl)
     | discriminate].
  destruct (convert_print_metadata L vc fh st2)
    as [st3|r x y|w] eqn:H5; cbn [and_then] in H;
    [| injection H as -> _ _;
       exfalso;
       exact (convert_print_metadata_return _ _ _ _ _ _ _ H5 eq_refl)
     | discriminate].
  exists fs, fh, s, d, s0, d0, st1, st2, st3. repeat split; assumption.
Qed.

(** ** The read constrained to a type, read strictly *)

Module StrictFacts.
Import Container.

Lemma read_block_header_success f u v h f' :
  read_block_header f u v = (Success, h, f') ->
  exists b,
    block_at (blocks f) (position f - file_header_size) = Some b /\
    file_header_size <= position f /\
    h = header_of b /\
    f' = seek f (position f + block_header_size).
Proof.
  unfold read_block_header.
  destruct (Nat.ltb_spec (position f) file_header_size); [discriminate|].
  destruct (block_at _ _) as [b|]; [|discriminate].
  intros E. injection E as <- <-. exists b. repeat split. assumption.
Qed.

Lemma read_payload_success {A : Type} (pick : Payload -> option A) dflt
    f u h a f' :
  read_payload pick dflt f u h = (Success, a, f') ->
  exists b,
    payload_here f = Some b /\
    f' = seek f (position f + payload_size b).
Proof.
  unfold read_payload. destruct (payload_here f) as [b|]; [|discriminate].
  destruct (pick (payload b)); [|discriminate].
  intros E. injection E as _ <-. exists b. split; reflexivity.
Qed.

Lemma skip_content_success f u h f' :
  skip_content f u h = (Success, f') -> f' = seek f (position f + size h).
Proof.
  unfold skip_content. destruct (_ <=? _); [|discriminate].
  intros E. injection E as <-. reflexivity.
Qed.

(** What the G-code stretch asks of the block that follows the one passed
    over, when the typed read is strict: it is a G-code block. *)
Lemma convert_gcode_strict (vc : bool) (fh : unit) (fs : Z) (fuel : nat)
    (st st' : State (layer Strict)) :
  convert_gcode (layer Strict) vc fh fs fuel st = Next st' ->
  exists b,
    block_at (blocks (src_file st))
      (position (src_file st) + size (block_header st) - file_header_size)
      = Some b /\
    block_type b = GCode.
Proof.
  unfold convert_gcode. SwapFacts.expose. intros H.
  destruct (write_line nl (dst_file st)) as [ok d1].
  destruct ok; cbn [negb] in H; [|discriminate].
  destruct (skip_content (src_file st) fh (block_header st)) as [r f1] eqn:E.
  destruct r; cbn [is_success negb] in H; try discriminate.
  apply skip_content_success in E. subst f1.
  cbn [read_block_header_of] in H.
  destruct (read_block_header _ fh vc) as [[r2 h2] f2] eqn:E2.
  destruct r2; cbn [is_success negb] in H; try discriminate.
  apply read_block_header_success in E2.
  destruct E2 as (b & Hb & _ & -> & _). cbn [blocks position seek] in Hb.
  destruct (block_type_eqb (type (header_of b)) GCode) eqn:Hty;
    cbn [is_success negb] in H; [|discriminate].
  exists b. split; [exact Hb|]. apply block_type_eqb_eq in Hty. exact Hty.
Qed.

End StrictFacts.

(** With the typed read taken strictly, no container is converted with
    [Success]: the stretch that converts the G-code requires a G-code
    block right after the block that ended the thumbnail loop, and, once
    the source is set back, the last stretch requires a slicer-metadata
    block at the same place.  The converter can only succeed on top of a
    typed read that passes over the blocks in between. *)
Lemma strict_read_never_succeeds (fuel : nat) (bs : list Container.Block)
    (out : text) :
  Container.run Container.Strict fuel bs <> Some (Success, out).
Proof.
  unfold Container.run. intros H.
  destruct (from_binary_to_ascii _ _ _ _ _) as [st|res s' d'|w] eqn:E;
    try discriminate.
  injection H as -> _. apply success_inversion in E.
  destruct E as (fs & fh & s & d & s0 & d0 & st1 & st2 & st3
                 & H1 & H2 & H3 & H4 & H5 & H6).
  destruct (convert_thumbnails_restore _ _ _ _ _ _ _ H3)
    as (_ & s_before & Hrp & Hh).
  apply StrictFacts.read_block_header_success in Hh.
  destruct Hh as (b & Hb & Hlo & Hhd & Hsrc).
  destruct (StrictFacts.convert_gcode_strict _ _ _ _ _ _ H4)
    as (g & Hg & Hgty).
  pose proof (convert_gcode_restore _ _ _ _ _ _ _ H4) as K.
  pose proof H4 as B4. apply SwapFacts.convert_gcode_blocks in B4.
  rewrite Hsrc, Hhd in Hg. cbn [Container.blocks Container.position
    Container.seek Container.header_of Container.size] in Hg.
  rewrite Hsrc in B4. cbn [Container.blocks Container.seek] in B4.
  unfold convert_print_metadata, read_print_metadata_block in H5.
  SwapFacts.expose_in H5. cbn [with_src src_file] in H5.
  rewrite K, Hrp in H5. cbn [ftell Container.layer] in H5.
  unfold Container.tell, Container.seek_set in H5.
  destruct (Z.ltb_spec (Z.of_nat (Container.position s_before)) 0)
    as [Hneg|_]; [lia|].
  rewrite Nat2Z.id in H5.
  destruct (Container.read_block_header _ fh true) as [[r5 h5] f5] eqn:E5.
  destruct r5; cbn [is_success negb] in H5; try discriminate.
  apply StrictFacts.read_block_header_success in E5.
  destruct E5 as (b' & Hb' & _ & -> & ->).
  cbn [Container.blocks Container.position Container.seek] in Hb'.
  rewrite B4, Hb in Hb'. injection Hb' as <-.
  destruct (negb (block_type_eqb _ PrintMetadata)); [discriminate|].
  destruct (Container.read_payload _ _ _ fh _) as [[r6 md] f6] eqn:E6.
  destruct r6; cbn [is_success negb] in H5; try discriminate.
  apply StrictFacts.read_payload_success in E6.
  destruct E6 as (b'' & Hb'' & ->).
  unfold Container.payload_here in Hb''.
  cbn [Container.blocks Container.position Container.seek] in Hb''.
  unfold Container.file_header_size, Container.block_header_size in *.
  destruct (Nat.ltb_spec (Container.position s_before + 8) (10 + 8));
    [discriminate|].
  replace (Container.position s_before + 8 - 10 - 8)
    with (Container.position s_before - 10) in Hb'' by lia.
  rewrite B4, Hb in Hb''. injection Hb'' as <-.
  repeat (crack H5; try discriminate). injection H5 as <-.
  unfold convert_slicer_metadata in H6. SwapFacts.expose_in H6.
  destruct (Container.read_block_header _ fh true) as [[r7 h7] f7] eqn:E7.
  destruct r7; cbn [is_success negb] in H6; try discriminate.
  apply StrictFacts.read_block_header_success in E7.
  destruct E7 as (z & Hz & _ & -> & _).
  cbn [Container.blocks Container.position Container.seek] in Hz.
  rewrite B4 in Hz.
  change Container.file_header_size with 10 in Hz.
  rewrite Hg in Hz. injection Hz as <-.
  cbn [Container.header_of Container.type] in H6. rewrite Hgty in H6.
  cbn [block_type_eqb negb] in H6. discriminate.
Qed.

(** ** Enough fuel *)

Module FuelFacts.
Import Container.

Lemma blocks_after_le (bs : list Block) (off : nat) :
  blocks_after bs off <= length bs.
Proof.
  revert off. induction bs as [|b bs IH]; intros off; cbn [blocks_after length].
  - apply le_n.
  - destruct (off =? 0); [apply le_n|].
    specialize (IH (off - block_size b)). lia.
Qed.

Lemma blocks_after_mono (bs : list Block) (off off' : nat) :
  off <= off' -> blocks_after bs off' <= blocks_after bs off.
Proof.
  revert off off'. induction bs as [|b bs IH]; intros off off' Hle;
    cbn [blocks_after].
  - apply le_n.
  - destruct (Nat.eqb_spec off 0) as [->|Hne].
    + destruct (off' =? 0); [apply le_n|].
      pose proof (blocks_after_le bs (off' - block_size b)). lia.
    + destruct (Nat.eqb_spec off' 0) as [->|Hne']; [lia|].
      apply IH. lia.
Qed.

(** Going past the header of a block leaves fewer blocks ahead. *)
Lemma blocks_after_block (bs : list Block) (off k : nat) (b : Block) :
  block_at bs off = Some b -> 0 < k ->
  blocks_after bs (off + k) < blocks_after bs off.
Proof.
  intros Hb Hk. revert off Hb. induction bs as [|a bs IH]; intros off Hb.
  - discriminate.
  - cbn [block_at] in Hb. cbn [blocks_after].
    destruct (Nat.eqb_spec (off + k) 0) as [E|_]; [lia|].
    destruct (Nat.eqb_spec off 0) as [E|Hne].
    + pose proof (blocks_after_le bs (off + k - block_size a)). lia.
    + destruct (Nat.ltb_spec off (block_size a)); [discriminate|].
      replace (off + k - block_size a) with (off - block_size a + k) by lia.
      apply IH. exact Hb.
Qed.

Lemma advances_blocks_ahead (f f' : File) :
  advances f f' -> blocks_ahead f' <= blocks_ahead f.
Proof.
  intros (Hb & _ & Hp). unfold blocks_ahead. rewrite Hb.
  apply blocks_after_mono. lia.
Qed.

Lemma read_block_header_blocks_ahead f u v h f' :
  read_block_header f u v = (Success, h, f') ->
  blocks_ahead f' < blocks_ahead f.
Proof.
  intros H. apply StrictFacts.read_block_header_success in H.
  destruct H as (b & Hb & Hlo & _ & ->). unfold blocks_ahead.
  cbn [blocks position seek].
  replace (position f + block_header_size - file_header_size)
    with (position f - file_header_size + block_header_size) by lia.
  apply blocks_after_block with (b := b); [exact Hb|].
  unfold block_header_size. lia.
Qed.

Lemma search_header_blocks_ahead n f ty h f' :
  search_header n f ty = (Success, h, f') ->
  blocks_ahead f' < blocks_ahead f.
Proof.
  revert f. induction n as [|n IH]; intros f H; cbn [search_header] in H;
    destruct (read_block_header f tt true) as [[r0 h0] f0] eqn:E;
    destruct r0; try discriminate;
    apply read_block_header_blocks_ahead in E;
    destruct (block_type_eqb (type h0) ty);
    try (injection H as _ <-; exact E); try discriminate.
  destruct (skip_content f0 tt h0) as [r1 f1] eqn:E1.
  apply SwapFacts.skip_content_advances, advances_blocks_ahead in E1.
  destruct r1; try discriminate.
  apply IH in H. lia.
Qed.

Lemma read_block_header_of_blocks_ahead mode f u ty v h f' :
  read_block_header_of mode f u ty v = (Success, h, f') ->
  blocks_ahead f' < blocks_ahead f.
Proof.
  destruct mode; cbn [read_block_header_of].
  - intros H. destruct (read_block_header f u v) as [[r0 h0] f0] eqn:E.
    destruct r0; try discriminate.
    apply read_block_header_blocks_ahead in E.
    destruct (block_type_eqb (type h0) ty); [|discriminate].
    injection H as _ <-. exact E.
  - apply search_header_blocks_ahead.
Qed.

Lemma blocks_ahead_le (f : File) : blocks_ahead f <= length (blocks f).
Proof. apply blocks_after_le. Qed.

Section Loops.

Variable mode : TypedRead.

Local Abbreviation L := (layer mode).

Lemma thumbnails_loop_fuel (vc : bool) (fh : unit) (fuel : nat) (st : State L) :
  blocks_ahead (src_file st) < fuel ->
  thumbnails_loop L vc fh fuel st <> Stuck OutOfFuel.
Proof.
  revert st. induction fuel as [|fuel IH]; intros st Hm; [lia|].
  cbn [thumbnails_loop]. SwapFacts.expose.
  destruct (negb (block_type_eqb (type (block_header st)) Thumbnail));
    [discriminate|].
  destruct (read_payload pick_thumbnail no_thumbnail (src_file st) fh
              (block_header st)) as [[r t] f1] eqn:E.
  apply SwapFacts.read_payload_advances, advances_blocks_ahead in E.
  destruct (is_success r); cbn [negb]; [|discriminate].
  destruct (write_line _ (dst_file st)) as [ok1 d1].
  destruct ok1; cbn [negb]; [|discriminate].
  destruct (write_rows _ d1) as [ok2 d2].
  destruct ok2; cbn [negb]; [|discriminate].
  destruct (write_line _ d2) as [ok3 d3].
  destruct ok3; cbn [negb]; [|discriminate].
  destruct (read_block_header f1 fh vc) as [[r2 h2] f2] eqn:E2.
  destruct r2; cbn [is_success negb]; try discriminate.
  apply read_block_header_blocks_ahead in E2.
  apply IH. cbn [src_file]. lia.
Qed.

Lemma gcode_loop_fuel (vc : bool) (fh : unit) (fs : Z) (fuel : nat)
    (st : State L) :
  blocks_ahead (src_file st) < fuel ->
  gcode_loop L vc fh fs fuel st <> Stuck OutOfFuel.
Proof.
  revert st. induction fuel as [|fuel IH]; intros st Hm; [lia|].
  cbn [gcode_loop]. SwapFacts.expose.
  destruct (negb (block_type_eqb (type (block_header st)) GCode));
    [discriminate|].
  destruct (read_payload pick_gcode [] (src_file st) fh (block_header st))
    as [[r raw] f1] eqn:E.
  apply SwapFacts.read_payload_advances, advances_blocks_ahead in E.
  destruct (is_success r); cbn [negb]; [|discriminate].
  destruct (remove_empty_lines raw) as [out|]; [|discriminate].
  destruct (match out with [] => _ | _ :: _ => _ end) as [ok d1].
  destruct ok; cbn [negb]; [|discriminate].
  destruct (tell f1 =? fs)%Z; [discriminate|].
  destruct (read_block_header f1 fh vc) as [[r2 h2] f2] eqn:E2.
  destruct r2; cbn [is_success negb]; try discriminate.
  apply read_block_header_blocks_ahead in E2.
  apply IH. cbn [src_file]. lia.
Qed.

End Loops.

End FuelFacts.

(** On a container, as many turns as there are blocks are enough for
    both loops: [from_binary_to_ascii] does not run out of fuel. *)
Lemma container_fuel_suffices (mode : Container.TypedRead) (fuel : nat)
    (bs : list Container.Block) :
  length bs <= fuel ->
  from_binary_to_ascii (Container.layer mode) true fuel
    (Container.open_file bs) Container.empty_out
  <> Stuck OutOfFuel.
Proof.
  intros Hfuel. unfold from_binary_to_ascii.
  destruct (convert_file_metadata _ _ _ _)
    as [[[[fs fh] s] d]|r x y|w] eqn:H1; cbn [and_then]; try discriminate.
  2:{ unfold convert_file_metadata in H1.
      repeat (crack H1; try discriminate). }
  pose proof H1 as Q1. apply SwapFacts.convert_file_metadata_position in Q1.
  destruct Q1 as (B1 & _). cbn [Container.blocks Container.open_file] in B1.
  destruct (convert_printer_metadata _ _ _ _ _)
    as [[s0 d0]|r x y|w] eqn:H2; cbn [and_then]; try discriminate.
  2:{ unfold convert_printer_metadata in H2.
      repeat (crack H2; try discriminate). }
  pose proof H2 as Q2. apply SwapFacts.convert_printer_metadata_position in Q2.
  destruct Q2 as (B2 & _).
  destruct (convert_thumbnails _ _ _ _ _ _) as [st1|r x y|w] eqn:H3;
    cbn [and_then]; try discriminate.
  2:{ intros E; injection E as ->. revert H3. unfold convert_thumbnails. SwapFacts.expose.
      destruct (Container.read_block_header s0 fh true)
        as [[r h] f1] eqn:E.
      destruct r; cbn [is_success negb]; try discriminate.
      apply FuelFacts.read_block_header_blocks_ahead in E.
      apply FuelFacts.thumbnails_loop_fuel. cbn [src_file].
      pose proof (FuelFacts.blocks_ahead_le s0). rewrite B2, B1 in *. lia. }
  pose proof H3 as Q3. apply SwapFacts.convert_thumbnails_bound in Q3.
  destruct Q3 as (B3 & _).
  destruct (convert_gcode _ _ _ _ _ _) as [st2|r x y|w] eqn:H4;
    cbn [and_then]; try discriminate.
  2:{ intros E; injection E as ->. revert H4. unfold convert_gcode. SwapFacts.expose.
      destruct (write_line nl (dst_file st1)) as [ok d1].
      destruct ok; cbn [negb]; [|discriminate].
      destruct (Container.skip_content _ fh _) as [r f1] eqn:E.
      apply SwapFacts.skip_content_advances in E.
      destruct (is_success r); cbn [negb]; [|discriminate].
      destruct (Container.read_block_header_of mode f1 fh GCode true)
        as [[r2 h2] f2] eqn:E2.
      destruct r2; cbn [is_success negb]; try discriminate.
      apply FuelFacts.read_block_header_of_blocks_ahead in E2.
      apply FuelFacts.gcode_loop_fuel. cbn [src_file].
      pose proof (FuelFacts.blocks_ahead_le f1).
      destruct E as (E & _). rewrite E, B3, B2, B1 in *. lia. }
  destruct (convert_print_metadata _ _ _ _) as [st3|r x y|w] eqn:H5;
    cbn [and_then]; try discriminate.
  2:{ unfold convert_print_metadata, read_print_metadata_block in H5.
      repeat (crack H5; try discriminate). }
  unfold convert_slicer_metadata. intros H6.
  repeat (crack H6; try discriminate).
Qed.

(** * Further properties of the text utilities *)

(** ** [trim] is determined by the blanks around a span *)

Section TrimFacts.

Lemma forallb_blank_rev (s : text) :
  forallb is_blank s = true -> forallb is_blank (rev s) = true.
Proof.
  rewrite !forallb_forall. intros H c Hc. apply H, in_rev. exact Hc.
Qed.

Lemma starts_blank_app (r x : text) :
  r <> [] -> starts_blank (r ++ x) = starts_blank r.
Proof. destruct r; [congruence | reflexivity]. Qed.

(** The first character that is not blank stands at one place only. *)
Lemma blank_prefix_unique (pre pre' x x' : text) :
  forallb is_blank pre = true -> forallb is_blank pre' = true ->
  x <> [] -> x' <> [] ->
  starts_blank x = false -> starts_blank x' = false ->
  pre ++ x = pre' ++ x' -> x = x'.
Proof.
  revert pre'.
  induction pre as [|c pre IH]; intros [|c' pre'] Hp Hp' Hx Hx' Hs Hs' E;
    cbn [app forallb] in *.
  - exact E.
  - subst x. cbn [starts_blank] in Hs.
    apply andb_prop in Hp'. destruct Hp' as [Hc _]. congruence.
  - subst x'. cbn [starts_blank] in Hs'.
    apply andb_prop in Hp. destruct Hp as [Hc _]. congruence.
  - injection E as -> E.
    apply andb_prop in Hp. apply andb_prop in Hp'.
    destruct Hp as [_ Hp]. destruct Hp' as [_ Hp'].
    exact (IH pre' Hp Hp' Hx Hx' Hs Hs' E).
Qed.

(** A text has at most one span between leading and trailing blanks. *)
Lemma trimmed_unique (pre r post pre' r' post' : text) :
  forallb is_blank pre = true -> forallb is_blank post = true ->
  forallb is_blank pre' = true -> forallb is_blank post' = true ->
  r <> [] -> r' <> [] ->
  starts_blank r = false -> starts_blank (rev r) = false ->
  starts_blank r' = false -> starts_blank (rev r') = false ->
  pre ++ r ++ post = pre' ++ r' ++ post' -> r = r'.
Proof.
  intros Hp Hq Hp' Hq' Hr Hr' Hs He Hs' He' E.
  assert (Hne : forall a b : text, a <> [] -> a ++ b <> []).
  { intros [|? ?] b Ha; [congruence | discriminate]. }
  assert (Hrev : forall a : text, a <> [] -> rev a <> []).
  { intros a Ha Hn. apply Ha. rewrite <- (rev_involutive a), Hn. reflexivity. }
  apply blank_prefix_unique in E; auto;
    try (rewrite starts_blank_app; assumption).
  apply (f_equal (@rev ascii)) in E. rewrite !rev_app_distr in E.
  apply blank_prefix_unique in E; auto using forallb_blank_rev.
  rewrite <- (rev_involutive r), <- (rev_involutive r'), E. reflexivity.
Qed.

(** [trim] takes away the blanks around a span that neither starts nor
    ends with a blank. *)
Lemma trim_of_parts (pre r post : text) :
  forallb is_blank pre = true -> forallb is_blank post = true ->
  starts_blank r = false -> starts_blank (rev r) = false ->
  trim (pre ++ r ++ post) = Some r.
Proof.
  intros Hp Hq Hs He.
  destruct (trim_decomposition (pre ++ r ++ post))
    as (pre' & r' & post' & Ht & E & Hp' & Hq' & Hs' & He' & Hcase).
  rewrite Ht. f_equal.
  destruct r as [|c r0].
  - destruct Hcase as [[_ ->]|[Hnb _]]; [reflexivity|].
    rewrite !forallb_app in Hnb. cbn [forallb] in Hnb.
    rewrite Hp, Hq in Hnb. discriminate.
  - destruct Hcase as [[Hb _]|[_ Hlen]].
    + rewrite !forallb_app in Hb. cbn [forallb starts_blank] in Hb, Hs.
      rewrite Hs in Hb. rewrite andb_false_r in Hb. discriminate.
    + symmetry.
      apply (trimmed_unique pre (c :: r0) post pre' r' post'); auto;
        try discriminate.
      destruct r'; [simpl in Hlen; lia | discriminate].
Qed.

End TrimFacts.

(** X1.  [trim s] is [r] exactly when [s] is [r] between a run of leading
    and a run of trailing spaces and tabs, and [r] neither starts nor ends
    with a space or a tab: blanks inside [r], and every other character,
    line ends and carriage returns included, stay. *)
Theorem trim_characterised (s r : text) :
  trim s = Some r <->
  exists pre post,
    s = pre ++ r ++ post /\
    forallb is_blank pre = true /\ forallb is_blank post = true /\
    starts_blank r = false /\ starts_blank (rev r) = false.
Proof.
  split.
  - intros Hr.
    destruct (trim_decomposition s)
      as (pre & r' & post & Ht & E & Hp & Hq & Hs & He & _).
    rewrite Hr in Ht. injection Ht as <-.
    exists pre, post. repeat split; assumption.
  - intros (pre & post & -> & Hp & Hq & Hs & He).
    apply trim_of_parts; assumption.
Qed.

(** X2.  Trimming twice is trimming once. *)
Theorem trim_idempotent (s : text) :
  exists r, trim s = Some r /\ trim r = Some r.
Proof.
  destruct (trim_decomposition s)
    as (pre & r & post & Ht & _ & _ & _ & Hs & He & _).
  exists r. split; [exact Ht|].
  pose proof (trim_of_parts [] r [] eq_refl eq_refl Hs He) as H.
  cbn [app] in H. rewrite app_nil_r in H. exact H.
Qed.

(** ** Which lines the normalisation drops *)

Section DroppedLines.

Lemma trim_blank (s : text) : forallb is_blank s = true -> trim s = Some [].
Proof.
  intros Hb.
  pose proof (trim_of_parts s [] [] Hb eq_refl eq_refl eq_refl) as H.
  cbn [app] in H. rewrite app_nil_r in H. exact H.
Qed.

Lemma trim_nil_blank (s : text) : trim s = Some [] -> forallb is_blank s = true.
Proof.
  intros Ht.
  destruct (trim_decomposition s)
    as (_ & r & _ & Hr & _ & _ & _ & _ & _ & [[Hb _]|[_ Hlen]]).
  - exact Hb.
  - rewrite Ht in Hr. injection Hr as <-. simpl in Hlen. lia.
Qed.

End DroppedLines.

(** X3.  The test of line 170 drops a line exactly when it holds nothing
    but spaces and tabs, or one comment marker with nothing but spaces and
    tabs before and after it.  Every other line is kept: a comment with
    text, a second comment marker, a carriage return. *)
Theorem line_dropped_iff (l : text) :
  significant l = Some false <->
  forallb is_blank l = true \/
  exists pre post,
    l = pre ++ semicolon :: post /\
    forallb is_blank pre = true /\ forallb is_blank post = true.
Proof.
  unfold significant. split.
  - intros H.
    destruct (trim_decomposition l)
      as (pre & r & post & Ht & E & Hp & Hq & Hs & He & Hcase).
    rewrite Ht in H.
    destruct r as [|c r0].
    + left. apply trim_nil_blank. exact Ht.
    + right. unfold uncomment, char_at in H. cbn [nth_error skipn] in H.
      destruct (Ascii.eqb_spec c semicolon) as [->|Hc].
      * destruct (trim r0) as [[|x t]|] eqn:Hr0; try discriminate.
        exists pre, (r0 ++ post). split; [exact E|]. split; [exact Hp|].
        rewrite forallb_app, Hq, (trim_nil_blank _ Hr0). reflexivity.
      * discriminate.
  - intros [Hb|(pre & post & -> & Hp & Hq)].
    + rewrite (trim_blank _ Hb). reflexivity.
    + change (pre ++ semicolon :: post) with (pre ++ [semicolon] ++ post).
      rewrite (trim_of_parts pre [semicolon] post Hp Hq eq_refl eq_refl).
      reflexivity.
Qed.

(** * Further properties of the normalisation *)

Section MoreLinesFacts.

Lemma unlines_app (a b : list text) : unlines (a ++ b) = unlines a ++ unlines b.
Proof. unfold unlines. rewrite map_app, concat_app. reflexivity. Qed.

Lemma unlines_cons (l : text) (ls : list text) :
  unlines (l :: ls) = l ++ newline :: unlines ls.
Proof. unfold unlines. cbn [map concat]. rewrite <- app_assoc. reflexivity. Qed.

(** Every text is a sequence of lines closed by newlines, followed by
    what stands after the last newline. *)
Lemma lines_and_tail (data : text) :
  exists ls tail,
    data = unlines ls ++ tail /\ Forall no_newline ls /\ no_newline tail.
Proof.
  induction data as [|c data (ls & tail & -> & Hls & Htail)].
  - exists [], []. split; [reflexivity|]. split; [constructor | intros []].
  - destruct (Ascii.eqb_spec c newline) as [->|Hc].
    + exists ([] :: ls), tail. split; [reflexivity|]. split; [|exact Htail].
      constructor; [intros [] | exact Hls].
    + destruct ls as [|l ls].
      * exists [], (c :: tail). split; [reflexivity|]. split; [constructor|].
        intros [E|Hin]; [congruence | exact (Htail Hin)].
      * exists ((c :: l) :: ls), tail.
        inversion Hls as [|? ? Hl Hrest]; subst.
        split; [rewrite !unlines_cons; reflexivity|]. split; [|exact Htail].
        constructor; [|exact Hrest].
        intros [E|Hin]; [congruence | exact (Hl Hin)].
Qed.

(** The inner loop on a last line that no newline closes: it stops at
    [data.end()]. *)
Lemma find_line_end_tail (tail pre : text) :
  no_newline tail ->
  find_line_end (pre ++ tail) (length pre) = Some (length pre + length tail).
Proof.
  revert pre. induction tail as [|c tail IH]; intros pre Hno.
  - rewrite find_line_end_step, app_nil_r.
    destruct (Nat.eq_dec _ _) as [_|E]; [|contradiction].
    f_equal. simpl. lia.
  - rewrite find_line_end_step.
    destruct (Nat.eq_dec _ _) as [E|_].
    { rewrite length_app in E. simpl in E. lia. }
    unfold char_at. rewrite nth_error_app2, Nat.sub_diag by lia. simpl.
    destruct (Ascii.eqb_spec c newline) as [->|Hc].
    { exfalso. apply Hno. left. reflexivity. }
    specialize (IH (pre ++ [c])).
    rewrite <- app_assoc in IH. simpl in IH.
    rewrite length_app in IH. simpl in IH.
    rewrite Nat.add_1_r in IH. rewrite IH.
    + f_equal. lia.
    + intros Hin. apply Hno. right. assumption.
Qed.

(** The outer loop on such a line: [++end_it] leaves the buffer. *)
Lemma lines_loop_tail (tail pre ret : text) :
  no_newline tail -> tail <> [] ->
  lines_loop (pre ++ tail) (length pre) ret = None.
Proof.
  intros Hno Hne.
  assert (Hlen : 0 < length tail) by (destruct tail; [congruence | simpl; lia]).
  rewrite lines_loop_step.
  destruct (Nat.eq_dec _ _) as [E|_].
  { rewrite length_app in E. lia. }
  rewrite find_line_end_tail by assumption.
  destruct (take_line _ _ _ _); [|reflexivity].
  destruct (le_lt_dec _ _) as [_|E]; [reflexivity|].
  rewrite length_app in E. lia.
Qed.

Lemma lines_loop_unterminated (ls : list text) (tail pre ret : text) :
  Forall no_newline ls -> no_newline tail -> tail <> [] ->
  lines_loop (pre ++ unlines ls ++ tail) (length pre) ret = None.
Proof.
  intros Hls Hno Hne. revert pre ret.
  induction Hls as [|l ls Hl Hls IH]; intros pre ret.
  - apply lines_loop_tail; assumption.
  - rewrite unlines_cons, <- !app_assoc. cbn [app].
    rewrite lines_loop_step.
    destruct (Nat.eq_dec _ _) as [E|_].
    { rewrite !length_app in E. simpl in E. lia. }
    rewrite find_line_end_scan by assumption.
    rewrite take_line_at.
    destruct (le_lt_dec _ _) as [E|_].
    { rewrite !length_app in E. simpl in E. lia. }
    specialize (IH (pre ++ l ++ [newline])
                   (if kept l then ret ++ l ++ [newline] else ret)).
    rewrite <- !app_assoc in IH. simpl app in IH.
    rewrite !length_app in IH. simpl length in IH.
    replace (length pre + (length l + 1)) with (S (length pre + length l)) in IH
      by lia.
    exact IH.
Qed.

(** The result on any payload, by what stands after its last newline. *)
Lemma remove_empty_lines_by_tail (ls : list text) (tail : text) :
  Forall no_newline ls -> no_newline tail ->
  remove_empty_lines (unlines ls ++ tail)
  = match tail with
    | [] => Some (unlines (filter kept ls))
    | _ :: _ => None
    end.
Proof.
  intros Hls Hno. destruct tail as [|c tail].
  - rewrite app_nil_r. apply remove_empty_lines_unlines. exact Hls.
  - apply (lines_loop_unterminated ls (c :: tail) [] []); auto. discriminate.
Qed.

Lemma last_or_nil {A : Type} (l : list A) :
  l = [] \/ exists l' a, l = l' ++ [a].
Proof.
  induction l as [|a l' _] using rev_ind; [left; reflexivity|].
  right. exists l', a. reflexivity.
Qed.

Lemma unlines_closed (ls : list text) :
  unlines ls = [] \/ exists body, unlines ls = body ++ [newline].
Proof.
  destruct (last_or_nil ls) as [->|(ls' & l & ->)]; [left; reflexivity|].
  right. exists (unlines ls' ++ l). rewrite unlines_app. unfold unlines at 2.
  cbn [map concat]. rewrite app_nil_r, app_assoc. reflexivity.
Qed.

Lemma filter_kept_no_newline (ls : list text) :
  Forall no_newline ls -> Forall no_newline (filter kept ls).
Proof.
  intros H. apply Forall_forall. intros l Hl.
  apply filter_In in Hl. destruct Hl as [Hl _].
  rewrite Forall_forall in H. exact (H l Hl).
Qed.

Lemma filter_twice {A : Type} (f : A -> bool) (l : list A) :
  filter f (filter f l) = filter f l.
Proof.
  induction l as [|a l IH]; [reflexivity|].
  cbn [filter]. destruct (f a) eqn:E; [|exact IH].
  cbn [filter]. rewrite E, IH. reflexivity.
Qed.

(** A payload on which the normalisation has a result is made of lines
    closed by newlines. *)
Lemma remove_empty_lines_some (data out : text) :
  remove_empty_lines data = Some out ->
  exists ls,
    data = unlines ls /\ Forall no_newline ls /\
    out = unlines (filter kept ls).
Proof.
  intros H.
  destruct (lines_and_tail data) as (ls & tail & -> & Hls & Hno).
  rewrite (remove_empty_lines_by_tail ls tail Hls Hno) in H.
  destruct tail; [|discriminate].
  injection H as <-. exists ls. rewrite app_nil_r. auto.
Qed.

(** A payload on which it has none is not empty and lacks the closing
    newline. *)
Lemma remove_empty_lines_none (data : text) :
  remove_empty_lines data = None -> unterminated data.
Proof.
  intros H.
  destruct (lines_and_tail data) as (ls & tail & -> & Hls & Hno).
  rewrite (remove_empty_lines_by_tail ls tail Hls Hno) in H.
  destruct (last_or_nil tail) as [->|(t & c & ->)]; [discriminate|].
  assert (Hc : c <> newline).
  { intros ->. apply Hno, in_or_app. right. left. reflexivity. }
  split.
  - destruct (unlines ls); destruct t; discriminate.
  - intros body E. rewrite app_assoc in E.
    apply app_inj_tail in E. destruct E as [_ E]. exact (Hc E).
Qed.

End MoreLinesFacts.

(** X4.  [remove_empty_lines] has a result exactly on the payloads that
    are empty or end with a newline.  On any other payload the inner loop
    stops at [data.end()] on the last line and [++end_it] steps beyond
    the end of the buffer. *)
Theorem remove_empty_lines_defined_iff (data : text) :
  (exists out, remove_empty_lines data = Some out) <->
  (data = [] \/ exists body, data = body ++ [newline]).
Proof.
  split.
  - intros (out & H).
    destruct (remove_empty_lines_some data out H) as (ls & -> & _).
    apply unlines_closed.
  - intros Hclosed.
    destruct (remove_empty_lines data) as [out|] eqn:H;
      [exists out; reflexivity|].
    apply remove_empty_lines_none in H. destruct H as [Hne Hopen].
    destruct Hclosed as [->|(body & ->)].
    + contradiction.
    + exfalso. exact (Hopen body eq_refl).
Qed.

(** X5.  Normalising a normalised payload changes nothing. *)
Theorem remove_empty_lines_idempotent (data out : text) :
  remove_empty_lines data = Some out -> remove_empty_lines out = Some out.
Proof.
  intros H.
  destruct (remove_empty_lines_some data out H) as (ls & -> & Hls & ->).
  rewrite remove_empty_lines_unlines by (apply filter_kept_no_newline, Hls).
  rewrite filter_twice. reflexivity.
Qed.

Lemma remove_empty_lines_idempotent_witness :
  remove_empty_lines
    (lit "G1 X0" ++ nl ++ lit "; comment" ++ nl ++ lit "G1 X1" ++ nl)
  = Some (lit "G1 X0" ++ nl ++ lit "; comment" ++ nl ++ lit "G1 X1" ++ nl).
Proof.
  apply (remove_empty_lines_idempotent Examples.gcode_text).
  vm_compute. reflexivity.
Defined.

(** The normalisation goes through a cut at a line end. *)
Lemma remove_empty_lines_cut (a b a' b' : text) :
  remove_empty_lines a = Some a' ->
  remove_empty_lines b = Some b' ->
  remove_empty_lines (a ++ b) = Some (a' ++ b').
Proof.
  intros Ha Hb.
  destruct (remove_empty_lines_some a a' Ha) as (la & -> & Hla & ->).
  destruct (remove_empty_lines_some b b' Hb) as (lb & -> & Hlb & ->).
  rewrite <- !unlines_app, <- filter_app.
  apply remove_empty_lines_unlines.
  apply Forall_app. split; assumption.
Qed.

(** X6.  The normalisation goes through cuts at line ends: when it has
    a result on each of a sequence of payloads, its result on the
    payloads put end to end is the results put end to end.  A G-code
    text stored in several blocks that end at line ends is converted to
    the same text as if it were stored in one block. *)
Theorem remove_empty_lines_concat (raws outs : list text) :
  normalised raws outs ->
  remove_empty_lines (concat raws) = Some (concat outs).
Proof.
  induction 1 as [|raw out raws outs Hraw _ IH]; cbn [concat].
  - reflexivity.
  - apply remove_empty_lines_cut; assumption.
Qed.

Lemma remove_empty_lines_concat_witness :
  remove_empty_lines
    (concat [Examples.gcode_text; lit " " ++ nl ++ lit "G1 X2" ++ nl; []])
  = Some (concat [lit "G1 X0" ++ nl ++ lit "; comment" ++ nl ++
                  lit "G1 X1" ++ nl;
                  lit "G1 X2" ++ nl; []]).
Proof.
  apply remove_empty_lines_concat.
  repeat apply Forall2_cons; try apply Forall2_nil; vm_compute; reflexivity.
Defined.

(** * Further properties of the writes *)

(** ** The error indicator *)

Section ErrorIndicator.

Lemma write_line_flag (x : text) (d d' : OutFile) (ok : bool) :
  write_line x d = (ok, d') -> ok = negb (ferror d').
Proof. unfold write_line. intros H. injection H as <- <-. reflexivity. Qed.

(** A write never clears the indicator. *)
Lemma fwrite_error_kept (x : text) (d : OutFile) :
  ferror d = true -> ferror (fwrite x d) = true.
Proof.
  unfold ferror, fwrite. intros H. destruct (space d) as [room|].
  - destruct (length x <=? room); [exact H | reflexivity].
  - exact H.
Qed.

Lemma write_line_clear (x : text) (d d' : OutFile) :
  write_line x d = (true, d') -> ferror d = false /\ ferror d' = false.
Proof.
  intros H. pose proof (write_line_flag _ _ _ _ H) as Hf.
  apply write_line_dst in H. subst d'. split.
  - destruct (ferror d) eqn:E; [|reflexivity].
    rewrite (fwrite_error_kept x d E) in Hf. discriminate.
  - destruct (ferror (fwrite x d)); [discriminate | reflexivity].
Qed.

Lemma write_line_failed (x : text) (d d' : OutFile) :
  write_line x d = (false, d') -> ferror d' = true.
Proof.
  intros H. apply write_line_flag in H.
  destruct (ferror d'); [reflexivity | discriminate].
Qed.

Lemma write_metadata_flag (md : metadata) (d d' : OutFile) (ok : bool) :
  write_metadata md d = (ok, d') -> ok = negb (ferror d').
Proof.
  revert d. induction md as [|[key value] md IH]; intros d H.
  - cbn [write_metadata] in H. injection H as <- <-. reflexivity.
  - cbn [write_metadata] in H.
    destruct (write_line _ d) as [ok1 d1] eqn:Hw.
    destruct ok1; cbn [negb] in H.
    + exact (IH d1 H).
    + injection H as <- <-. rewrite (write_line_failed _ _ _ Hw). reflexivity.
Qed.

Lemma write_metadata_true (md : metadata) (d d' : OutFile) :
  write_metadata md d = (true, d') ->
  contents d' = contents d ++ metadata_lines md.
Proof.
  revert d. induction md as [|[key value] md IH]; intros d H.
  - cbn [write_metadata] in H. injection H as _ <-.
    unfold metadata_lines. cbn [map concat]. rewrite app_nil_r. reflexivity.
  - cbn [write_metadata] in H.
    destruct (write_line _ d) as [ok1 d1] eqn:Hw.
    destruct ok1; cbn [negb] in H; [|discriminate].
    apply write_line_true in Hw. rewrite (IH d1 H), Hw.
    unfold metadata_lines. cbn [map concat fst snd].
    rewrite <- !app_assoc. reflexivity.
Qed.

Lemma write_metadata_error_kept (md : metadata) (d : OutFile) :
  ferror d = true -> ferror (snd (write_metadata md d)) = true.
Proof.
  revert d. induction md as [|[key value] md IH]; intros d H.
  - exact H.
  - cbn [write_metadata].
    destruct (write_line _ d) as [ok1 d1] eqn:Hw.
    pose proof (write_line_dst _ _ _ _ Hw) as ->.
    destruct ok1; cbn [negb snd].
    + apply IH, fwrite_error_kept, H.
    + apply fwrite_error_kept, H.
Qed.

Lemma write_metadata_clear (md : metadata) (d d' : OutFile) :
  write_metadata md d = (true, d') -> ferror d = false /\ ferror d' = false.
Proof.
  intros H. pose proof (write_metadata_flag _ _ _ _ H) as Hf. split.
  - destruct (ferror d) eqn:E; [|reflexivity].
    pose proof (write_metadata_error_kept md d E) as Hk.
    rewrite H in Hk. cbn [snd] in Hk. rewrite Hk in Hf. discriminate.
  - destruct (ferror d'); [discriminate | reflexivity].
Qed.

Lemma write_rows_clear (s : text) (d d' : OutFile) :
  write_rows s d = (true, d') -> ferror d = false -> ferror d' = false.
Proof.
  remember (length s) as n eqn:Hn. revert s d Hn.
  induction n as [n IH] using lt_wf_ind. intros s d Hn.
  rewrite write_rows_step.
  destruct (le_lt_dec _ _) as [Hle|Hgt].
  - destruct (0 <? length s).
    + intros H _. apply write_line_clear in H. apply H.
    + intros H. injection H as <-. auto.
  - destruct (write_line _ d) as [ok1 d1] eqn:Hw.
    destruct ok1; [|discriminate].
    intros H _. apply write_line_clear in Hw.
    apply (IH (length (skipn max_row_length s))) in H; auto; [|apply Hw].
    rewrite length_skipn. unfold max_row_length in *. lia.
Qed.

Lemma write_rows_failed (s : text) (d d' : OutFile) :
  write_rows s d = (false, d') -> ferror d' = true.
Proof.
  remember (length s) as n eqn:Hn. revert s d Hn.
  induction n as [n IH] using lt_wf_ind. intros s d Hn.
  rewrite write_rows_step.
  destruct (le_lt_dec _ _) as [Hle|Hgt].
  - destruct (0 <? length s).
    + apply write_line_failed.
    + discriminate.
  - destruct (write_line _ d) as [ok1 d1] eqn:Hw. destruct ok1.
    + intros H. apply (IH (length (skipn max_row_length s))) in H; auto.
      rewrite length_skipn. unfold max_row_length in *. lia.
    + intros H. injection H as <-. apply (write_line_failed _ _ _ Hw).
Qed.

End ErrorIndicator.

(** X7.  [write_metadata] answers with the state of the error indicator
    after its last write: it reports success exactly when the indicator is
    clear, and then the destination has grown by one line
    ["; key = value"] per pair, in order.  With the indicator already
    set it reports failure, for an empty block too. *)
Theorem write_metadata_reports (md : metadata) (d : OutFile) :
  fst (write_metadata md d) = negb (ferror (snd (write_metadata md d))) /\
  (fst (write_metadata md d) = true ->
   contents (snd (write_metadata md d)) = contents d ++ metadata_lines md) /\
  (ferror d = true -> fst (write_metadata md d) = false).
Proof.
  destruct (write_metadata md d) as [ok d'] eqn:H. cbn [fst snd].
  split; [exact (write_metadata_flag _ _ _ _ H)|]. split.
  - intros ->. exact (write_metadata_true _ _ _ H).
  - intros He. destruct ok; [|reflexivity].
    apply write_metadata_clear in H. destruct H as [Hd _]. congruence.
Qed.

(** ** The rows of a thumbnail *)

Section RowShape.

Lemma rows_of_count (s : text) :
  length (rows_of s) = (length s + 77) / 78.
Proof.
  remember (length s) as n eqn:Hn. revert s Hn.
  induction n as [n IH] using lt_wf_ind. intros s Hn.
  rewrite rows_of_step. destruct (le_lt_dec _ _) as [Hle|Hgt].
  - unfold max_row_length in Hle. destruct s as [|c s].
    + subst n. reflexivity.
    + cbn [length] in *. apply Nat.div_unique with (r := n - 1); lia.
  - unfold max_row_length in *. cbn [length].
    rewrite (IH (length (skipn 78 s))); [| rewrite length_skipn; lia | reflexivity].
    rewrite length_skipn, <- Hn.
    replace (n + 77) with ((n - 78 + 77) + 1 * 78) by lia.
    rewrite Nat.div_add by lia. lia.
Qed.

Lemma rows_of_full (s : text) (i : nat) :
  S i < length (rows_of s) -> length (nth i (rows_of s) []) = 78.
Proof.
  remember (length s) as n eqn:Hn. revert s i Hn.
  induction n as [n IH] using lt_wf_ind. intros s i Hn.
  rewrite rows_of_step. destruct (le_lt_dec _ _) as [Hle|Hgt].
  - destruct s; cbn [length]; lia.
  - unfold max_row_length in *. cbn [length]. intros Hi.
    destruct i as [|i]; cbn [nth].
    + rewrite length_firstn. lia.
    + apply (IH (length (skipn 78 s))); [| reflexivity | lia].
      rewrite length_skipn. lia.
Qed.

End RowShape.

(** X8.  The body of a thumbnail is cut into rows of 78 characters: an
    encoded image of [n] characters is written as [ceil (n / 78)] lines,
    every line but the last carrying exactly 78 characters, and the rows
    put end to end are the encoded image. *)
Theorem thumbnail_rows_shape (encoded : text) (dst dst' : OutFile) :
  write_rows encoded dst = (true, dst') ->
  exists rows,
    contents dst' = contents dst ++ concat (map row_line rows) /\
    concat rows = encoded /\
    length rows = (length encoded + 77) / 78 /\
    forall i, S i < length rows -> length (nth i rows []) = 78.
Proof.
  intros H. exists (rows_of encoded).
  split; [exact (write_rows_true _ _ _ H)|].
  split; [apply rows_of_concat|].
  split; [apply rows_of_count|].
  intros i. apply rows_of_full.
Qed.

Lemma thumbnail_rows_shape_witness :
  exists rows,
    contents (snd (write_rows (repeat "A"%char 160) Container.empty_out))
    = contents Container.empty_out ++ concat (map row_line rows) /\
    concat rows = repeat "A"%char 160 /\
    length rows = (length (repeat "A"%char 160) + 77) / 78 /\
    forall i, S i < length rows -> length (nth i rows []) = 78.
Proof.
  apply (thumbnail_rows_shape (repeat "A"%char 160) Container.empty_out).
  vm_compute. reflexivity.
Defined.

(** X9.  The begin line of a thumbnail announces the length of the
    base-64 text, which for an image of [n] bytes is [4 * ceil (n / 3)]:
    the value that [encoded_size] reserves at line 122 is the length that
    [encode] hands back at line 123. *)
Theorem thumbnail_size_announced (label : text) (t : ThumbnailBlock) :
  length (Base64.encode (data t)) = Base64.encoded_size (length (data t)) /\
  thumbnail_begin label t (Base64.encode (data t))
  = nl ++ lit ";" ++ nl ++ lit "; " ++ label ++ lit " begin " ++
    to_string (width t) ++ lit "x" ++ to_string (height t) ++ lit " " ++
    to_string (N.of_nat (4 * ((length (data t) + 2) / 3))) ++ nl.
Proof.
  pose proof (Base64Facts.encode_length (data t)) as H.
  split; [exact H|].
  unfold thumbnail_begin. rewrite H. reflexivity.
Qed.

(** * Further properties of whole runs *)

Lemma block_type_eqb_false (a b : EBlockType) :
  block_type_eqb a b = false -> a <> b.
Proof. intros H ->. rewrite block_type_eqb_refl in H. discriminate. Qed.

(** Turns what the tests of a stretch have established into equations
    on the answers of the layer. *)
Ltac learn_answers :=
  repeat match goal with
    | H : is_success ?r = true |- _ => apply is_success_true in H; subst r
    | H : block_type_eqb _ _ = true |- _ => apply block_type_eqb_eq in H
    | H : block_type_eqb _ _ = false |- _ => apply block_type_eqb_false in H
    | H : ?p = (_, _) |- _ => is_var p; subst p
    end.

(** Records what each write has left in the destination. *)
Ltac learn_writes :=
  repeat match goal with
    | H : write_line _ _ = (true, _) |- _ =>
        pose proof (write_line_true _ _ _ H);
        apply write_line_clear in H; destruct H
    | H : write_line _ _ = (false, _) |- _ => apply write_line_failed in H
    | H : write_metadata _ _ = (true, _) |- _ =>
        pose proof (write_metadata_true _ _ _ H);
        apply write_metadata_clear in H; destruct H
    | H : write_metadata _ _ = (false, _) |- _ =>
        apply write_metadata_flag in H; cbn [negb] in H
    | H : write_rows _ _ = (true, _) |- _ =>
        pose proof (write_rows_true _ _ _ H);
        pose proof (write_rows_clear _ _ _ H); clear H
    | H : write_rows _ _ = (false, _) |- _ => apply write_rows_failed in H
    end.

(** Settles the conjuncts of a goal from the answers recorded. *)
Ltac from_answers :=
  repeat match goal with |- _ /\ _ => split end;
  try first [eassumption | reflexivity].

(** ** The output is only appended to *)

Section Appended.

Variable L : BlockAccessLayer.
Variable verify_checksum : bool.

Lemma convert_file_metadata_extends (src : Src L) (dst : OutFile) :
  match convert_file_metadata L verify_checksum src dst with
  | Next (_, _, _, d) => extends dst d
  | Return _ _ d => extends dst d
  | Stuck _ => True
  end.
Proof.
  destruct (convert_file_metadata L verify_checksum src dst)
    as [[[[fs fh] s] d]|res s d|why] eqn:H; [| |exact I];
    unfold convert_file_metadata in H;
    repeat (crack H; try discriminate);
    first [ injection H as _ _ _ <- | injection H as _ _ <- ];
    extends_chain.
Qed.

Lemma keeps_output_from (d1 d2 : OutFile)
    (o : Outcome (Src L) (State L)) :
  extends d1 d2 -> keeps_output d2 o -> keeps_output d1 o.
Proof.
  intros H12. destruct o as [st|res s d|why]; cbn [keeps_output]; auto;
    apply extends_trans; exact H12.
Qed.

End Appended.

(** X10.  Whatever the layer answers and however the run ends, with
    [Success] or with an error, the destination holds at the end what it
    held at the start, followed by what the run has written: the
    converter never rewinds, truncates or overwrites its output. *)
Theorem output_only_appended (L : BlockAccessLayer) (vc : bool) (fuel : nat)
    (src : Src L) (dst : OutFile) :
  keeps_output dst (from_binary_to_ascii L vc fuel src dst).
Proof.
  unfold from_binary_to_ascii.
  pose proof (convert_file_metadata_extends L vc src dst) as H1.
  destruct (convert_file_metadata L vc src dst)
    as [[[[fs fh] s] d]|res s d|why]; cbn [and_then].
  - apply keeps_output_from with d; [exact H1|].
    exact (after_producer_line_extends L vc fh fs fuel s d).
  - exact H1.
  - exact I.
Qed.

(** ** Runs that return [Success] *)

Section SuccessfulRun.

Variable L : BlockAccessLayer.
Variable verify_checksum : bool.
Variable file_header : FileHeader L.
Variable file_size : Z.

Lemma framing_text (t : ThumbnailBlock) :
  thumbnail_begin (thumbnail_label (format t)) t (Base64.encode (data t)) ++
  concat (map row_line (rows_of (Base64.encode (data t)))) ++
  thumbnail_end (thumbnail_label (format t))
  = framing t.
Proof.
  unfold framing, framing_of, thumbnail_begin, thumbnail_end.
  rewrite thumbnail_label_of, rows_of_concat.
  rewrite <- !app_assoc. reflexivity.
Qed.

Lemma convert_file_metadata_next (src : Src L) (dst : OutFile) fs fh s d :
  convert_file_metadata L verify_checksum src dst = Next (fs, fh, s, d) ->
  exists s1 s2 h2 s3 fm,
    is_valid_binary_gcode L src = (Success, s1) /\
    read_header L (rewind L (fseek_end L s1)) = (Success, fh, s2) /\
    read_next_block_header L s2 fh verify_checksum = (Success, h2, s3) /\
    header_type L h2 = FileMetadata /\
    read_file_metadata L s3 fh h2 = (Success, fm, s) /\
    fs = ftell L (fseek_end L s1) /\
    contents d = contents dst ++ producer_line fm.
Proof.
  unfold convert_file_metadata. intros H.
  repeat (crack H; try discriminate).
  injection H as <- <- <- <-. learn_answers. learn_writes.
  rewrite find_producer in *.
  do 5 eexists. from_answers.
Qed.

Lemma convert_printer_metadata_next (src : Src L) (dst : OutFile) s d :
  convert_printer_metadata L verify_checksum file_header src dst
    = Next (s, d) ->
  exists h s1 pm,
    read_next_block_header L src file_header verify_checksum
      = (Success, h, s1) /\
    header_type L h = PrinterMetadata /\
    read_printer_metadata L s1 file_header h = (Success, pm, s) /\
    contents d = contents dst ++ metadata_lines pm.
Proof.
  unfold convert_printer_metadata. intros H.
  repeat (crack H; try discriminate).
  injection H as <- <-. learn_answers. learn_writes.
  do 3 eexists. from_answers.
Qed.

Lemma thumbnails_loop_next (fuel : nat) (st st' : State L) :
  thumbnails_loop L verify_checksum file_header fuel st = Next st' ->
  exists ts,
    thumbnails_read L verify_checksum file_header
      (src_file st) (block_header st) (restore_position st) ts
      (src_file st') (block_header st') (restore_position st') /\
    contents (dst_file st')
    = contents (dst_file st) ++ concat (map framing ts).
Proof.
  assert (Hnone : forall st0 : State L,
    block_type_eqb (header_type L (block_header st0)) Thumbnail = false ->
    exists ts,
      thumbnails_read L verify_checksum file_header
        (src_file st0) (block_header st0) (restore_position st0) ts
        (src_file st0) (block_header st0) (restore_position st0) /\
      contents (dst_file st0)
      = contents (dst_file st0) ++ concat (map framing ts)).
  { intros st0 Hty. exists []. split.
    - apply thumbnails_none, block_type_eqb_false, Hty.
    - cbn [map concat]. rewrite app_nil_r. reflexivity. }
  revert st. induction fuel as [|fuel IH]; intros st H;
    cbn [thumbnails_loop] in H;
    destruct (block_type_eqb (header_type L (block_header st)) Thumbnail)
      eqn:Hty; cbn [negb] in H;
    try discriminate; try (injection H as <-; apply Hnone, Hty).
  repeat (crack H; try discriminate).
  apply IH in H. destruct H as (ts & Hts & Hout).
  cbn [src_file dst_file block_header restore_position] in Hts, Hout.
  learn_answers. learn_writes.
  match goal with
  | Hrd : read_thumbnail _ _ _ _ = (Success, ?t, _) |- _ => exists (t :: ts)
  end.
  split.
  - eapply thumbnails_more; eassumption.
  - cbn [map concat]. rewrite <- framing_text, Hout.
    repeat match goal with
      | E : contents _ = _ |- _ => rewrite E; clear E
      end.
    rewrite <- !app_assoc. reflexivity.
Qed.

Lemma convert_thumbnails_next (fuel : nat) (src : Src L) (dst : OutFile)
    (st : State L) :
  convert_thumbnails L verify_checksum file_header fuel src dst = Next st ->
  exists h s1 ts,
    read_next_block_header L src file_header verify_checksum
      = (Success, h, s1) /\
    thumbnails_read L verify_checksum file_header s1 h (ftell L src) ts
      (src_file st) (block_header st) (restore_position st) /\
    contents (dst_file st) = contents dst ++ concat (map framing ts).
Proof.
  unfold convert_thumbnails. intros H.
  repeat (crack H; try discriminate).
  apply thumbnails_loop_next in H. destruct H as (ts & Hts & Hout).
  cbn [src_file dst_file block_header restore_position] in Hts, Hout.
  learn_answers. eauto 6.
Qed.

Lemma gcode_loop_next (fuel : nat) (st st' : State L) :
  gcode_loop L verify_checksum file_header file_size fuel st = Next st' ->
  exists raws outs,
    gcode_read L verify_checksum file_header file_size
      (src_file st) (block_header st) raws (src_file st') (block_header st') /\
    normalised raws outs /\
    restore_position st' = restore_position st /\
    contents (dst_file st') = contents (dst_file st) ++ concat outs.
Proof.
  assert (Hnone : forall st0 : State L,
    block_type_eqb (header_type L (block_header st0)) GCode = false ->
    exists raws outs,
      gcode_read L verify_checksum file_header file_size
        (src_file st0) (block_header st0) raws (src_file st0) (block_header st0) /\
      normalised raws outs /\
      restore_position st0 = restore_position st0 /\
      contents (dst_file st0) = contents (dst_file st0) ++ concat outs).
  { intros st0 Hty. exists [], []. split; [|split; [|split]].
    - apply gcode_none, block_type_eqb_false, Hty.
    - constructor.
    - reflexivity.
    - cbn [concat]. rewrite app_nil_r. reflexivity. }
  assert (Hout : forall (out : text) (d d' : OutFile),
    match out with [] => (true, d) | _ :: _ => write_line out d end
      = (true, d') ->
    contents d' = contents d ++ out).
  { intros [|c out] d d' Hw.
    - injection Hw as <-. rewrite app_nil_r. reflexivity.
    - exact (write_line_true _ _ _ Hw). }
  revert st. induction fuel as [|fuel IH]; intros st H;
    cbn [gcode_loop] in H;
    destruct (block_type_eqb (header_type L (block_header st)) GCode)
      eqn:Hty; cbn [negb] in H;
    try discriminate; try (injection H as <-; apply Hnone, Hty).
  repeat (crack H; try discriminate);
    match type of H with
    | Next _ = Next _ =>
        injection H as <-; learn_answers;
        cbn [src_file dst_file block_header restore_position];
        match goal with
        | Hrd : read_gcode _ _ _ _ = (Success, ?raw, _),
          Hn : remove_empty_lines ?raw = Some ?out |- _ =>
            exists [raw], [out]
        end;
        split; [|split; [|split]];
        [ eapply gcode_last; eassumption
        | constructor; [assumption | constructor]
        | reflexivity
        | cbn [concat]; rewrite app_nil_r; apply Hout; assumption ]
    | _ =>
        apply IH in H;
        destruct H as (raws & outs & Hreads & Hnorm & Hrp & Hgrown);
        cbn [src_file dst_file block_header restore_position] in *;
        learn_answers;
        match goal with
        | Hg : read_gcode _ _ _ _ = (Success, ?raw, _),
          Hn : remove_empty_lines ?raw = Some ?out |- _ =>
            exists (raw :: raws), (out :: outs)
        end;
        split; [|split; [|split]];
        [ eapply gcode_more; eassumption
        | constructor; assumption
        | exact Hrp
        | cbn [concat]; rewrite Hgrown; erewrite Hout by eassumption;
          rewrite <- app_assoc; reflexivity ]
    end.
Qed.

Lemma convert_gcode_next (fuel : nat) (st st' : State L) :
  convert_gcode L verify_checksum file_header file_size fuel st = Next st' ->
  exists s9 h9 s10 raws outs,
    skip_block_content L (src_file st) file_header (block_header st)
      = (Success, s9) /\
    read_next_block_header_of L s9 file_header GCode verify_checksum
      = (Success, h9, s10) /\
    gcode_read L verify_checksum file_header file_size
      s10 h9 raws (src_file st') (block_header st') /\
    normalised raws outs /\
    restore_position st' = restore_position st /\
    contents (dst_file st') = contents (dst_file st) ++ nl ++ concat outs.
Proof.
  unfold convert_gcode. intros H.
  repeat (crack H; try discriminate).
  apply gcode_loop_next in H. destruct H as (raws & outs & Hreads & Hnorm & Hrp & Hgrown).
  cbn [src_file dst_file block_header restore_position] in *.
  learn_answers. learn_writes.
  do 3 eexists. exists raws, outs. from_answers.
  rewrite Hgrown.
  match goal with E : contents _ = _ ++ nl |- _ => rewrite E end.
  rewrite <- app_assoc. reflexivity.
Qed.

Lemma convert_print_metadata_next (st st' : State L) :
  convert_print_metadata L verify_checksum file_header st = Next st' ->
  exists h s1 prm,
    read_next_block_header L
      (fseek_set L (src_file st) (restore_position st))
      file_header verify_checksum = (Success, h, s1) /\
    header_type L h = PrintMetadata /\
    read_print_metadata L s1 file_header h = (Success, prm, src_file st') /\
    contents (dst_file st')
    = contents (dst_file st) ++ nl ++ metadata_lines prm.
Proof.
  unfold convert_print_metadata, read_print_metadata_block. intros H.
  repeat (crack H; try discriminate).
  injection H as <-. learn_answers. learn_writes.
  cbn [src_file dst_file block_header restore_position].
  do 3 eexists. from_answers.
  repeat match goal with
    | E : contents _ = _ |- _ => rewrite E; clear E
    end.
  rewrite <- app_assoc. reflexivity.
Qed.

Lemma convert_slicer_metadata_success (st : State L) s' d' :
  convert_slicer_metadata L verify_checksum file_header st
    = Return Success s' d' ->
  exists h s1 sm,
    read_next_block_header L (src_file st) file_header verify_checksum
      = (Success, h, s1) /\
    header_type L h = SlicerMetadata /\
    read_slicer_metadata L s1 file_header h = (Success, sm, s') /\
    contents d'
    = contents (dst_file st) ++
      nl ++ lit "; prusaslicer_config = begin" ++ nl ++ metadata_lines sm ++
      lit "; prusaslicer_config = end" ++ nl ++ nl /\
    ferror d' = false.
Proof.
  unfold convert_slicer_metadata. intros H.
  repeat (crack H; try discriminate);
    try solve [injection H as -> _ _; discriminate].
  injection H as <- <-. learn_answers. learn_writes.
  do 3 eexists. from_answers.
  repeat match goal with
    | E : contents _ = _ |- _ => rewrite E; clear E
    end.
  rewrite <- !app_assoc. reflexivity.
Qed.

End SuccessfulRun.

(** What a run that returns [Success] has read and written. *)
Lemma success_rendered (L : BlockAccessLayer) (vc : bool)
    (fuel : nat) (src : Src L) (dst : OutFile) (s' : Src L) (d' : OutFile) :
  from_binary_to_ascii L vc fuel src dst = Return Success s' d' ->
  exists fm pm ts raws outs prm sm,
    delivers L vc src fm pm ts raws prm sm s' /\
    normalised raws outs /\
    contents d' = contents dst ++ render fm pm ts outs prm sm.
Proof.
  intros H.
  destruct (success_inversion L vc fuel src dst s' d' H)
    as (fs & fh & s & d & s0 & d0 & st1 & st2 & st3 &
        H1 & H2 & H3 & H4 & H5 & H6).
  apply convert_file_metadata_next in H1.
  destruct H1 as (s1 & s2 & h2 & s3 & fm & V & FH & B1 & T1 & R1 & -> & O1).
  apply convert_printer_metadata_next in H2.
  destruct H2 as (h4 & s5 & pm & B2 & T2 & R2 & O2).
  apply convert_thumbnails_next in H3.
  destruct H3 as (h6 & s7 & ts & B3 & R3 & O3).
  apply convert_gcode_next in H4.
  destruct H4 as (s9 & h9 & s10 & raws & outs & K & B4 & R4 & N & P & O4).
  apply convert_print_metadata_next in H5.
  destruct H5 as (h12 & s12 & prm & B5 & T5 & R5 & O5).
  apply convert_slicer_metadata_success in H6.
  destruct H6 as (h13 & s14 & sm & B6 & T6 & R6 & O6 & E).
  rewrite P in B5.
  exists fm, pm, ts, raws, outs, prm, sm.
  split; [|split; [exact N|]].
  - exists s1, fh, s2, h2, s3, s, h4, s5, s0, h6, s7, (src_file st1),
      (block_header st1), (restore_position st1), s9, h9, s10,
      (src_file st2), (block_header st2), h12, s12, (src_file st3), h13, s14.
    repeat match goal with |- _ /\ _ => split end; assumption.
  - rewrite O6, O5, O4, O3, O2, O1. unfold render.
    rewrite <- !app_assoc. reflexivity.
Qed.

(** X11.  A run that returns [Success] has found, in this order, a
    file-metadata block, a printer-metadata block, the thumbnails, the
    G-code blocks and, back at the offset noted before the block that
    ended the thumbnails, a print-metadata and a slicer-metadata block;
    every call of the layer has succeeded; and what the run has added to
    the destination is exactly the producer line, the printer metadata,
    one framing per thumbnail, a newline, the normalised G-code, a
    newline, the print metadata and the slicer configuration.  The error
    indicator of the destination is clear. *)
Theorem success_means_rendered (L : BlockAccessLayer) (vc : bool)
    (fuel : nat) (src : Src L) (dst : OutFile) (s' : Src L) (d' : OutFile) :
  from_binary_to_ascii L vc fuel src dst = Return Success s' d' ->
  exists fm pm ts raws outs prm sm,
    delivers L vc src fm pm ts raws prm sm s' /\
    normalised raws outs /\
    contents d' = contents dst ++ render fm pm ts outs prm sm /\
    ferror d' = false.
Proof.
  intros H.
  destruct (success_rendered L vc fuel src dst s' d' H)
    as (fm & pm & ts & raws & outs & prm & sm & Hd & Hn & Hc).
  exists fm, pm, ts, raws, outs, prm, sm.
  split; [exact Hd|]. split; [exact Hn|]. split; [exact Hc|].
  destruct (success_inversion L vc fuel src dst s' d' H)
    as (fs & fh & s & d & s0 & d0 & st1 & st2 & st3 & _ & _ & _ & _ & _ & H6).
  apply convert_slicer_metadata_success in H6.
  destruct H6 as (_ & _ & _ & _ & _ & _ & _ & E). exact E.
Qed.

Lemma success_means_rendered_witness :
  exists fm pm ts raws outs prm sm,
    delivers (Container.layer Container.Skipping) true
      (Container.open_file Examples.with_thumbnail) fm pm ts raws prm sm
      (Container.seek (Container.open_file Examples.with_thumbnail) 116) /\
    normalised raws outs /\
    contents
      (grow Container.empty_out
         (render [] [(lit "Printer", lit "X1")] [Examples.picture]
            [lit "G1 X0" ++ nl ++ lit "; comment" ++ nl ++ lit "G1 X1" ++ nl;
             lit "G1 X2" ++ nl]
            [(lit "Layers", lit "10")] [(lit "nozzle", lit "0.4")]))
    = contents Container.empty_out ++ render fm pm ts outs prm sm /\
    ferror
      (grow Container.empty_out
         (render [] [(lit "Printer", lit "X1")] [Examples.picture]
            [lit "G1 X0" ++ nl ++ lit "; comment" ++ nl ++ lit "G1 X1" ++ nl;
             lit "G1 X2" ++ nl]
            [(lit "Layers", lit "10")] [(lit "nozzle", lit "0.4")]))
    = false.
Proof.
  apply (success_means_rendered (Container.layer Container.Skipping) true 5
           (Container.open_file Examples.with_thumbnail) Container.empty_out).
  vm_compute. reflexivity.
Defined.

(** * How a run fails *)

(** ** A failed write is reported *)

Lemma failure_reported_then {S A B : Type} (fa : A -> OutFile)
    (fb : B -> OutFile) (o : Outcome S A) (k : A -> Outcome S B) :
  failure_reported fa o ->
  (forall a, ferror (fa a) = false -> failure_reported fb (k a)) ->
  failure_reported fb (and_then o k).
Proof.
  destruct o as [a|res s d|why]; cbn [failure_reported and_then]; auto.
Qed.

(** Settles a goal on the error indicator from what the writes of the
    stretch have left. *)
Ltac by_indicator :=
  intros; subst; cbn [dst_file] in *;
  repeat match goal with
    | Himp : ?a -> _, Ha : ?a |- _ => specialize (Himp Ha)
    end;
  congruence.

(** Uses the induction hypothesis of a loop at the state with which the
    hypothesis [H] re-enters it. *)
Ltac reenter IH H :=
  match type of H with
  | ?loop ?st0 = _ =>
      let IH' := fresh "IH" in
      pose proof (IH st0) as IH'; rewrite H in IH';
      cbn [failure_reported src_file dst_file block_header restore_position]
        in IH'
  end.

Section ReportedFacts.

Variable L : BlockAccessLayer.
Variable verify_checksum : bool.
Variable file_header : FileHeader L.
Variable file_size : Z.

Lemma convert_file_metadata_reported (src : Src L) (dst : OutFile) :
  ferror dst = false ->
  failure_reported (fun r : Z * FileHeader L * Src L * OutFile => snd r)
    (convert_file_metadata L verify_checksum src dst).
Proof.
  intros Hd.
  destruct (convert_file_metadata L verify_checksum src dst)
    as [[[[fs fh] s] d]|res s d|why] eqn:H;
    cbn [failure_reported snd]; [| |exact I];
    unfold convert_file_metadata in H;
    repeat (crack H; try discriminate); learn_writes;
    injection H; by_indicator.
Qed.

Lemma convert_printer_metadata_reported (src : Src L) (dst : OutFile) :
  ferror dst = false ->
  failure_reported (fun r : Src L * OutFile => snd r)
    (convert_printer_metadata L verify_checksum file_header src dst).
Proof.
  intros Hd.
  destruct (convert_printer_metadata L verify_checksum file_header src dst)
    as [[s d]|res s d|why] eqn:H;
    cbn [failure_reported snd]; [| |exact I];
    unfold convert_printer_metadata in H;
    repeat (crack H; try discriminate); learn_writes;
    injection H; by_indicator.
Qed.

Lemma thumbnails_loop_reported (fuel : nat) (st : State L) :
  ferror (dst_file st) = false ->
  failure_reported dst_file
    (thumbnails_loop L verify_checksum file_header fuel st).
Proof.
  revert st. induction fuel as [|fuel IH]; intros st Hd.
  - cbn [thumbnails_loop]. destruct (negb _); [exact Hd | exact I].
  - destruct (thumbnails_loop L verify_checksum file_header (S fuel) st)
      as [st'|res s d|why] eqn:H; cbn [failure_reported]; [| |exact I];
      cbn [thumbnails_loop] in H;
      repeat (crack H; try discriminate); learn_writes;
      first [ injection H; by_indicator | reenter IH H; by_indicator ].
Qed.

Lemma convert_thumbnails_reported (fuel : nat) (src : Src L) (dst : OutFile) :
  ferror dst = false ->
  failure_reported dst_file
    (convert_thumbnails L verify_checksum file_header fuel src dst).
Proof.
  intros Hd. unfold convert_thumbnails.
  destruct (read_next_block_header L src file_header verify_checksum)
    as [[res h] s].
  destruct (is_success res); cbn [negb].
  - apply thumbnails_loop_reported. exact Hd.
  - cbn [failure_reported]. by_indicator.
Qed.

Lemma gcode_loop_reported (fuel : nat) (st : State L) :
  ferror (dst_file st) = false ->
  failure_reported dst_file
    (gcode_loop L verify_checksum file_header file_size fuel st).
Proof.
  assert (Hout : forall (out : text) (d d' : OutFile) (ok : bool),
    match out with [] => (true, d) | _ :: _ => write_line out d end
      = (ok, d') ->
    ferror d = false -> ferror d' = negb ok).
  { intros [|c out] d d' ok Hw Hd.
    - injection Hw as <- <-. exact Hd.
    - apply write_line_flag in Hw. subst ok. rewrite negb_involutive.
      reflexivity. }
  revert st. induction fuel as [|fuel IH]; intros st Hd.
  - cbn [gcode_loop]. destruct (negb _); [exact Hd | exact I].
  - destruct (gcode_loop L verify_checksum file_header file_size (S fuel) st)
      as [st'|res s d|why] eqn:H; cbn [failure_reported]; [| |exact I];
      cbn [gcode_loop] in H;
      repeat (crack H; try discriminate);
      repeat match goal with
        | Hw : match _ with [] => _ | _ :: _ => _ end = (_, _) |- _ =>
            apply Hout in Hw; [cbn [negb] in Hw | exact Hd]
        end;
      first [ injection H; by_indicator | reenter IH H; by_indicator ].
Qed.

Lemma convert_gcode_reported (fuel : nat) (st : State L) :
  ferror (dst_file st) = false ->
  failure_reported dst_file
    (convert_gcode L verify_checksum file_header file_size fuel st).
Proof.
  intros Hd. unfold convert_gcode.
  destruct (write_line nl (dst_file st)) as [[] d] eqn:Hw; cbn [negb];
    learn_writes; [|cbn [failure_reported]; by_indicator].
  destruct (skip_block_content L (src_file st) file_header (block_header st))
    as [res s].
  destruct (is_success res); cbn [negb];
    [|cbn [failure_reported]; by_indicator].
  destruct (read_next_block_header_of L s file_header GCode verify_checksum)
    as [[res' h] s'].
  destruct (is_success res'); cbn [negb];
    [|cbn [failure_reported]; by_indicator].
  apply gcode_loop_reported. cbn [dst_file]. assumption.
Qed.

Lemma convert_print_metadata_reported (st : State L) :
  ferror (dst_file st) = false ->
  failure_reported dst_file
    (convert_print_metadata L verify_checksum file_header st).
Proof.
  intros Hd.
  destruct (convert_print_metadata L verify_checksum file_header st)
    as [st'|res s d|why] eqn:H; cbn [failure_reported]; [| |exact I];
    unfold convert_print_metadata, read_print_metadata_block in H;
    repeat (crack H; try discriminate); learn_writes;
    injection H; by_indicator.
Qed.

Lemma convert_slicer_metadata_reported (st : State L) :
  ferror (dst_file st) = false ->
  failure_reported dst_file
    (convert_slicer_metadata L verify_checksum file_header st).
Proof.
  intros Hd.
  destruct (convert_slicer_metadata L verify_checksum file_header st)
    as [st'|res s d|why] eqn:H; cbn [failure_reported]; [| |exact I];
    unfold convert_slicer_metadata in H;
    repeat (crack H; try discriminate); learn_writes;
    injection H; by_indicator.
Qed.

End ReportedFacts.

(** X12.  On a destination whose error indicator is clear at the start,
    a run that ends with the indicator set returns [WriteError]: the
    first write that fails ends the run, and no later answer of the layer
    can hide it.  In particular [Success] is returned only with the
    indicator clear. *)
Theorem write_failure_reported (L : BlockAccessLayer) (vc : bool)
    (fuel : nat) (src : Src L) (dst : OutFile)
    (res : EResult) (s' : Src L) (d' : OutFile) :
  ferror dst = false ->
  from_binary_to_ascii L vc fuel src dst = Return res s' d' ->
  (ferror d' = true -> res = WriteError) /\
  (res = Success -> ferror d' = false).
Proof.
  intros Hd H.
  assert (Hrep : failure_reported dst_file
                   (from_binary_to_ascii L vc fuel src dst)).
  { unfold from_binary_to_ascii.
    eapply failure_reported_then;
      [exact (convert_file_metadata_reported L vc src dst Hd)|].
    intros [[[fs fh] s] d] Hd1. cbn [snd] in Hd1.
    eapply failure_reported_then;
      [exact (convert_printer_metadata_reported L vc fh s d Hd1)|].
    intros [s0 d0] Hd2. cbn [snd] in Hd2.
    eapply failure_reported_then;
      [exact (convert_thumbnails_reported L vc fh fuel s0 d0 Hd2)|].
    intros st1 Hd3.
    eapply failure_reported_then;
      [exact (convert_gcode_reported L vc fh fs fuel st1 Hd3)|].
    intros st2 Hd4.
    eapply failure_reported_then;
      [exact (convert_print_metadata_reported L vc fh st2 Hd4)|].
    intros st3 Hd5.
    exact (convert_slicer_metadata_reported L vc fh st3 Hd5). }
  rewrite H in Hrep. cbn [failure_reported] in Hrep.
  split; [exact Hrep|].
  intros ->. destruct (ferror d') eqn:E; [|reflexivity].
  specialize (Hrep eq_refl). discriminate.
Qed.

Lemma write_failure_reported_witness :
  result_code
    (from_binary_to_ascii (Container.layer Container.Skipping) true 5
       (Container.open_file Examples.stored) (out_with_room 30))
  = Some WriteError.
Proof.
  destruct (from_binary_to_ascii (Container.layer Container.Skipping) true 5
              (Container.open_file Examples.stored) (out_with_room 30))
    as [st|res s d|why] eqn:H.
  - vm_compute in H. discriminate.
  - cbn [result_code]. f_equal.
    apply (write_failure_reported (Container.layer Container.Skipping) true 5
             (Container.open_file Examples.stored) (out_with_room 30)
             res s d eq_refl H).
    vm_compute in H. injection H as _ _ <-. reflexivity.
  - vm_compute in H. discriminate.
Defined.

(** ** Accesses outside a buffer *)

Lemma and_then_stuck {S A B : Type} (o : Outcome S A) (k : A -> Outcome S B)
    (why : Anomaly) :
  and_then o k = Stuck why ->
  o = Stuck why \/ exists a, o = Next a /\ k a = Stuck why.
Proof.
  destruct o as [a|res s d|w]; cbn [and_then]; intros H.
  - right. exists a. auto.
  - discriminate.
  - left. injection H as ->. reflexivity.
Qed.

Section RangeFacts.

Variable L : BlockAccessLayer.
Variable verify_checksum : bool.
Variable file_header : FileHeader L.
Variable file_size : Z.

Lemma convert_file_metadata_in_range (src : Src L) (dst : OutFile) why :
  convert_file_metadata L verify_checksum src dst <> Stuck why.
Proof.
  unfold convert_file_metadata. intros H.
  repeat (crack H; try discriminate).
Qed.

Lemma convert_printer_metadata_in_range (src : Src L) (dst : OutFile) why :
  convert_printer_metadata L verify_checksum file_header src dst <> Stuck why.
Proof.
  unfold convert_printer_metadata. intros H.
  repeat (crack H; try discriminate).
Qed.

Lemma thumbnails_loop_in_range (fuel : nat) (st : State L) :
  thumbnails_loop L verify_checksum file_header fuel st <> Stuck OutOfRange.
Proof.
  revert st. induction fuel as [|fuel IH]; intros st H.
  - cbn [thumbnails_loop] in H. destruct (negb _); discriminate.
  - cbn [thumbnails_loop] in H.
    repeat (crack H; try discriminate).
    exact (IH _ H).
Qed.

Lemma convert_thumbnails_in_range (fuel : nat) (src : Src L) (dst : OutFile) :
  convert_thumbnails L verify_checksum file_header fuel src dst
  <> Stuck OutOfRange.
Proof.
  unfold convert_thumbnails. intros H.
  repeat (crack H; try discriminate).
  exact (thumbnails_loop_in_range _ _ H).
Qed.

Lemma gcode_loop_out_of_range (fuel : nat) (st : State L) :
  gcode_loop L verify_checksum file_header file_size fuel st
    = Stuck OutOfRange ->
  exists raws s h raw s1,
    gcode_reaches L verify_checksum file_header file_size
      (src_file st) (block_header st) raws s h /\
    header_type L h = GCode /\
    read_gcode L s file_header h = (Success, raw, s1) /\
    remove_empty_lines raw = None.
Proof.
  revert st. induction fuel as [|fuel IH]; intros st H;
    cbn [gcode_loop] in H;
    destruct (block_type_eqb (header_type L (block_header st)) GCode)
      eqn:Hty; cbn [negb] in H; try discriminate.
  repeat (crack H; try discriminate); learn_answers;
    match type of H with
    | Stuck _ = Stuck _ =>
        match goal with
        | Hrd : read_gcode _ (src_file st) _ _ = (Success, ?r, ?s1) |- _ =>
            exists [], (src_file st), (block_header st), r, s1
        end;
        split; [apply reaches_first|]; split; [assumption|];
        split; assumption
    | _ =>
        apply IH in H; cbn [src_file block_header] in H;
        destruct H as (raws & s' & h' & raw & s1 & Hreach & Hrest);
        match goal with
        | Hrd : read_gcode _ (src_file st) _ _ = (Success, ?r, _) |- _ =>
            exists (r :: raws), s', h', raw, s1
        end;
        split; [|exact Hrest];
        eapply reaches_next; eassumption
    end.
Qed.

Lemma convert_gcode_out_of_range (fuel : nat) (st : State L) :
  convert_gcode L verify_checksum file_header file_size fuel st
    = Stuck OutOfRange ->
  exists s9 h9 s10 raws s h raw s1,
    skip_block_content L (src_file st) file_header (block_header st)
      = (Success, s9) /\
    read_next_block_header_of L s9 file_header GCode verify_checksum
      = (Success, h9, s10) /\
    gcode_reaches L verify_checksum file_header file_size s10 h9 raws s h /\
    header_type L h = GCode /\
    read_gcode L s file_header h = (Success, raw, s1) /\
    remove_empty_lines raw = None.
Proof.
  unfold convert_gcode. intros H.
  repeat (crack H; try discriminate). learn_answers.
  apply gcode_loop_out_of_range in H. cbn [src_file block_header] in H.
  destruct H as (raws & s' & h' & raw & s1 & Hreach & Hrest).
  do 3 eexists. exists raws, s', h', raw, s1.
  split; [reflexivity|]. split; [eassumption|]. split; assumption.
Qed.

Lemma convert_print_metadata_in_range (st : State L) why :
  convert_print_metadata L verify_checksum file_header st <> Stuck why.
Proof.
  unfold convert_print_metadata, read_print_metadata_block. intros H.
  repeat (crack H; try discriminate).
Qed.

Lemma convert_slicer_metadata_in_range (st : State L) why :
  convert_slicer_metadata L verify_checksum file_header st <> Stuck why.
Proof.
  unfold convert_slicer_metadata. intros H.
  repeat (crack H; try discriminate).
Qed.

End RangeFacts.

(** X13.  [trim], [uncomment] and [remove_empty_lines] index and step
    through character buffers.  A run in which one of these accesses
    falls outside its buffer has gone through the file metadata, the
    printer metadata and the thumbnails, has passed over the block that
    ended the thumbnails, has found a G-code block and converted the
    payloads [raws] of the G-code loop, and has then read, from the
    header at which the loop stands, a G-code payload that is not empty
    and does not end with a newline: the access is the step beyond
    [data.end()] that [remove_empty_lines] makes on that payload. *)
Theorem out_of_range_only_in_gcode (L : BlockAccessLayer) (vc : bool)
    (fuel : nat) (src : Src L) (dst : OutFile) :
  from_binary_to_ascii L vc fuel src dst = Stuck OutOfRange ->
  exists fs fh s d s0 d0 st1 s9 h9 s10 raws sg hg raw s1,
    convert_file_metadata L vc src dst = Next (fs, fh, s, d) /\
    convert_printer_metadata L vc fh s d = Next (s0, d0) /\
    convert_thumbnails L vc fh fuel s0 d0 = Next st1 /\
    skip_block_content L (src_file st1) fh (block_header st1)
      = (Success, s9) /\
    read_next_block_header_of L s9 fh GCode vc = (Success, h9, s10) /\
    gcode_reaches L vc fh fs s10 h9 raws sg hg /\
    header_type L hg = GCode /\
    read_gcode L sg fh hg = (Success, raw, s1) /\
    unterminated raw.
Proof.
  unfold from_binary_to_ascii. intros H.
  apply and_then_stuck in H.
  destruct H as [H|([[[fs fh] s] d] & H1 & H)];
    [exfalso; exact (convert_file_metadata_in_range L vc src dst _ H)|].
  apply and_then_stuck in H.
  destruct H as [H|([s0 d0] & H2 & H)];
    [exfalso; exact (convert_printer_metadata_in_range L vc fh s d _ H)|].
  apply and_then_stuck in H.
  destruct H as [H|(st1 & H3 & H)];
    [exfalso; exact (convert_thumbnails_in_range L vc fh fuel s0 d0 H)|].
  apply and_then_stuck in H.
  destruct H as [H|(st2 & _ & H)].
  - apply convert_gcode_out_of_range in H.
    destruct H
      as (s9 & h9 & s10 & raws & sg & hg & raw & s1 &
          Hskip & Hty & Hreach & Hg & Hrd & Hnone).
    exists fs, fh, s, d, s0, d0, st1, s9, h9, s10, raws, sg, hg, raw, s1.
    repeat match goal with |- _ /\ _ => split end; try assumption.
    apply remove_empty_lines_none. exact Hnone.
  - apply and_then_stuck in H.
    destruct H as [H|(st3 & _ & H)]; exfalso.
    + exact (convert_print_metadata_in_range L vc fh st2 _ H).
    + exact (convert_slicer_metadata_in_range L vc fh st3 _ H).
Qed.

Lemma out_of_range_only_in_gcode_witness :
  let L := Container.layer Container.Skipping in
  let src := Container.open_file MoreExamples.open_ended in
  exists fs fh s d s0 d0 st1 s9 h9 s10 raws sg hg raw s1,
    convert_file_metadata L true src Container.empty_out
      = Next (fs, fh, s, d) /\
    convert_printer_metadata L true fh s d = Next (s0, d0) /\
    convert_thumbnails L true fh 5 s0 d0 = Next st1 /\
    skip_block_content L (src_file st1) fh (block_header st1)
      = (Success, s9) /\
    read_next_block_header_of L s9 fh GCode true = (Success, h9, s10) /\
    gcode_reaches L true fh fs s10 h9 raws sg hg /\
    header_type L hg = GCode /\
    read_gcode L sg fh hg = (Success, raw, s1) /\
    unterminated raw.
Proof.
  intros L src.
  apply (out_of_range_only_in_gcode L true 5 src Container.empty_out).
  vm_compute. reflexivity.
Defined.

(** ** The producer line *)

Lemma producer_of_first (pre post : metadata) (value : text) :
  no_producer pre ->
  producer_of (pre ++ (lit "Producer", value) :: post) = value.
Proof.
  induction pre as [|[key v] pre IH]; intros Hno.
  - reflexivity.
  - cbn [app producer_of].
    destruct (text_eqb key (lit "Producer")) eqn:E.
    + apply text_eqb_eq in E. exfalso.
      apply (Hno (key, v)); [left; reflexivity | exact E].
    + apply IH. intros item Hin. apply Hno. right. exact Hin.
Qed.

(** X14.  When the file metadata names a producer, the run starts the
    output with ["; generated by "], the value of the first pair whose key
    is exactly "Producer", and three newlines; pairs before it with other
    keys and pairs after it, further "Producer" pairs included, do not
    matter. *)
Theorem producer_first_match (L : BlockAccessLayer) (vc : bool)
    (src : Src L) (dst : OutFile) s1 fh s2 h s3 s4
    (pre post : metadata) (value : text) :
  is_valid_binary_gcode L src = (Success, s1) ->
  read_header L (rewind L (fseek_end L s1)) = (Success, fh, s2) ->
  read_next_block_header L s2 fh vc = (Success, h, s3) ->
  header_type L h = FileMetadata ->
  read_file_metadata L s3 fh h
    = (Success, pre ++ (lit "Producer", value) :: post, s4) ->
  no_producer pre ->
  healthy dst ->
  convert_file_metadata L vc src dst
  = Next (ftell L (fseek_end L s1), fh, s4,
          grow dst (lit "; generated by " ++ value ++ nl ++ nl ++ nl)).
Proof.
  intros Hv Hfh Hh Hty Hfm Hno Hd.
  unfold convert_file_metadata.
  answer Hv. answer Hfh. answer Hh. rewrite Hty. settle. answer Hfm.
  rewrite find_producer, (producer_of_first pre post value Hno).
  rewrite write_line_healthy by exact Hd. reflexivity.
Qed.

Lemma producer_first_match_witness :
  convert_file_metadata (Container.layer Container.Skipping) true
    (Container.open_file MoreExamples.named) Container.empty_out
  = Next (175%Z, tt,
          Container.seek (Container.open_file MoreExamples.named) 70,
          grow Container.empty_out
            (lit "; generated by " ++ lit "PrusaSlicer 2.6" ++
             nl ++ nl ++ nl)).
Proof.
  apply (producer_first_match (Container.layer Container.Skipping) true
           (Container.open_file MoreExamples.named) Container.empty_out
           (Container.open_file MoreExamples.named) tt
           (Container.seek (Container.open_file MoreExamples.named) 10)
           {| Container.type := FileMetadata; Container.size := 52 |}
           (Container.seek (Container.open_file MoreExamples.named) 18)
           (Container.seek (Container.open_file MoreExamples.named) 70)
           [(lit "Comment", lit "none")] [(lit "Producer", lit "Other")]
           (lit "PrusaSlicer 2.6")).
  - vm_compute. reflexivity.
  - vm_compute. reflexivity.
  - vm_compute. reflexivity.
  - reflexivity.
  - vm_compute. reflexivity.
  - intros item [<-|[]]. discriminate.
  - split; reflexivity.
Defined.

(** ** Where an error code comes from *)

Lemma code_accounted_then (L : BlockAccessLayer) {A B : Type}
    (o : Outcome (Src L) A) (k : A -> Outcome (Src L) B) :
  code_accounted L o -> (forall a, code_accounted L (k a)) ->
  code_accounted L (and_then o k).
Proof.
  destruct o as [a|res s d|why]; cbn [code_accounted and_then]; auto.
Qed.

Lemma not_success_code (res : EResult) : is_success res = false -> res <> Success.
Proof. intros H ->. discriminate. Qed.

(** Names the call that has handed back the code returned. *)
Ltac name_the_call :=
  intros; subst;
  first
    [ right; left; reflexivity
    | right; right; left; reflexivity
    | right; right; right; split;
      [ apply not_success_code; assumption
      | first [ eapply by_is_valid_binary_gcode; eassumption
              | eapply by_read_header; eassumption
              | eapply by_read_next_block_header; eassumption
              | eapply by_read_next_block_header_of; eassumption
              | eapply by_skip_block_content; eassumption
              | eapply by_read_file_metadata; eassumption
              | eapply by_read_printer_metadata; eassumption
              | eapply by_read_print_metadata; eassumption
              | eapply by_read_slicer_metadata; eassumption
              | eapply by_read_thumbnail; eassumption
              | eapply by_read_gcode; eassumption ] ] ].

(** Splits a stretch into its returns and names the call of each. *)
Ltac account_for H :=
  repeat (crack H; try discriminate);
  repeat match goal with
    | E : ?p = (_, _) |- _ => is_var p; subst p
    end.

Section CodeFacts.

Variable L : BlockAccessLayer.
Variable verify_checksum : bool.
Variable file_header : FileHeader L.
Variable file_size : Z.

Lemma convert_file_metadata_codes (src : Src L) (dst : OutFile) :
  code_accounted L (convert_file_metadata L verify_checksum src dst).
Proof.
  destruct (convert_file_metadata L verify_checksum src dst)
    as [a|res s d|why] eqn:H; cbn [code_accounted]; try exact I.
  unfold convert_file_metadata in H. account_for H;
    injection H; name_the_call.
Qed.

Lemma convert_printer_metadata_codes (src : Src L) (dst : OutFile) :
  code_accounted L
    (convert_printer_metadata L verify_checksum file_header src dst).
Proof.
  destruct (convert_printer_metadata L verify_checksum file_header src dst)
    as [a|res s d|why] eqn:H; cbn [code_accounted]; try exact I.
  unfold convert_printer_metadata in H. account_for H;
    injection H; name_the_call.
Qed.

Lemma thumbnails_loop_codes (fuel : nat) (st : State L) :
  code_accounted L (thumbnails_loop L verify_checksum file_header fuel st).
Proof.
  revert st. induction fuel as [|fuel IH]; intros st.
  - cbn [thumbnails_loop]. destruct (negb _); exact I.
  - destruct (thumbnails_loop L verify_checksum file_header (S fuel) st)
      as [a|res s d|why] eqn:H; cbn [code_accounted]; try exact I.
    cbn [thumbnails_loop] in H. account_for H;
      first [ injection H; name_the_call
            | match type of H with
              | ?loop ?st0 = _ =>
                  specialize (IH st0); rewrite H in IH; exact IH
              end ].
Qed.

Lemma convert_thumbnails_codes (fuel : nat) (src : Src L) (dst : OutFile) :
  code_accounted L
    (convert_thumbnails L verify_checksum file_header fuel src dst).
Proof.
  destruct (convert_thumbnails L verify_checksum file_header fuel src dst)
    as [a|res s d|why] eqn:H; cbn [code_accounted]; try exact I.
  unfold convert_thumbnails in H. account_for H;
    first [ injection H; name_the_call
          | match type of H with
            | ?loop ?fuel0 ?st0 = _ =>
                pose proof (thumbnails_loop_codes fuel0 st0) as Hl;
                rewrite H in Hl; exact Hl
            end ].
Qed.

Lemma gcode_loop_codes (fuel : nat) (st : State L) :
  code_accounted L
    (gcode_loop L verify_checksum file_header file_size fuel st).
Proof.
  revert st. induction fuel as [|fuel IH]; intros st.
  - cbn [gcode_loop]. destruct (negb _); exact I.
  - destruct (gcode_loop L verify_checksum file_header file_size (S fuel) st)
      as [a|res s d|why] eqn:H; cbn [code_accounted]; try exact I.
    cbn [gcode_loop] in H. account_for H;
      first [ injection H; name_the_call
            | match type of H with
              | ?loop ?st0 = _ =>
                  specialize (IH st0); rewrite H in IH; exact IH
              end ].
Qed.

Lemma convert_gcode_codes (fuel : nat) (st : State L) :
  code_accounted L
    (convert_gcode L verify_checksum file_header file_size fuel st).
Proof.
  destruct (convert_gcode L verify_checksum file_header file_size fuel st)
    as [a|res s d|why] eqn:H; cbn [code_accounted]; try exact I.
  unfold convert_gcode in H. account_for H;
    first [ injection H; name_the_call
          | match type of H with
            | ?loop ?fuel0 ?st0 = _ =>
                pose proof (gcode_loop_codes fuel0 st0) as Hl;
                rewrite H in Hl; exact Hl
            end ].
Qed.

Lemma convert_print_metadata_codes (st : State L) :
  code_accounted L (convert_print_metadata L verify_checksum file_header st).
Proof.
  destruct (convert_print_metadata L verify_checksum file_header st)
    as [a|res s d|why] eqn:H; cbn [code_accounted]; try exact I.
  unfold convert_print_metadata, read_print_metadata_block in H.
  account_for H; injection H; name_the_call.
Qed.

Lemma convert_slicer_metadata_codes (st : State L) :
  code_accounted L (convert_slicer_metadata L verify_checksum file_header st).
Proof.
  destruct (convert_slicer_metadata L verify_checksum file_header st)
    as [a|res s d|why] eqn:H; cbn [code_accounted]; try exact I.
  unfold convert_slicer_metadata in H.
  account_for H; injection H; intros; subst;
    first [ left; reflexivity | name_the_call ].
Qed.

End CodeFacts.

(** X15.  The converter passes on the error codes of the Block Access
    Layer unchanged and raises only two of its own: a run returns
    [Success], [WriteError], [InvalidSequenceOfBlocks], or a code other
    than [Success] with which one of the calls of the layer has
    answered. *)
Theorem error_codes_passed_on (L : BlockAccessLayer) (vc : bool)
    (fuel : nat) (src : Src L) (dst : OutFile)
    (res : EResult) (s' : Src L) (d' : OutFile) :
  from_binary_to_ascii L vc fuel src dst = Return res s' d' ->
  res = Success \/ res = WriteError \/ res = InvalidSequenceOfBlocks \/
  (res <> Success /\ handed_back L res).
Proof.
  intros H.
  assert (Hacc : code_accounted L (from_binary_to_ascii L vc fuel src dst)).
  { unfold from_binary_to_ascii.
    apply code_accounted_then; [apply convert_file_metadata_codes|].
    intros [[[fs fh] s] d].
    apply code_accounted_then; [apply convert_printer_metadata_codes|].
    intros [s0 d0].
    apply code_accounted_then; [apply convert_thumbnails_codes|].
    intros st1.
    apply code_accounted_then; [apply convert_gcode_codes|].
    intros st2.
    apply code_accounted_then; [apply convert_print_metadata_codes|].
    intros st3. apply convert_slicer_metadata_codes. }
  rewrite H in Hacc. exact Hacc.
Qed.

Lemma error_codes_passed_on_witness :
  ReadError = Success \/ ReadError = WriteError \/
  ReadError = InvalidSequenceOfBlocks \/
  (ReadError <> Success /\
   handed_back (Container.layer Container.Skipping) ReadError).
Proof.
  apply (error_codes_passed_on (Container.layer Container.Skipping) true 5
           (Container.open_file Examples.listed) Container.empty_out
           ReadError
           (Container.seek (Container.open_file Examples.listed) 129)
           (grow Container.empty_out Examples.output_before_gcode)).
  vm_compute. reflexivity.
Defined.

(** ** A thumbnail is written as comment lines *)

Section FrameFacts.

Lemma no_newline_check (l : text) :
  forallb (fun c => negb (Ascii.eqb c newline)) l = true -> no_newline l.
Proof.
  intros H Hin. rewrite forallb_forall in H. specialize (H _ Hin).
  rewrite Ascii.eqb_refl in H. discriminate.
Qed.

Lemma no_newline_app (a b : text) :
  no_newline a -> no_newline b -> no_newline (a ++ b).
Proof.
  intros Ha Hb Hin. apply in_app_or in Hin. destruct Hin; auto.
Qed.

Lemma no_newline_forall (l : text) :
  Forall (fun c => c <> newline) l -> no_newline l.
Proof.
  intros H Hin. rewrite Forall_forall in H. exact (H _ Hin eq_refl).
Qed.

Lemma string_of_uint_no_newline (d : Decimal.uint) :
  no_newline (lit (NilEmpty.string_of_uint d)).
Proof.
  unfold no_newline, lit in *.
  induction d; cbn [NilEmpty.string_of_uint list_ascii_of_string In];
    intros H; [exact H | destruct H as [E|Hin];
                         [discriminate | exact (IHd Hin)] ..].
Qed.

Lemma to_string_no_newline (n : N) : no_newline (to_string n).
Proof. apply string_of_uint_no_newline. Qed.

Lemma thumbnail_label_no_newline (f : EThumbnailFormat) :
  no_newline (thumbnail_label f).
Proof. destruct f; apply no_newline_check; reflexivity. Qed.

Lemma base64_char_no_newline (c : ascii) : base64_char c -> c <> newline.
Proof.
  intros [Hin| ->] E; [|discriminate]. subst c.
  revert Hin. apply no_newline_check. reflexivity.
Qed.

Lemma encoded_rows_no_newline (image : list byte) :
  Forall no_newline (rows_of (Base64.encode image)).
Proof.
  pose proof (rows_of_chars base64_char _ (Base64Facts.encode_chars image))
    as H.
  apply Forall_forall. intros row Hrow. rewrite Forall_forall in H.
  apply no_newline_forall. specialize (H row Hrow).
  apply Forall_forall. intros c Hc. rewrite Forall_forall in H.
  apply base64_char_no_newline, H, Hc.
Qed.

Lemma row_lines_unlines (rows : list text) :
  concat (map row_line rows) = unlines (map (fun row => lit "; " ++ row) rows).
Proof.
  unfold unlines. rewrite map_map. reflexivity.

Qed.

(** The lines of the framing of a thumbnail. *)
Lemma framing_comment_lines (t : ThumbnailBlock) :
  exists lines,
    framing t = nl ++ unlines lines /\
    Forall comment_line lines /\
    length lines = 4 + (length (Base64.encode (data t)) + 77) / 78.
Proof.
  rewrite <- framing_text, row_lines_unlines.
  set (label := thumbnail_label (format t)) in *.
  set (enc := Base64.encode (data t)) in *.
  set (begin_rest :=
         lit " " ++ label ++ lit " begin " ++ to_string (width t) ++
         lit "x" ++ to_string (height t) ++ lit " " ++
         to_string (N.of_nat (length enc))).
  exists ([[semicolon]; semicolon :: begin_rest] ++
          map (fun row => lit "; " ++ row) (rows_of enc) ++
          [semicolon :: lit " " ++ label ++ lit " end"; [semicolon]]).
  split; [|split].
  - rewrite !unlines_app.
    unfold thumbnail_begin, thumbnail_end, begin_rest, nl.
    rewrite !unlines_cons.
    change (unlines []) with (@nil ascii).
    cbn [lit list_ascii_of_string].
    repeat first [progress cbn [app] | rewrite <- app_assoc].
    reflexivity.
  - assert (Hlabel : no_newline label) by apply thumbnail_label_no_newline.
    apply Forall_app. split; [|apply Forall_app; split].
    + repeat apply Forall_cons; [| |apply Forall_nil].
      * exists []. split; [reflexivity | intros []].
      * exists begin_rest. split; [reflexivity|]. unfold begin_rest.
        repeat apply no_newline_app;
          auto using to_string_no_newline;
          apply no_newline_check; reflexivity.
    + apply Forall_forall. intros l Hl. apply in_map_iff in Hl.
      destruct Hl as (row & <- & Hrow).
      exists (lit " " ++ row). split; [reflexivity|].
      apply no_newline_app; [apply no_newline_check; reflexivity|].
      pose proof (encoded_rows_no_newline (data t)) as Hrows.
      rewrite Forall_forall in Hrows. exact (Hrows row Hrow).
    + repeat apply Forall_cons; [| |apply Forall_nil].
      * exists (lit " " ++ label ++ lit " end"). split; [reflexivity|].
        repeat apply no_newline_app; auto;
          apply no_newline_check; reflexivity.
      * exists []. split; [reflexivity | intros []].
  - rewrite !length_app, length_map, rows_of_count. cbn [length]. lia.
Qed.

End FrameFacts.

(** X16.  What the three writes of lines 132 to 145 add for a thumbnail
    is one empty line followed by comment lines only: a lone comment
    marker, the begin line, one line per row of the encoded image, the
    end line and a lone comment marker.  No line of it can be taken for a
    command, whatever the image bytes. *)
Theorem thumbnail_written_as_comments (t : ThumbnailBlock)
    (d0 d1 d2 d3 : OutFile) :
  write_line
    (thumbnail_begin (thumbnail_label (format t)) t (Base64.encode (data t)))
    d0 = (true, d1) ->
  write_rows (Base64.encode (data t)) d1 = (true, d2) ->
  write_line (thumbnail_end (thumbnail_label (format t))) d2 = (true, d3) ->
  exists lines,
    contents d3 = contents d0 ++ nl ++ unlines lines /\
    Forall comment_line lines /\
    length lines = 4 + (length (Base64.encode (data t)) + 77) / 78.
Proof.
  intros H1 H2 H3.
  apply write_line_true in H1, H3. apply write_rows_true in H2.
  destruct (framing_comment_lines t) as (lines & Hf & Hc & Hlen).
  exists lines. split; [|split; assumption].
  rewrite H3, H2, H1, <- Hf, <- framing_text, <- !app_assoc. reflexivity.
Qed.

Lemma thumbnail_written_as_comments_witness :
  exists lines,
    contents
      (grow Container.empty_out (framing Examples.picture))
    = contents Container.empty_out ++ nl ++ unlines lines /\
    Forall comment_line lines /\
    length lines
    = 4 + (length (Base64.encode (data Examples.picture)) + 77) / 78.
Proof.
  apply (thumbnail_written_as_comments Examples.picture Container.empty_out
           (grow Container.empty_out
              (thumbnail_begin (thumbnail_label (format Examples.picture))
                 Examples.picture (Base64.encode (data Examples.picture))))
           (grow (grow Container.empty_out
              (thumbnail_begin (thumbnail_label (format Examples.picture))
                 Examples.picture (Base64.encode (data Examples.picture))))
              (concat (map row_line
                 (rows_of (Base64.encode (data Examples.picture)))))));
    vm_compute; reflexivity.
Defined.

(** ** The output, line by line *)

Section OutputLines.

Lemma clean_producer (fm : metadata) : clean fm -> no_newline (producer_of fm).
Proof.
  induction 1 as [|[key value] fm [_ Hv] _ IH]; cbn [producer_of].
  - apply no_newline_check. reflexivity.
  - destruct (text_eqb key (lit "Producer")); [exact Hv | exact IH].
Qed.

Lemma producer_line_lines (fm : metadata) :
  clean fm ->
  exists lines,
    producer_line fm = unlines lines /\
    Forall (fun l => l = [] \/ comment_line l) lines.
Proof.
  intros Hfm.
  exists [semicolon :: lit " generated by " ++ producer_of fm; []; []].
  split.
  - unfold producer_line, unlines, nl. cbn [map concat lit list_ascii_of_string].
    repeat first [progress cbn [app] | rewrite <- app_assoc]. reflexivity.
  - repeat apply Forall_cons; auto.
    right. eexists. split; [reflexivity|].
    apply no_newline_app; [apply no_newline_check; reflexivity|].
    apply clean_producer, Hfm.
Qed.

Lemma metadata_lines_lines (d : metadata) :
  clean d ->
  exists lines,
    metadata_lines d = unlines lines /\ Forall comment_line lines.
Proof.
  induction 1 as [|[key value] d [Hk Hv] _ (lines & E & Hl)].
  - exists []. split; [reflexivity | constructor].
  - exists ((semicolon :: lit " " ++ key ++ lit " = " ++ value) :: lines).
    split.
    + rewrite unlines_cons, <- E. unfold metadata_lines, nl.
      cbn [map concat fst snd lit list_ascii_of_string].
      repeat first [progress cbn [app] | rewrite <- app_assoc]. reflexivity.
    + constructor; [|exact Hl].
      eexists. split; [reflexivity|]. cbn [fst snd] in *.
      repeat apply no_newline_app; auto; apply no_newline_check; reflexivity.
Qed.

Lemma framings_lines (ts : list ThumbnailBlock) :
  exists lines,
    concat (map framing ts) = unlines lines /\
    Forall (fun l => l = [] \/ comment_line l) lines.
Proof.
  induction ts as [|t ts (lines & E & Hl)].
  - exists []. split; [reflexivity | constructor].
  - destruct (framing_comment_lines t) as (lt & Et & Ht & _).
    exists (([] :: lt) ++ lines). split.
    + cbn [map concat]. rewrite E, Et, unlines_app, unlines_cons.
      unfold nl. rewrite <- app_assoc. reflexivity.
    + apply Forall_app. split; [|exact Hl].
      constructor; [left; reflexivity|].
      apply Forall_forall. intros l Hin. right.
      rewrite Forall_forall in Ht. exact (Ht l Hin).
Qed.

Lemma payload_line_more (raw : text) (raws : list text) (l : text) :
  payload_line raws l -> payload_line (raw :: raws) l.
Proof.
  intros (r & ls & Hin & H). exists r, ls. split; [right; exact Hin | exact H].
Qed.

Lemma normalised_lines (raws outs : list text) :
  normalised raws outs ->
  exists lines,
    concat outs = unlines lines /\ Forall (payload_line raws) lines.
Proof.
  induction 1 as [|raw out raws outs Hraw _ (lines & E & Hl)].
  - exists []. split; [reflexivity | constructor].
  - destruct (remove_empty_lines_some raw out Hraw) as (ls & -> & Hno & ->).
    exists (filter kept ls ++ lines). split.
    + cbn [concat]. rewrite E, unlines_app. reflexivity.
    + apply Forall_app. split.
      * apply Forall_forall. intros l Hin. apply filter_In in Hin.
        destruct Hin as [Hin Hk]. exists (unlines ls), ls.
        split; [left; reflexivity|]. split; [reflexivity|].
        split; [exact Hno|]. split; [exact Hin|].
        rewrite significant_kept, Hk. reflexivity.
      * apply Forall_forall. intros l Hin. apply payload_line_more.
        rewrite Forall_forall in Hl. exact (Hl l Hin).
Qed.

Lemma output_line_weaken (raws : list text) (lines : list text) :
  Forall (fun l => l = [] \/ comment_line l) lines ->
  Forall (output_line raws) lines.
Proof.
  intros H. apply Forall_forall. intros l Hin.
  rewrite Forall_forall in H. destruct (H l Hin) as [E|Hc].
  - left. exact E.
  - right. left. exact Hc.
Qed.

Lemma comment_lines_output (raws : list text) (lines : list text) :
  Forall comment_line lines -> Forall (output_line raws) lines.
Proof.
  intros H. apply Forall_forall. intros l Hin.
  rewrite Forall_forall in H. right. left. exact (H l Hin).
Qed.

Lemma payload_lines_output (raws : list text) (lines : list text) :
  Forall (payload_line raws) lines -> Forall (output_line raws) lines.
Proof.
  intros H. apply Forall_forall. intros l Hin.
  rewrite Forall_forall in H. right. right. exact (H l Hin).
Qed.

Lemma render_lines (fm pm : metadata) (ts : list ThumbnailBlock)
    (raws outs : list text) (prm sm : metadata) :
  normalised raws outs ->
  clean fm -> clean pm -> clean prm -> clean sm ->
  exists lines,
    render fm pm ts outs prm sm = unlines lines /\
    Forall (output_line raws) lines.
Proof.
  intros Hn Hfm Hpm Hprm Hsm.
  destruct (producer_line_lines fm Hfm) as (l1 & E1 & H1).
  destruct (metadata_lines_lines pm Hpm) as (l2 & E2 & H2).
  destruct (framings_lines ts) as (l3 & E3 & H3).
  destruct (normalised_lines raws outs Hn) as (l4 & E4 & H4).
  destruct (metadata_lines_lines prm Hprm) as (l5 & E5 & H5).
  destruct (metadata_lines_lines sm Hsm) as (l6 & E6 & H6).
  exists (l1 ++ l2 ++ l3 ++ [[]] ++ l4 ++ [[]] ++ l5 ++
          [[]; lit "; prusaslicer_config = begin"] ++ l6 ++
          [lit "; prusaslicer_config = end"; []]).
  split.
  - unfold render. rewrite E1, E2, E3, E4, E5, E6, !unlines_app.
    unfold unlines at 4 6 8 10, nl. cbn [map concat].
    repeat first [progress cbn [app] | rewrite <- app_assoc]. reflexivity.
  - repeat (apply Forall_app; split);
      auto using output_line_weaken, comment_lines_output,
                 payload_lines_output.
    all: repeat first [apply Forall_cons | apply Forall_nil].
    all: first [ left; reflexivity
               | right; left; eexists; split; [reflexivity|];
                 apply no_newline_check; reflexivity ].
Qed.

End OutputLines.

(** X17.  When the keys and values of the four metadata blocks hold no
    newline, the text that a successful run adds to the destination is a
    sequence of lines closed by newlines, and each of them is empty, or a
    comment (a comment marker first), or a line of one of the G-code
    payloads that the test of line 170 keeps, copied as it stands: the
    metadata and the thumbnails never show up as commands. *)
Theorem output_is_commented_gcode (L : BlockAccessLayer) (vc : bool)
    (fuel : nat) (src : Src L) (dst : OutFile) (s' : Src L) (d' : OutFile) :
  from_binary_to_ascii L vc fuel src dst = Return Success s' d' ->
  exists fm pm ts raws prm sm,
    delivers L vc src fm pm ts raws prm sm s' /\
    (clean fm -> clean pm -> clean prm -> clean sm ->
     exists lines,
       contents d' = contents dst ++ unlines lines /\
       Forall (output_line raws) lines).
Proof.
  intros H.
  destruct (success_rendered L vc fuel src dst s' d' H)
    as (fm & pm & ts & raws & outs & prm & sm & Hd & Hn & Hc).
  exists fm, pm, ts, raws, prm, sm. split; [exact Hd|].
  intros Hfm Hpm Hprm Hsm.
  destruct (render_lines fm pm ts raws outs prm sm Hn Hfm Hpm Hprm Hsm)
    as (lines & E & Hl).
  exists lines. split; [|exact Hl].
  rewrite Hc, E. reflexivity.
Qed.

Lemma output_is_commented_gcode_witness :
  exists fm pm ts raws prm sm,
    delivers (Container.layer Container.Skipping) true
      (Container.open_file Examples.with_thumbnail) fm pm ts raws prm sm
      (Container.seek (Container.open_file Examples.with_thumbnail) 116) /\
    (clean fm -> clean pm -> clean prm -> clean sm ->
     exists lines,
       contents
         (grow Container.empty_out
            (render [] [(lit "Printer", lit "X1")] [Examples.picture]
               [lit "G1 X0" ++ nl ++ lit "; comment" ++ nl ++
                lit "G1 X1" ++ nl;
                lit "G1 X2" ++ nl]
               [(lit "Layers", lit "10")] [(lit "nozzle", lit "0.4")]))
       = contents Container.empty_out ++ unlines lines /\
       Forall (output_line raws) lines).
Proof.
  apply (output_is_commented_gcode (Container.layer Container.Skipping)
           true 5 (Container.open_file Examples.with_thumbnail)
           Container.empty_out).
  vm_compute. reflexivity.
Defined.

(** * The block that ends the thumbnails, on two containers *)

(** ** Destinations that accept every write *)

Lemma write_line_stays (x : text) (d d' : OutFile) (ok : bool) :
  write_line x d = (ok, d') -> healthy d -> ok = true /\ healthy d'.
Proof.
  intros H Hd. rewrite (write_line_healthy x d Hd) in H.
  injection H as <- <-. split; [reflexivity | apply healthy_grow, Hd].
Qed.

Lemma write_metadata_stays (md : metadata) (d d' : OutFile) (ok : bool) :
  write_metadata md d = (ok, d') -> healthy d -> ok = true /\ healthy d'.
Proof.
  intros H Hd. rewrite (write_metadata_healthy md d Hd) in H.
  injection H as <- <-. split; [reflexivity | apply healthy_grow, Hd].
Qed.

Lemma write_rows_stays (s : text) (d d' : OutFile) (ok : bool) :
  write_rows s d = (ok, d') -> healthy d -> ok = true /\ healthy d'.
Proof.
  intros H Hd. rewrite (write_rows_healthy s d Hd) in H.
  injection H as <- <-. split; [reflexivity | apply healthy_grow, Hd].
Qed.

Lemma write_out_stays (out : text) (d d' : OutFile) (ok : bool) :
  match out with [] => (true, d) | _ :: _ => write_line out d end = (ok, d') ->
  healthy d -> ok = true /\ healthy d'.
Proof.
  destruct out.
  - intros H Hd. injection H as <- <-. split; [reflexivity | exact Hd].
  - apply write_line_stays.
Qed.

Lemma stays_healthy_then {S A B : Type} (fa : A -> OutFile)
    (fb : B -> OutFile) (o : Outcome S A) (k : A -> Outcome S B) :
  stays_healthy fa o ->
  (forall a, healthy (fa a) -> stays_healthy fb (k a)) ->
  stays_healthy fb (and_then o k).
Proof.
  destruct o as [a|res s d|why]; cbn [stays_healthy and_then]; auto.
Qed.

(** Follows a healthy destination through the writes of a stretch. *)
Ltac learn_healthy :=
  repeat match goal with
    | H : write_line _ ?d = (_, _), Hd : healthy ?d |- _ =>
        apply write_line_stays in H; [destruct H as [? ?] | exact Hd]
    | H : write_metadata _ ?d = (_, _), Hd : healthy ?d |- _ =>
        apply write_metadata_stays in H; [destruct H as [? ?] | exact Hd]
    | H : write_rows _ ?d = (_, _), Hd : healthy ?d |- _ =>
        apply write_rows_stays in H; [destruct H as [? ?] | exact Hd]
    | H : match _ with [] => (true, ?d) | _ :: _ => _ end = (_, _),
      Hd : healthy ?d |- _ =>
        apply write_out_stays in H; [destruct H as [? ?] | exact Hd]
    end.

Ltac by_health H :=
  repeat (crack H; try discriminate); learn_healthy;
  injection H; intros; subst; cbn [dst_file] in *;
  first [assumption | discriminate].

Section HealthyFacts.

Variable L : BlockAccessLayer.
Variable verify_checksum : bool.
Variable file_header : FileHeader L.
Variable file_size : Z.

Lemma convert_file_metadata_healthy (src : Src L) (dst : OutFile) :
  healthy dst ->
  stays_healthy (fun r : Z * FileHeader L * Src L * OutFile => snd r)
    (convert_file_metadata L verify_checksum src dst).
Proof.
  intros Hd.
  destruct (convert_file_metadata L verify_checksum src dst)
    as [[[[fs fh] s] d]|res s d|why] eqn:H;
    cbn [stays_healthy snd]; [| |exact I];
    unfold convert_file_metadata in H; by_health H.
Qed.

Lemma convert_printer_metadata_healthy (src : Src L) (dst : OutFile) :
  healthy dst ->
  stays_healthy (fun r : Src L * OutFile => snd r)
    (convert_printer_metadata L verify_checksum file_header src dst).
Proof.
  intros Hd.
  destruct (convert_printer_metadata L verify_checksum file_header src dst)
    as [[s d]|res s d|why] eqn:H;
    cbn [stays_healthy snd]; [| |exact I];
    unfold convert_printer_metadata in H; by_health H.
Qed.

Lemma thumbnails_loop_healthy (fuel : nat) (st : State L) :
  healthy (dst_file st) ->
  stays_healthy dst_file
    (thumbnails_loop L verify_checksum file_header fuel st).
Proof.
  revert st. induction fuel as [|fuel IH]; intros st Hd.
  - cbn [thumbnails_loop]. destruct (negb _); [exact Hd | exact I].
  - destruct (thumbnails_loop L verify_checksum file_header (S fuel) st)
      as [st'|res s d|why] eqn:H; cbn [stays_healthy]; [| |exact I];
      cbn [thumbnails_loop] in H;
      repeat (crack H; try discriminate); learn_healthy;
      first [ injection H; intros; subst; cbn [dst_file] in *;
              first [assumption | discriminate]
            | match type of H with
              | ?loop ?st0 = _ =>
                  specialize (IH st0); rewrite H in IH;
                  cbn [stays_healthy dst_file] in IH; apply IH; assumption
              end ].
Qed.

Lemma convert_thumbnails_healthy (fuel : nat) (src : Src L) (dst : OutFile) :
  healthy dst ->
  stays_healthy dst_file
    (convert_thumbnails L verify_checksum file_header fuel src dst).
Proof.
  intros Hd. unfold convert_thumbnails.
  destruct (read_next_block_header L src file_header verify_checksum)
    as [[res h] s].
  destruct (is_success res); cbn [negb]; [|exact Hd].
  apply thumbnails_loop_healthy. exact Hd.
Qed.

Lemma gcode_loop_healthy (fuel : nat) (st : State L) :
  healthy (dst_file st) ->
  stays_healthy dst_file
    (gcode_loop L verify_checksum file_header file_size fuel st).
Proof.
  revert st. induction fuel as [|fuel IH]; intros st Hd.
  - cbn [gcode_loop]. destruct (negb _); [exact Hd | exact I].
  - destruct (gcode_loop L verify_checksum file_header file_size (S fuel) st)
      as [st'|res s d|why] eqn:H; cbn [stays_healthy]; [| |exact I];
      cbn [gcode_loop] in H;
      repeat (crack H; try discriminate); learn_healthy;
      first [ injection H; intros; subst; cbn [dst_file] in *;
              first [assumption | discriminate]
            | match type of H with
              | ?loop ?st0 = _ =>
                  specialize (IH st0); rewrite H in IH;
                  cbn [stays_healthy dst_file] in IH; apply IH; assumption
              end ].
Qed.

Lemma convert_gcode_healthy (fuel : nat) (st : State L) :
  healthy (dst_file st) ->
  stays_healthy dst_file
    (convert_gcode L verify_checksum file_header file_size fuel st).
Proof.
  intros Hd. unfold convert_gcode.
  destruct (write_line nl (dst_file st)) as [ok d] eqn:Hw.
  apply write_line_stays in Hw; [|exact Hd]. destruct Hw as [-> Hd1].
  cbn [negb].
  destruct (skip_block_content L (src_file st) file_header (block_header st))
    as [res s].
  destruct (is_success res); cbn [negb]; [|exact Hd1].
  destruct (read_next_block_header_of L s file_header GCode verify_checksum)
    as [[res' h] s'].
  destruct (is_success res'); cbn [negb]; [|exact Hd1].
  apply gcode_loop_healthy. exact Hd1.
Qed.

(** On a destination that accepts every write, what the last stretch
    returns and adds does not depend on what the destination holds. *)
Lemma convert_slicer_metadata_grows (st : State L) :
  exists res s' rest,
    forall d, healthy d ->
      convert_slicer_metadata L verify_checksum file_header (with_dst st d)
      = Return res s' (grow d rest).
Proof.
  unfold convert_slicer_metadata, with_dst.
  cbn [src_file dst_file block_header restore_position].
  destruct (read_next_block_header L (src_file st) file_header verify_checksum)
    as [[res h] s1].
  destruct (is_success res) eqn:Hres; cbn [negb].
  2:{ exists res, s1, []. intros d _. rewrite grow_nil. reflexivity. }
  destruct (block_type_eqb (header_type L h) SlicerMetadata); cbn [negb].
  2:{ exists InvalidSequenceOfBlocks, s1, []. intros d _.
      rewrite grow_nil. reflexivity. }
  destruct (read_slicer_metadata L s1 file_header h) as [[res2 sm] s2].
  destruct (is_success res2); cbn [negb].
  2:{ exists res2, s2, []. intros d _. rewrite grow_nil. reflexivity. }
  exists Success, s2,
    ((nl ++ lit "; prusaslicer_config = begin" ++ nl) ++ metadata_lines sm ++
     lit "; prusaslicer_config = end" ++ nl ++ nl).
  intros d Hd.
  rewrite write_line_healthy by exact Hd. cbn [negb].
  rewrite write_metadata_healthy by (apply healthy_grow, Hd). cbn [negb].
  rewrite write_line_healthy by (do 2 apply healthy_grow; exact Hd).
  cbn [negb]. rewrite !grow_grow. reflexivity.
Qed.

End HealthyFacts.

Lemma through_gcode_healthy (L : BlockAccessLayer) (vc : bool) (fuel : nat)
    (src : Src L) (dst : OutFile) :
  healthy dst -> stays_healthy dst_file (through_gcode L vc fuel src dst).
Proof.
  intros Hd. unfold through_gcode.
  eapply stays_healthy_then;
    [exact (convert_file_metadata_healthy L vc src dst Hd)|].
  intros [[[fs fh] s] d] Hd1. cbn [snd] in Hd1.
  eapply stays_healthy_then;
    [exact (convert_printer_metadata_healthy L vc fh s d Hd1)|].
  intros [s0 d0] Hd2. cbn [snd] in Hd2.
  eapply stays_healthy_then;
    [exact (convert_thumbnails_healthy L vc fh fuel s0 d0 Hd2)|].
  intros st1 Hd3.
  exact (convert_gcode_healthy L vc fh fs fuel st1 Hd3).
Qed.

(** ** Back at the block that ended the thumbnails *)

Module SkippedFacts.
Import Container SwapFacts.

Section Back.

Variable mode : TypedRead.

Local Abbreviation L := (layer mode).

(** On a container the run is its stretches up to the G-code, then the
    print metadata and the slicer metadata. *)
Lemma from_binary_to_ascii_through (fuel : nat) (src : File) (dst : OutFile) :
  from_binary_to_ascii L true fuel src dst
  = (do st <- through_gcode L true fuel src dst;
     do st <- convert_print_metadata L true tt st;
     convert_slicer_metadata L true tt st).
Proof.
  unfold from_binary_to_ascii, through_gcode.
  destruct (convert_file_metadata L true src dst)
    as [[[[fs []] s] d]|res s d|why]; cbn [and_then]; try reflexivity.
  destruct (convert_printer_metadata L true tt s d)
    as [[s0 d0]|res s' d'|why]; cbn [and_then]; try reflexivity.
  destruct (convert_thumbnails L true tt fuel s0 d0)
    as [st1|res s' d'|why]; cbn [and_then]; reflexivity.
Qed.

(** Back at a print-metadata block, its payload is decoded and written. *)
Lemma print_metadata_read (pre post : list Block) (vc : bool) (fh : unit)
    (b : Block) (md : metadata) (st : State L) :
  blocks (src_file st) = pre ++ b :: post ->
  block_type b = PrintMetadata ->
  payload b = MetadataPayload md ->
  restore_position st = Z.of_nat (offset_after pre) ->
  healthy (dst_file st) ->
  convert_print_metadata L vc fh st
  = Next (Build_State L
            (seek (src_file st)
               (offset_after pre + block_header_size + payload_size b))
            (grow (dst_file st) (nl ++ metadata_lines md))
            (header_of b) (restore_position st)).
Proof.
  intros Hb Hty Hpay Hrp Hd.
  unfold convert_print_metadata, read_print_metadata_block. expose.
  rewrite Hrp. unfold seek_set.
  destruct (Z.ltb_spec (Z.of_nat (offset_after pre)) 0) as [Hneg|_]; [lia|].
  rewrite Nat2Z.id. unfold read_block_header.
  cbn [position blocks seek with_src src_file]. rewrite Hb.
  unfold offset_after.
  destruct (Nat.ltb_spec (file_header_size + blocks_size pre) file_header_size)
    as [Hlt|_]; [lia|].
  replace (file_header_size + blocks_size pre - file_header_size)
    with (blocks_size pre) by lia.
  rewrite block_at_differing. cbn [is_success negb header_of type].
  rewrite Hty. cbn [block_type_eqb negb].
  unfold read_payload, payload_here.
  cbn [position blocks seek with_src src_file dst_file restore_position].
  rewrite Hb.
  destruct (Nat.ltb_spec
              (file_header_size + blocks_size pre + block_header_size)
              (file_header_size + block_header_size)) as [Hlt|_]; [lia|].
  replace (file_header_size + blocks_size pre + block_header_size
           - file_header_size - block_header_size)
    with (blocks_size pre) by lia.
  rewrite block_at_differing, Hpay. cbn [pick_metadata is_success negb].
  rewrite write_line_healthy by exact Hd. cbn [negb].
  rewrite write_metadata_healthy by (apply healthy_grow, Hd). cbn [negb].
  rewrite grow_grow, ?Hrp. unfold seek. cbn [well_formed blocks].
  reflexivity.
Qed.

End Back.

Section SwapSlicer.

Variable mode : TypedRead.
Variables pre post : list Block.
Variables b1 b2 : Block.
Hypothesis same_type : block_type b1 = block_type b2.
Hypothesis same_size : payload_size b1 = payload_size b2.

Local Abbreviation L := (layer mode).

(** Behind the block that differs, the slicer metadata is read alike. *)
Lemma swap_convert_slicer_metadata (vc : bool) (fh : unit) (st : State L) :
  blocks (src_file st) = pre ++ b1 :: post ->
  offset_after pre + block_header_size <= position (src_file st) ->
  convert_slicer_metadata L vc fh
    (with_blocks_state mode (pre ++ b2 :: post) st)
  = with_blocks_outcome mode (pre ++ b2 :: post)
      (convert_slicer_metadata L vc fh st).
Proof.
  intros Hb Hpos. unfold convert_slicer_metadata. expose.
  rewrite (swap_read_block_header pre post b1 b2 same_type same_size
             (src_file st) fh vc Hb).
  destruct (read_block_header (src_file st) fh vc) as [[r h] f1] eqn:E.
  apply read_block_header_advances in E. destruct E as ((Eb & _ & _) & Ep).
  destruct r; cbn [is_success negb]; try reflexivity.
  specialize (Ep eq_refl).
  destruct (negb (block_type_eqb (type h) SlicerMetadata)); [reflexivity|].
  rewrite (swap_read_payload pre post b1 b2 same_size pick_metadata []
             f1 fh h) by (try congruence; unfold block_header_size in *; lia).
  destruct (read_payload pick_metadata [] f1 fh h) as [[r2 md] f2].
  destruct (is_success r2); cbn [negb]; [|reflexivity].
  destruct (write_line _ (dst_file st)) as [ok1 d1].
  destruct ok1; cbn [negb]; [|reflexivity].
  destruct (write_metadata md d1) as [ok2 d2].
  destruct ok2; cbn [negb]; [|reflexivity].
  destruct (write_line _ d2) as [ok3 d3].
  destruct ok3; reflexivity.
Qed.

(** The two runs up to the G-code: the same stretches on the same
    stream positions, and the state in which the thumbnails are left. *)
Lemma swap_through_gcode (fuel : nat) :
  loop_left_at mode fuel (pre ++ b1 :: post) (offset_after pre) ->
  exists fs st1,
    through_gcode L true fuel (open_file (pre ++ b1 :: post)) empty_out
    = convert_gcode L true tt fs fuel st1 /\
    through_gcode L true fuel (open_file (pre ++ b2 :: post)) empty_out
    = with_blocks_outcome mode (pre ++ b2 :: post)
        (convert_gcode L true tt fs fuel st1) /\
    blocks (src_file st1) = pre ++ b1 :: post /\
    restore_position st1 = Z.of_nat (offset_after pre).
Proof.
  intros (fs & fh & s & d & s0 & d0 & st1 & H1 & H2 & H3 & Hrp).
  destruct fh.
  pose proof H1 as Q1. apply convert_file_metadata_position in Q1.
  destruct Q1 as (B1 & P1).
  pose proof H2 as Q2. apply convert_printer_metadata_position in Q2.
  destruct Q2 as (B2 & P2).
  pose proof H3 as Q3. apply convert_thumbnails_bound in Q3.
  destruct Q3 as (B3 & P3).
  cbn [blocks open_file] in B1.
  rewrite Hrp in P3. unfold tell in P3.
  destruct (convert_thumbnails_restore _ _ _ _ _ _ _ H3)
    as (Hexit & s_before & Hrp' & Hh).
  apply read_block_header_advances in Hh.
  destruct Hh as (_ & Hpos). specialize (Hpos eq_refl).
  rewrite Hrp in Hrp'. cbn [ftell layer] in Hrp'.
  pose proof (swap_convert_file_metadata mode pre post b1 b2
                same_type same_size true (open_file (pre ++ b1 :: post))
                empty_out fs tt s d eq_refl) as R1.
  pose proof (swap_convert_printer_metadata mode pre post b1 b2
                same_type same_size true tt s d s0 d0) as R2.
  pose proof (swap_convert_thumbnails mode pre post b1 b2
                same_type same_size true tt fuel s0 d0 st1) as R3.
  pose proof (swap_convert_gcode mode pre post b1 b2
                same_type same_size true tt fs fuel st1) as R4.
  unfold offset_after, tell, block_header_size, file_header_size in *.
  exists fs, st1.
  assert (Hb1 : blocks (src_file st1) = pre ++ b1 :: post) by congruence.
  split; [|split; [|split; [exact Hb1 | exact Hrp]]].
  - unfold through_gcode. rewrite H1. settle. rewrite H2. settle.
    rewrite H3. settle. reflexivity.
  - unfold through_gcode.
    change (open_file (pre ++ b2 :: post))
      with (with_blocks (pre ++ b2 :: post) (open_file (pre ++ b1 :: post))).
    rewrite R1 by first [assumption | lia]. settle.
    rewrite R2 by first [assumption | congruence | lia]. settle.
    rewrite R3 by first [assumption | congruence | lia]. settle.
    apply R4; first [assumption | congruence | lia].
Qed.

End SwapSlicer.

End SkippedFacts.

(** C10, as amended.  Two containers that differ only in the payload of
    the block whose header ended the thumbnail loop (same type, same
    size) are converted alike up to line 205: the same stretches, the
    same stream positions, the same text written, and the same result
    when the run ends there.  Line 210 then sets the source back to that
    block.  When the block is not a print-metadata block, the two runs
    end alike.  When it is a print-metadata block holding the pairs [md1]
    in one container and [md2] in the other, its payload is decoded and
    written: the two runs return the same code, and their outputs are
    the text written up to line 205, then a newline and the lines of
    [md1], respectively of [md2], then the same remaining text. *)
Theorem skipped_payload_not_decoded (mode : Container.TypedRead) (fuel : nat)
    (pre post : list Container.Block) (b1 b2 : Container.Block) :
  Container.block_type b1 = Container.block_type b2 ->
  Container.payload_size b1 = Container.payload_size b2 ->
  loop_left_at mode fuel (pre ++ b1 :: post) (offset_after pre) ->
  let L := Container.layer mode in
  let bs1 := pre ++ b1 :: post in
  let bs2 := pre ++ b2 :: post in
  let upto1 :=
    through_gcode L true fuel (Container.open_file bs1) Container.empty_out in
  let upto2 :=
    through_gcode L true fuel (Container.open_file bs2) Container.empty_out in
  upto2 = with_blocks_outcome mode bs2 upto1 /\
  (forall res s d,
     upto1 = Return res s d ->
     Container.run mode fuel bs1 = Some (res, contents d) /\
     Container.run mode fuel bs2 = Some (res, contents d)) /\
  (Container.block_type b1 <> PrintMetadata ->
   Container.run mode fuel bs1 = Container.run mode fuel bs2) /\
  (forall st2 md1 md2,
     upto1 = Next st2 ->
     Container.block_type b1 = PrintMetadata ->
     Container.payload b1 = Container.MetadataPayload md1 ->
     Container.payload b2 = Container.MetadataPayload md2 ->
     exists res rest,
       Container.run mode fuel bs1
       = Some (res, contents (dst_file st2) ++
                    nl ++ metadata_lines md1 ++ rest) /\
       Container.run mode fuel bs2
       = Some (res, contents (dst_file st2) ++
                    nl ++ metadata_lines md2 ++ rest)).
Proof.
  intros Hty Hsz Hleft L bs1 bs2 upto1 upto2. subst L bs1 bs2.
  destruct (SkippedFacts.swap_through_gcode mode pre post b1 b2 Hty Hsz
              fuel Hleft) as (fs & st1 & U1 & U2 & Hb1 & Hrp).
  fold upto1 in U1. fold upto2 in U2.
  rewrite <- U1 in U2.
  assert (R1 : Container.run mode fuel (pre ++ b1 :: post)
               = match (do st <- upto1;
                        do st <- convert_print_metadata (Container.layer mode) true tt st;
                        convert_slicer_metadata (Container.layer mode) true tt st) with
                 | Return res _ d => Some (res, contents d)
                 | _ => None
                 end).
  { unfold Container.run.
    rewrite SkippedFacts.from_binary_to_ascii_through. reflexivity. }
  assert (R2 : Container.run mode fuel (pre ++ b2 :: post)
               = match (do st <- upto2;
                        do st <- convert_print_metadata (Container.layer mode) true tt st;
                        convert_slicer_metadata (Container.layer mode) true tt st) with
                 | Return res _ d => Some (res, contents d)
                 | _ => None
                 end).
  { unfold Container.run.
    rewrite SkippedFacts.from_binary_to_ascii_through. reflexivity. }
  assert (Hs : stays_healthy dst_file upto1).
  { apply (through_gcode_healthy (Container.layer mode) true fuel (Container.open_file (pre ++ b1 :: post))
             Container.empty_out). split; reflexivity. }
  clearbody upto1 upto2.
  split; [exact U2|]. split; [|split].
  - intros res s d Hret. rewrite R1, R2, U2, Hret.
    cbn [with_blocks_outcome and_then]. split; reflexivity.
  - intros Hnot. rewrite R1, R2, U2.
    destruct upto1 as [st2|r s' d'|w];
      cbn [with_blocks_outcome and_then]; try reflexivity.
    symmetry in U1.
    pose proof (convert_gcode_restore _ _ _ _ _ _ _ U1) as K.
    pose proof U1 as B4. apply SwapFacts.convert_gcode_blocks in B4.
    destruct (SwapFacts.print_metadata_refused mode pre post true tt b1 st2)
      as (x1 & ->);
      [congruence | assumption | rewrite K; exact Hrp |].
    destruct (SwapFacts.print_metadata_refused mode pre post true tt b2
                (with_blocks_state mode (pre ++ b2 :: post) st2))
      as (x2 & ->);
      [reflexivity | congruence
      | cbn [with_blocks_state restore_position]; rewrite K; exact Hrp |].
    reflexivity.
  - intros st2 md1 md2 Hnext Hpm P1 P2.
    assert (H4 : convert_gcode (Container.layer mode) true tt fs fuel st1 = Next st2)
      by congruence.
    pose proof (convert_gcode_restore _ _ _ _ _ _ _ H4) as K.
    pose proof H4 as B4. apply SwapFacts.convert_gcode_blocks in B4.
    assert (Hh : healthy (dst_file st2)).
    { rewrite Hnext in Hs. exact Hs. }
    pose proof (SkippedFacts.print_metadata_read mode pre post true tt
                  b1 md1 st2) as Q1.
    specialize (Q1 ltac:(congruence) Hpm P1 ltac:(rewrite K; exact Hrp) Hh).
    pose proof (SkippedFacts.print_metadata_read mode pre post true tt
                  b2 md2 (with_blocks_state mode (pre ++ b2 :: post) st2))
      as Q2.
    specialize (Q2 eq_refl ltac:(congruence) P2
                  ltac:(cbn [with_blocks_state restore_position];
                        rewrite K; exact Hrp) Hh).
    set (p := offset_after pre + Container.block_header_size
              + Container.payload_size b1).
    set (st3 := Build_State (Container.layer mode) (Container.seek (src_file st2) p)
                  (grow (dst_file st2) (nl ++ metadata_lines md1))
                  (Container.header_of b1) (restore_position st2)).
    destruct (convert_slicer_metadata_grows (Container.layer mode) true tt st3)
      as (res & s' & rest & G).
    exists res, rest. split.
    + rewrite R1, Hnext. cbn [and_then]. rewrite Q1. cbn [and_then].
      fold p. fold st3.
      change st3 with (with_dst st3 (grow (dst_file st2)
                                       (nl ++ metadata_lines md1))).
      rewrite G by (apply healthy_grow, Hh).
      unfold grow. cbn [contents]. rewrite <- !app_assoc. reflexivity.
    + rewrite R2, U2, Hnext. cbn [with_blocks_outcome and_then].
      rewrite Q2. cbn [and_then].
      assert (Hhead : Container.header_of b2 = Container.header_of b1).
      { unfold Container.header_of. rewrite Hty, Hsz. reflexivity. }
      rewrite Hhead, <- Hsz. fold p.
      change (Build_State (Container.layer mode)
                (Container.seek (src_file (with_blocks_state mode (pre ++ b2 :: post) st2)) p)
                (grow (dst_file (with_blocks_state mode (pre ++ b2 :: post) st2))
                   (nl ++ metadata_lines md2))
                (Container.header_of b1)
                (restore_position (with_blocks_state mode (pre ++ b2 :: post) st2)))
        with (with_blocks_state mode (pre ++ b2 :: post)
                (with_dst st3 (grow (dst_file st2)
                                 (nl ++ metadata_lines md2)))).
      rewrite (SkippedFacts.swap_convert_slicer_metadata mode pre post b1 b2
                 Hty Hsz true tt).
      * rewrite G by (apply healthy_grow, Hh).
        cbn [with_blocks_outcome]. unfold grow. cbn [contents].
        rewrite <- !app_assoc. reflexivity.
      * unfold st3. cbn [with_dst src_file Container.blocks Container.seek].
        congruence.
      * unfold st3, p.
        cbn [with_dst src_file Container.position Container.seek]. lia.
Qed.

(** The theorem on the example and on the example with another number of
    layers: both runs return the same code, and the outputs are the text
    up to the end of the G-code, the print metadata of each container,
    and the same remaining text. *)
Lemma skipped_payload_not_decoded_witness :
  exists res rest,
    Container.run Container.Skipping 5 Examples.stored
    = Some (res,
            (Examples.output_before_gcode ++
             lit "G1 X0" ++ nl ++ lit "; comment" ++ nl ++ lit "G1 X1" ++ nl)
            ++ nl ++ metadata_lines [(lit "Layers", lit "10")] ++ rest) /\
    Container.run Container.Skipping 5 Examples.stored_other
    = Some (res,
            (Examples.output_before_gcode ++
             lit "G1 X0" ++ nl ++ lit "; comment" ++ nl ++ lit "G1 X1" ++ nl)
            ++ nl ++ metadata_lines [(lit "Layers", lit "20")] ++ rest).
Proof.
  set (L := Container.layer Container.Skipping).
  set (src := Container.open_file Examples.stored).
  assert (Hleft : loop_left_at Container.Skipping 5
                    ([Examples.file_meta; Examples.printer_meta] ++
                     Examples.print_meta ::
                     [Examples.slicer_meta; Examples.gcode])
                    (offset_after
                       [Examples.file_meta; Examples.printer_meta])).
  { set (d0 := grow Container.empty_out
                 (producer_unknown_line ++ lit "; Printer = X1" ++ nl)).
    exists 129%Z, tt, (Container.seek src 24),
      (grow Container.empty_out producer_unknown_line),
      (Container.seek src 49), d0,
      (Build_State L (Container.seek src 57) d0
         (Container.header_of Examples.print_meta) 49%Z).
    repeat match goal with |- _ /\ _ => split end; vm_compute; reflexivity. }
  destruct (skipped_payload_not_decoded Container.Skipping 5
              [Examples.file_meta; Examples.printer_meta]
              [Examples.slicer_meta; Examples.gcode]
              Examples.print_meta Examples.print_meta_other
              eq_refl eq_refl Hleft) as (_ & _ & _ & H).
  apply (H (Build_State L (Container.seek src 129)
              (grow Container.empty_out
                 (Examples.output_before_gcode ++
                  lit "G1 X0" ++ nl ++ lit "; comment" ++ nl ++
                  lit "G1 X1" ++ nl))
              (Container.header_of Examples.gcode) 49%Z)
           [(lit "Layers", lit "10")] [(lit "Layers", lit "20")]);
    vm_compute; reflexivity.
Defined.
